(** * Webhook ingestion and query API: a shallow embedding

    The development follows the Python sources [app/config.py],
    [app/models.py], [app/storage.py] and [app/main.py].

    - Python [str] values are lists of Unicode code points, [bytes] values
      are lists of octets; both are [list N].
    - Python exceptions are the constructors of [exn]; a computation that
      may raise has type [result A].
    - The SQLite table [messages] is the list of its rows in insertion
      order; the [PRIMARY KEY] check is written out in [insert_message].
    - Library functions the sources call ([hashlib.sha256], [hmac.new],
      [hmac.compare_digest], [re.match], [str.replace], [str.endswith],
      the SQL operators) are modelled next to their callers.  The JSON
      decoder and the date parser behind the validator are parameters of
      the endpoints. *)

From Stdlib Require Import NArith ZArith Lia Bool Ascii String.
From stdpp Require Import base decidable list sorting gmap.

Set Warnings "-register-all".

Local Open Scope N_scope.

(** ** Python values *)

Abbreviation str := (list N).
Abbreviation bytes := (list N).

(** [py "abc"] is the Python string whose code points are the character
    codes of the literal. *)
Definition py (lit : string) : str :=
  List.map N_of_ascii (list_ascii_of_string lit).

Inductive exn : Type :=
  | AttributeError
  | TypeError
  | ValueError
  | OverflowError
  | UnicodeEncodeError
  | IntegrityError
  (** [sqlite3.OperationalError] *)
  | OperationalError
  (** pydantic's error, with the names of the fields that failed *)
  | ValidationError (locs : list str).

Inductive result (A : Type) : Type :=
  | Ok (a : A)
  | Raise (e : exn).
Arguments Ok {A} a.
Arguments Raise {A} e.

Definition rbind {A B} (r : result A) (k : A -> result B) : result B :=
  match r with
  | Ok a => k a
  | Raise e => Raise e
  end.

Notation "'do' x <- r ; k" := (rbind r (fun x => k))
  (at level 10, x name, r at level 100, k at level 200).

Definition is_ascii (s : str) : bool := forallb (fun c => c <? 128) s.

(** [str.encode()] with the default codec: UTF-8, strict.  Surrogate code
    points have no encoding. *)
Definition utf8_encode_char (c : N) : option bytes :=
  if c <? 0x80 then Some [c]
  else if c <? 0x800 then Some [0xC0 + c / 64; 0x80 + c mod 64]
  else if (0xD800 <=? c) && (c <=? 0xDFFF) then None
  else if c <? 0x10000 then
    Some [0xE0 + c / 4096; 0x80 + (c / 64) mod 64; 0x80 + c mod 64]
  else if c <? 0x110000 then
    Some [0xF0 + c / 262144; 0x80 + (c / 4096) mod 64;
          0x80 + (c / 64) mod 64; 0x80 + c mod 64]
  else None.

Fixpoint str_encode (s : str) : result bytes :=
  match s with
  | [] => Ok []
  | c :: s' =>
      match utf8_encode_char c with
      | None => Raise UnicodeEncodeError
      | Some bs => do rest <- str_encode s'; Ok (bs ++ rest)
      end
  end.

(** ** hashlib.sha256 (FIPS 180-4) on 32-bit words held in [N] *)

Module SHA256.

Definition w32 (x : N) : N := x mod 2 ^ 32.
Definition add32 (x y : N) : N := w32 (x + y).
Definition not32 (x : N) : N := N.lxor (w32 x) 0xFFFFFFFF.
Definition rotr (n x : N) : N :=
  N.lor (N.shiftr x n) (w32 (N.shiftl x (32 - n))).

Definition Ch (x y z : N) : N := N.lxor (N.land x y) (N.land (not32 x) z).
Definition Maj (x y z : N) : N :=
  N.lxor (N.lxor (N.land x y) (N.land x z)) (N.land y z).
Definition Sigma0 (x : N) : N :=
  N.lxor (N.lxor (rotr 2 x) (rotr 13 x)) (rotr 22 x).
Definition Sigma1 (x : N) : N :=
  N.lxor (N.lxor (rotr 6 x) (rotr 11 x)) (rotr 25 x).
Definition sigma0 (x : N) : N :=
  N.lxor (N.lxor (rotr 7 x) (rotr 18 x)) (N.shiftr x 3).
Definition sigma1 (x : N) : N :=
  N.lxor (N.lxor (rotr 17 x) (rotr 19 x)) (N.shiftr x 10).

(** The first 64 primes. *)
Definition primes : list N :=
  [2; 3; 5; 7; 11; 13; 17; 19; 23; 29; 31; 37; 41; 43; 47; 53;
   59; 61; 67; 71; 73; 79; 83; 89; 97; 101; 103; 107; 109; 113; 127; 131;
   137; 139; 149; 151; 157; 163; 167; 173; 179; 181; 191; 193; 197; 199;
   211; 223; 227; 229; 233; 239; 241; 251; 257; 263; 269; 271; 277; 281;
   283; 293; 307; 311].

(** The greatest [r] below [2 ^ bits] with [r ^ 3 <= n], bit by bit. *)
Fixpoint cube_root (n : N) (bits : nat) (r : N) : N :=
  match bits with
  | O => r
  | S b =>
      let c := r + 2 ^ N.of_nat b in
      cube_root n b (if c * c * c <=? n then c else r)
  end.

(** The round constants: the first 32 bits of the fractional parts of the
    cube roots of the primes. *)
Definition K : list N :=
  List.map (fun p => w32 (cube_root (p * 2 ^ 96) 40 0)) primes.

(** The initial hash value: the first 32 bits of the fractional parts of
    the square roots of the first eight primes. *)
Definition H0 : list N :=
  List.map (fun p => w32 (N.sqrt (p * 2 ^ 64))) (take 8 primes).

(** Big-endian rendering of [x] on [n] octets. *)
Fixpoint be_bytes (n : nat) (x : N) : bytes :=
  match n with
  | O => []
  | S n' => (x / 256 ^ N.of_nat n') mod 256 :: be_bytes n' x
  end.

Definition be_word (bs : bytes) : N :=
  fold_left (fun acc b => acc * 256 + b) bs 0.

(** Padding: a [0x80] octet, zeros up to 56 modulo 64, the bit length on
    eight octets. *)
Definition pad (msg : bytes) : bytes :=
  let len := N.of_nat (length msg) in
  let zeros := (119 - len mod 64) mod 64 in
  msg ++ [0x80] ++ repeat 0 (N.to_nat zeros) ++ be_bytes 8 (8 * len).

Fixpoint chunks (fuel : nat) (k : nat) (bs : bytes) : list bytes :=
  match fuel, bs with
  | O, _ | _, [] => []
  | S fuel', _ => take k bs :: chunks fuel' k (drop k bs)
  end.

(** The message schedule, newest word first: [rev_w] holds
    [W(t-1), W(t-2), ...]. *)
Fixpoint schedule (n : nat) (rev_w : list N) : list N :=
  match n with
  | O => rev_w
  | S n' =>
      let at_ i := nth i rev_w 0 in
      let w := add32 (add32 (sigma1 (at_ 1%nat)) (at_ 6%nat))
                     (add32 (sigma0 (at_ 14%nat)) (at_ 15%nat)) in
      schedule n' (w :: rev_w)
  end.

Definition block_words (block : bytes) : list N :=
  let w16 := List.map be_word (chunks 16 4 block) in
  rev (schedule 48 (rev w16)).

Definition round (st : list N) (kw : N * N) : list N :=
  match st with
  | [a; b; c; d; e; f; g; h] =>
      let t1 := add32 (add32 (add32 h (Sigma1 e)) (add32 (Ch e f g) kw.1)) kw.2 in
      let t2 := add32 (Sigma0 a) (Maj a b c) in
      [add32 t1 t2; a; b; c; add32 d t1; e; f; g]
  | _ => st
  end.

Definition compress (h : list N) (block : bytes) : list N :=
  let st := fold_left round (combine K (block_words block)) h in
  List.map (fun p => add32 p.1 p.2) (combine h st).

Definition digest (msg : bytes) : bytes :=
  let padded := pad msg in
  let blocks := chunks (length padded) 64 padded in
  flat_map (be_bytes 4) (fold_left compress blocks H0).

End SHA256.

(** ** hmac (RFC 2104) *)

Module HMAC.

Definition block_size : nat := 64.

Definition prepare_key (key : bytes) : bytes :=
  let k := if (block_size <? length key)%nat then SHA256.digest key else key in
  k ++ repeat 0 (block_size - length k)%nat.

(** [hmac.new(key, msg, hashlib.sha256).digest()] *)
Definition digest (key msg : bytes) : bytes :=
  let k := prepare_key key in
  let ipad := List.map (N.lxor 0x36) k in
  let opad := List.map (N.lxor 0x5c) k in
  SHA256.digest (opad ++ SHA256.digest (ipad ++ msg)).

Definition hex_digit (d : N) : N :=
  if d <? 10 then 48 + d else 87 + d.

(** [.hexdigest()]: two lowercase hexadecimal digits per octet. *)
Definition hex (bs : bytes) : str :=
  flat_map (fun b => [hex_digit ((b / 16) mod 16); hex_digit (b mod 16)]) bs.

Definition hexdigest (key msg : bytes) : str := hex (digest key msg).

(** [hmac.compare_digest(a, b)] on two [str] arguments: both must be
    ASCII-only, otherwise [TypeError]; the comparison itself is equality. *)
Definition compare_digest (a b : str) : result bool :=
  if is_ascii a && is_ascii b then Ok (bool_decide (a = b))
  else Raise TypeError.

End HMAC.

(** ** app/config.py *)

Record Settings : Type := {
  DATABASE_URL : str;
  LOG_LEVEL : str;
  WEBHOOK_SECRET : option str
}.

(** ** app/main.py: the signature verifier *)

(** [settings.WEBHOOK_SECRET.encode()] on [None] is an [AttributeError]. *)
Definition secret_key (settings : Settings) : result bytes :=
  match WEBHOOK_SECRET settings with
  | None => Raise AttributeError
  | Some secret => str_encode secret
  end.

Definition verify_signature (settings : Settings) (body : bytes) (signature : str)
  : result bool :=
  do key <- secret_key settings;
  let expected := HMAC.hexdigest key body in
  HMAC.compare_digest expected signature.

(** ** re: the fragment used by [models.py] *)

Module Re.

(** Code points with the Unicode property Decimal_Number (Unicode 14.0),
    the class [\d] of a [str] pattern. *)
Definition decimal_ranges : list (N * N) :=
  [(0x30, 0x39); (0x660, 0x669); (0x6F0, 0x6F9); (0x7C0, 0x7C9);
   (0x966, 0x96F); (0x9E6, 0x9EF); (0xA66, 0xA6F); (0xAE6, 0xAEF);
   (0xB66, 0xB6F); (0xBE6, 0xBEF); (0xC66, 0xC6F); (0xCE6, 0xCEF);
   (0xD66, 0xD6F); (0xDE6, 0xDEF); (0xE50, 0xE59); (0xED0, 0xED9);
   (0xF20, 0xF29); (0x1040, 0x1049); (0x1090, 0x1099); (0x17E0, 0x17E9);
   (0x1810, 0x1819); (0x1946, 0x194F); (0x19D0, 0x19D9); (0x1A80, 0x1A89);
   (0x1A90, 0x1A99); (0x1B50, 0x1B59); (0x1BB0, 0x1BB9); (0x1C40, 0x1C49);
   (0x1C50, 0x1C59); (0xA620, 0xA629); (0xA8D0, 0xA8D9); (0xA900, 0xA909);
   (0xA9D0, 0xA9D9); (0xA9F0, 0xA9F9); (0xAA50, 0xAA59); (0xABF0, 0xABF9);
   (0xFF10, 0xFF19); (0x104A0, 0x104A9); (0x10D30, 0x10D39);
   (0x11066, 0x1106F); (0x110F0, 0x110F9); (0x11136, 0x1113F);
   (0x111D0, 0x111D9); (0x112F0, 0x112F9); (0x11450, 0x11459);
   (0x114D0, 0x114D9); (0x11650, 0x11659); (0x116C0, 0x116C9);
   (0x11730, 0x11739); (0x118E0, 0x118E9); (0x11950, 0x11959);
   (0x11C50, 0x11C59); (0x11D50, 0x11D59); (0x11DA0, 0x11DA9);
   (0x16A60, 0x16A69); (0x16AC0, 0x16AC9); (0x16B50, 0x16B59);
   (0x1D7CE, 0x1D7FF); (0x1E140, 0x1E149); (0x1E2F0, 0x1E2F9);
   (0x1E950, 0x1E959); (0x1FBF0, 0x1FBF9)].

Definition is_decimal (c : N) : bool :=
  existsb (fun r => (r.1 <=? c) && (c <=? r.2)) decimal_ranges.

Inductive regex : Type :=
  | Bol                       (* ^  *)
  | Eol                       (* $  *)
  | Lit (c : N)               (* an escaped or plain character *)
  | Digit                     (* \d *)
  | Plus (r : regex)          (* r+ *)
  | Seq (r1 r2 : regex).

(** A position in the subject: whether it is the start of the string, and
    what is left of the subject. *)
Definition pos : Type := bool * str.

(** [$] without [re.MULTILINE]: the end of the string, or just before a
    newline that ends the string. *)
Definition at_eol (rest : str) : bool :=
  match rest with
  | [] => true
  | [c] => c =? 10
  | _ => false
  end.

(** One or more iterations of [step], longest first. *)
Fixpoint iterate (step : pos -> list pos) (fuel : nat) (p : pos) : list pos :=
  match fuel with
  | O => []
  | S fuel' => flat_map (fun p' => iterate step fuel' p' ++ [p']) (step p)
  end.

(** All positions at which a match of [r] that starts at [p] can end. *)
Fixpoint ends (r : regex) (p : pos) : list pos :=
  match r with
  | Bol => if p.1 then [p] else []
  | Eol => if at_eol p.2 then [p] else []
  | Lit c =>
      match p.2 with
      | x :: rest => if x =? c then [(false, rest)] else []
      | [] => []
      end
  | Digit =>
      match p.2 with
      | x :: rest => if is_decimal x then [(false, rest)] else []
      | [] => []
      end
  | Plus r' => iterate (ends r') (S (length p.2)) p
  | Seq r1 r2 => flat_map (ends r2) (ends r1 p)
  end.

(** [re.match(pattern, s)] as a truth value: a match anchored at the
    start of [s]. *)
Definition match_ (pattern : regex) (s : str) : bool :=
  match ends pattern (true, s) with
  | [] => false
  | _ :: _ => true
  end.

End Re.

(** ** str methods used by [models.py] *)

(** [v.endswith('Z')] *)
Definition endswith_Z (v : str) : bool :=
  match last v with
  | Some c => c =? 90
  | None => false
  end.

(** [v.replace('Z', '+00:00')]: every occurrence is replaced. *)
Definition replace_Z (v : str) : str :=
  flat_map (fun c => if c =? 90 then py "+00:00" else [c]) v.

(** ** datetime.fromisoformat

    The validator in [models.py] only asks whether [fromisoformat] raises
    [ValueError].  The embedding of the validator takes the parser as a
    parameter; [PyDatetime.fromisoformat] below is the parser for the
    format written by [datetime.isoformat()],
    [YYYY-MM-DD[*HH[:MM[:SS[.fff[fff]]]][+HH:MM[:SS[.ffffff]]]]], where [*]
    is any single character.  Later versions of the library accept these
    strings and further forms.  The parser is used wherever a statement is
    evaluated on a concrete timestamp. *)

Module PyDatetime.

Record datetime : Type := {
  year : N; month : N; day : N;
  hour : N; minute : N; second : N; microsecond : N;
  (** offset from UTC in microseconds, [None] for a naive value *)
  utcoffset : option Z
}.

Definition digit (c : N) : option N :=
  if (48 <=? c) && (c <=? 57) then Some (c - 48) else None.

(** A run of ASCII digits read as a decimal number. *)
Fixpoint digits (acc : N) (s : str) : option N :=
  match s with
  | [] => Some acc
  | c :: s' =>
      match digit c with
      | Some d => digits (10 * acc + d) s'
      | None => None
      end
  end.

Definition is_leap (y : N) : bool :=
  (y mod 4 =? 0) && (negb (y mod 100 =? 0) || (y mod 400 =? 0)).

Definition days_in_month (y m : N) : N :=
  if m =? 2 then (if is_leap y then 29 else 28)
  else if (m =? 4) || (m =? 6) || (m =? 9) || (m =? 11) then 30
  else 31.

(** [YYYY-MM-DD] with the range checks of the [date] constructor. *)
Definition parse_date (s : str) : option (N * N * N) :=
  match s with
  | [y1; y2; y3; y4; 45; m1; m2; 45; d1; d2] =>
      match digits 0 [y1; y2; y3; y4], digits 0 [m1; m2], digits 0 [d1; d2] with
      | Some y, Some m, Some d =>
          if (1 <=? y) && (1 <=? m) && (m <=? 12)
             && (1 <=? d) && (d <=? days_in_month y m)
          then Some (y, m, d) else None
      | _, _, _ => None
      end
  | _ => None
  end.

(** The fraction: three or six digits, in microseconds. *)
Definition parse_fraction (s : str) : option N :=
  match length s with
  | 3%nat => option_map (N.mul 1000) (digits 0 s)
  | 6%nat => digits 0 s
  | _ => None
  end.

(** [HH[:MM[:SS[.fff[fff]]]]] as (hour, minute, second, microsecond),
    without range checks. *)
Definition parse_hh_mm_ss_ff (s : str) : option (N * N * N * N) :=
  match s with
  | [h1; h2] =>
      option_map (fun h => (h, 0, 0, 0)) (digits 0 [h1; h2])
  | [h1; h2; 58; m1; m2] =>
      match digits 0 [h1; h2], digits 0 [m1; m2] with
      | Some h, Some m => Some (h, m, 0, 0)
      | _, _ => None
      end
  | h1 :: h2 :: 58 :: m1 :: m2 :: 58 :: s1 :: s2 :: rest =>
      match digits 0 [h1; h2], digits 0 [m1; m2], digits 0 [s1; s2] with
      | Some h, Some m, Some sec =>
          match rest with
          | [] => Some (h, m, sec, 0)
          | 46 :: frac => option_map (fun us => (h, m, sec, us)) (parse_fraction frac)
          | _ => None
          end
      | _, _, _ => None
      end
  | _ => None
  end.

(** Splits at the first [+] or [-]: the part before it, and the sign and
    the part after it. *)
Fixpoint split_tz (s : str) : str * option (bool * str) :=
  match s with
  | [] => ([], None)
  | c :: s' =>
      if c =? 43 then ([], Some (false, s'))
      else if c =? 45 then ([], Some (true, s'))
      else let '(t, tz) := split_tz s' in (c :: t, tz)
  end.

Definition day_us : N := 86400000000.

(** [+HH:MM[:SS[.ffffff]]]; the offset must be strictly shorter than a
    day. *)
Definition parse_tz (negative : bool) (s : str) : option Z :=
  match length s, parse_hh_mm_ss_ff s with
  | 5%nat, Some (h, m, sec, us) | 8%nat, Some (h, m, sec, us)
  | 15%nat, Some (h, m, sec, us) =>
      let off := ((h * 3600 + m * 60 + sec) * 1000000 + us)%N in
      if off <? day_us
      then Some (if negative then (- Z.of_N off)%Z else Z.of_N off)
      else None
  | _, _ => None
  end.

Definition parse_time (s : str) : option (N * N * N * N * option Z) :=
  let '(t, tz) := split_tz s in
  match parse_hh_mm_ss_ff t with
  | Some (h, m, sec, us) =>
      if (h <? 24) && (m <? 60) && (sec <? 60) then
        match tz with
        | None => Some (h, m, sec, us, None)
        | Some (neg, z) =>
            option_map (fun off => (h, m, sec, us, Some off)) (parse_tz neg z)
        end
      else None
  | None => None
  end.

(** [None] stands for [ValueError]. *)
Definition fromisoformat (s : str) : option datetime :=
  match parse_date (take 10 s) with
  | None => None
  | Some (y, mo, d) =>
      match drop 10 s with
      | [] => Some {| year := y; month := mo; day := d; hour := 0; minute := 0;
                      second := 0; microsecond := 0; utcoffset := None |}
      | _sep :: t =>
          match parse_time t with
          | Some (h, m, sec, us, off) =>
              Some {| year := y; month := mo; day := d; hour := h; minute := m;
                      second := sec; microsecond := us; utcoffset := off |}
          | None => None
          end
      end
  end.

End PyDatetime.

(** ** JSON values, as [model_validate_json] sees the parsed body *)

Inductive json : Type :=
  | JNull
  | JBool (b : bool)
  | JNumber (lit : str)
  | JString (s : str)
  | JArray (items : list json)
  | JObject (fields : gmap str json).

(** ** app/models.py *)

Record WebhookMessage : Type := {
  wm_message_id : str;
  wm_from_ : str;
  wm_to : str;
  wm_ts : str;
  wm_text : option str
}.

(** [r'^\+\d+$'] *)
Definition e164_pattern : Re.regex :=
  Re.Seq Re.Bol (Re.Seq (Re.Lit 43) (Re.Seq (Re.Plus Re.Digit) Re.Eol)).

Definition validate_e164 (v : str) : result str :=
  if negb (Re.match_ e164_pattern v) then Raise ValueError else Ok v.

Section Models.

(** The JSON decoder behind [model_validate_json]: [None] when the body
    is not a JSON document. *)
Variable json_loads : bytes -> option json.

(** [datetime.fromisoformat]: [None] when it raises [ValueError]. *)
Variable fromisoformat : str -> option PyDatetime.datetime.

Definition validate_iso8601 (v : str) : result str :=
  if negb (endswith_Z v) then Raise ValueError
  else match fromisoformat (replace_Z v) with
       | None => Raise ValueError
       | Some _ => Ok v
       end.

(** A required [str] field with [min_length] and a field validator that
    runs after the type and length checks. *)
Definition str_field (min_length : nat) (validator : str -> result str)
    (v : option json) : result str :=
  match v with
  | Some (JString s) =>
      if (length s <? min_length)%nat then Raise ValueError else validator s
  | _ => Raise ValueError
  end.

(** [Optional[str] = Field(None, max_length=...)] *)
Definition optional_str_field (max_length : nat) (v : option json)
  : result (option str) :=
  match v with
  | None | Some JNull => Ok None
  | Some (JString s) =>
      if (max_length <? length s)%nat then Raise ValueError else Ok (Some s)
  | Some _ => Raise ValueError
  end.

Definition failed {A} (loc : string) (r : result A) : list str :=
  match r with
  | Ok _ => []
  | Raise _ => [py loc]
  end.

(** Validation of a parsed body against [WebhookMessage]: every field is
    checked, and the failures are reported together.  Keys other than the
    five aliases are ignored. *)
Definition model_validate (doc : json) : result WebhookMessage :=
  match doc with
  | JObject fields =>
      let r_id := str_field 1 Ok (fields !! py "message_id") in
      let r_from := str_field 0 validate_e164 (fields !! py "from") in
      let r_to := str_field 1 validate_e164 (fields !! py "to") in
      let r_ts := str_field 0 validate_iso8601 (fields !! py "ts") in
      let r_text := optional_str_field 4096 (fields !! py "text") in
      match r_id, r_from, r_to, r_ts, r_text with
      | Ok message_id, Ok from_, Ok to, Ok ts, Ok text =>
          Ok {| wm_message_id := message_id; wm_from_ := from_; wm_to := to;
                wm_ts := ts; wm_text := text |}
      | _, _, _, _, _ =>
          Raise (ValidationError
                   (failed "message_id" r_id ++ failed "from" r_from
                    ++ failed "to" r_to ++ failed "ts" r_ts
                    ++ failed "text" r_text))
      end
  | _ => Raise (ValidationError [[]])
  end.

Definition model_validate_json (body : bytes) : result WebhookMessage :=
  match json_loads body with
  | None => Raise (ValidationError [[]])
  | Some doc => model_validate doc
  end.

End Models.

Record MessageResponse : Type := {
  message_id : str;
  from_ : str;
  to : str;
  ts : str;
  text : option str
}.

Record StatsResponse : Type := {
  total_messages : Z;
  senders_count : Z;
  messages_per_sender : list (str * Z);
  first_message_ts : option str;
  last_message_ts : option str
}.

(** ** The SQL operators that [storage.py] relies on *)

Module Sql.

(** Comparison of [TEXT] values under the [BINARY] collation.  SQLite
    compares the UTF-8 encodings octet by octet, which orders strings as
    their code point sequences are ordered. *)
Fixpoint str_compare (a b : str) : comparison :=
  match a, b with
  | [], [] => Eq
  | [], _ :: _ => Lt
  | _ :: _, [] => Gt
  | x :: a', y :: b' =>
      match x ?= y with
      | Eq => str_compare a' b'
      | c => c
      end
  end.

Definition str_leb (a b : str) : bool :=
  match str_compare a b with
  | Gt => false
  | _ => true
  end.

(** ASCII case folding, the only folding [LIKE] applies. *)
Definition lower (c : N) : N :=
  if (65 <=? c) && (c <=? 90) then c + 32 else c.

(** SQLite's [patternCompare] for [LIKE]: [%] matches any run of
    characters, [_] any single character, any other character matches
    itself up to ASCII case. *)
Fixpoint pattern_compare (pat : str) : str -> bool :=
  match pat with
  | [] => fun txt => match txt with [] => true | _ :: _ => false end
  | c :: pat' =>
      if c =? 37 then
        fix skip (txt : str) : bool :=
          pattern_compare pat' txt
          || match txt with
             | [] => false
             | _ :: txt' => skip txt'
             end
      else if c =? 95 then
        fun txt =>
          match txt with [] => false | _ :: txt' => pattern_compare pat' txt' end
      else
        fun txt =>
          match txt with
          | [] => false
          | x :: txt' => (lower x =? lower c) && pattern_compare pat' txt'
          end
  end.

(** A [TEXT] value as the C string that the [LIKE] function reads
    ([sqlite3_value_text]): the characters before the first NUL. *)
Fixpoint c_str (s : str) : str :=
  match s with
  | [] => []
  | c :: s' => if c =? 0 then [] else c :: c_str s'
  end.

(** [txt LIKE pat] on two [TEXT] values: the pattern and the text are
    compared as C strings. *)
Definition like (pat txt : str) : bool := pattern_compare (c_str pat) (c_str txt).

(** [sqlite3_value_bytes] of a bound [TEXT] parameter: the number of octets
    of its UTF-8 encoding. *)
Definition value_bytes (s : str) : N :=
  match str_encode s with
  | Ok octets => N.of_nat (length octets)
  | Raise _ => 0
  end.

(** [SQLITE_MAX_LIKE_PATTERN_LENGTH] *)
Definition like_pattern_length : N := 50000.

(** The function behind [LIKE], as [likeFunc] runs it on a row: a pattern
    longer than the limit is refused with "LIKE or GLOB pattern too
    complex", whatever the text; a [NULL] text gives [NULL], which [WHERE]
    reads as false. *)
Definition like_function (pat : str) (txt : option str) : result bool :=
  if like_pattern_length <? value_bytes pat then Raise OperationalError
  else Ok (match txt with
           | Some t => like pat t
           | None => false
           end).

(** Python strings are bound as UTF-8 [TEXT]; a string with a lone
    surrogate is refused with [UnicodeEncodeError]. *)
Definition bind_text (s : str) : result bytes := str_encode s.

(** Python integers are bound to 64-bit SQLite integers. *)
Definition bind_int (v : Z) : result Z :=
  if ((- 2 ^ 63 <=? v) && (v <? 2 ^ 63))%Z then Ok v else Raise OverflowError.

(** [LIMIT limit OFFSET offset]: a negative limit is no limit, a negative
    offset is no offset. *)
Definition limit_offset {A} (limit offset : Z) (rows : list A) : list A :=
  let skipped := drop (Z.to_nat offset) rows in
  if (limit <? 0)%Z then skipped else take (Z.to_nat limit) skipped.

(** [MIN] and [MAX] over a column of [TEXT]: [NULL] on no rows. *)
Definition min_text (col : list str) : option str :=
  match col with
  | [] => None
  | x :: col' => Some (fold_left (fun m y => if str_leb y m then y else m) col' x)
  end.

Definition max_text (col : list str) : option str :=
  match col with
  | [] => None
  | x :: col' => Some (fold_left (fun m y => if str_leb m y then y else m) col' x)
  end.

End Sql.

(** ** app/storage.py *)

Record Row : Type := {
  r_message_id : str;
  from_msisdn : str;
  to_msisdn : str;
  r_ts : str;
  r_text : option str;
  created_at : str
}.

(** The table [messages], oldest row first. *)
Abbreviation table := (list Row).

Definition has_key (mid : str) (db : table) : bool :=
  existsb (fun r => bool_decide (r_message_id r = mid)) db.

(** [INSERT INTO messages ...] under [message_id TEXT PRIMARY KEY]. *)
Definition sql_insert (r : Row) (db : table) : result table :=
  if has_key (r_message_id r) db then Raise IntegrityError else Ok (db ++ [r]).

(** [get_db_connection]: commit when the block returns, roll back and
    re-raise when it raises. *)
Definition with_connection {A} (block : table -> result (A * table)) (db : table)
  : result A * table :=
  match block db with
  | Ok (a, db') => (Ok a, db')
  | Raise e => (Raise e, db)
  end.

(** [now] is the text of [datetime.utcnow().isoformat()] at the call. *)
Definition insert_message (now : str) (message_id from_msisdn to_msisdn ts : str)
    (text : option str) (db : table) : result (bool * bool) * table :=
  match
    with_connection (fun conn =>
      let created_at := now ++ py "Z" in
      do conn' <- sql_insert {| r_message_id := message_id;
                                from_msisdn := from_msisdn;
                                to_msisdn := to_msisdn;
                                r_ts := ts;
                                r_text := text;
                                created_at := created_at |} conn;
      Ok ((true, false), conn')) db
  with
  | (Raise IntegrityError, db') => (Ok (true, true), db')
  | other => other
  end.

Inductive clause : Type :=
  | FromEq (v : str)        (* from_msisdn = ? *)
  | TsGe (v : str)          (* ts >= ? *)
  | TextLike (pat : str).   (* text LIKE ? *)

(** The parameter a clause binds. *)
Definition clause_param (c : clause) : str :=
  match c with
  | FromEq v | TsGe v | TextLike v => v
  end.

(** A clause on a row, as the engine evaluates it. *)
Definition eval_clause (c : clause) (r : Row) : result bool :=
  match c with
  | FromEq v => Ok (bool_decide (from_msisdn r = v))
  | TsGe v => Ok (Sql.str_leb v (r_ts r))
  | TextLike pat => Sql.like_function pat (r_text r)
  end.

(** [if from_filter:] and its siblings: [None] and the empty string add no
    clause. *)
Definition clause_if (mk : str -> clause) (param : option str) : list clause :=
  match param with
  | Some (c :: s) => [mk (c :: s)]
  | Some [] | None => []
  end.

Definition where_clauses (from_filter since q : option str) : list clause :=
  clause_if FromEq from_filter
  ++ clause_if TsGe since
  ++ clause_if (fun q => TextLike (py "%" ++ q ++ py "%")) q.

(** The clauses joined by [AND]; [1=1] when there is none.  The engine
    tests them from left to right and leaves a row at the first clause that
    fails, so the text of a row is matched only when the row has passed the
    clauses on the sender and on the timestamp. *)
Fixpoint where_sql (cs : list clause) (r : Row) : result bool :=
  match cs with
  | [] => Ok true
  | c :: cs' =>
      do holds <- eval_clause c r;
      if holds then where_sql cs' r else Ok false
  end.

(** [conn.execute(query, params)], the parameters: each is bound before
    the statement runs. *)
Fixpoint bind_params (cs : list clause) : result unit :=
  match cs with
  | [] => Ok tt
  | c :: cs' => do _ <- Sql.bind_text (clause_param c); bind_params cs'
  end.

(** [SELECT ... FROM messages WHERE ...]: the rows of the table that pass
    the clauses. *)
Fixpoint sql_select (cs : list clause) (db : table) : result table :=
  match db with
  | [] => Ok []
  | r :: db' =>
      do keep <- where_sql cs r;
      do rest <- sql_select cs db';
      Ok (if keep then r :: rest else rest)
  end.

(** [ORDER BY ts ASC, message_id ASC] *)
Definition row_leb (a b : Row) : bool :=
  match Sql.str_compare (r_ts a) (r_ts b) with
  | Lt => true
  | Eq => Sql.str_leb (r_message_id a) (r_message_id b)
  | Gt => false
  end.

Definition row_le (a b : Row) : Prop := Is_true (row_leb a b).

#[global] Instance row_le_dec : RelDecision row_le.
Proof. intros a b. unfold row_le. apply _. Defined.

Definition order_by_ts_id (rows : table) : table := merge_sort row_le rows.

Definition dict_of_row (r : Row) : MessageResponse :=
  {| message_id := r_message_id r; from_ := from_msisdn r; to := to_msisdn r;
     ts := r_ts r; text := r_text r |}.

(** The count query runs first, with the parameters of the filters; the
    page query binds the same parameters, then the limit and the offset. *)
Definition get_messages (limit offset : Z) (from_filter since q : option str)
    (db : table) : result (list MessageResponse * Z) :=
  (with_connection (fun conn =>
     let cs := where_clauses from_filter since q in
     do _ <- bind_params cs;
     do counted <- sql_select cs conn;
     let total := Z.of_nat (length counted) in
     do _ <- bind_params cs;
     do lim <- Sql.bind_int limit;
     do off <- Sql.bind_int offset;
     do selected <- sql_select cs conn;
     let rows := Sql.limit_offset lim off (order_by_ts_id selected) in
     let messages := List.map dict_of_row rows in
     Ok ((messages, total), conn)) db).1.

(** [GROUP BY from_msisdn] with [COUNT( * )]: one entry per distinct sender,
    in ascending sender order before [ORDER BY] is applied. *)
Definition sender_le (a b : str) : Prop := Is_true (Sql.str_leb a b).

#[global] Instance sender_le_dec : RelDecision sender_le.
Proof. intros a b. unfold sender_le. apply _. Defined.

Definition count_from (db : table) (sender : str) : Z :=
  Z.of_nat (length (List.filter (fun r => bool_decide (from_msisdn r = sender)) db)).

Definition group_by_from (db : table) : list (str * Z) :=
  List.map (fun s => (s, count_from db s))
           (merge_sort sender_le (remove_dups (List.map from_msisdn db))).

(** [ORDER BY count DESC].  SQL leaves the order among equal counts open;
    here it is the order the sort keeps. *)
Definition count_ge (a b : str * Z) : Prop := (b.2 <= a.2)%Z.

#[global] Instance count_ge_dec : RelDecision count_ge.
Proof. intros a b. unfold count_ge. apply _. Defined.

Definition get_stats (db : table) : StatsResponse :=
  let total := Z.of_nat (length db) in
  let senders := Z.of_nat (length (remove_dups (List.map from_msisdn db))) in
  let per_sender := take 10 (merge_sort count_ge (group_by_from db)) in
  let first := Sql.min_text (List.map r_ts db) in
  let last := Sql.max_text (List.map r_ts db) in
  {| total_messages := total;
     senders_count := senders;
     messages_per_sender := per_sender;
     first_message_ts := first;
     last_message_ts := last |}.

(** ** app/main.py: the endpoints *)

Record Request : Type := {
  req_body : bytes;
  (** the [X-Signature] header, when the request carries one *)
  x_signature : option str
}.

Inductive detail : Type :=
  | DetailText (s : str)
  (** [str(e)] of the exception caught by the handler *)
  | DetailStr (e : exn)
  (** the framework's report on query parameters, by parameter name *)
  | DetailParams (locs : list str).

Inductive payload : Type :=
  | StatusContent (s : str)                    (* {"status": s} *)
  | DetailContent (d : detail)                 (* {"detail": d} *)
  | MessagesContent (data : list MessageResponse) (total limit offset : Z)
  | StatsContent (stats : StatsResponse)
  | PlainText (s : str).

Record Response : Type := {
  status_code : Z;
  content : payload
}.

(** The calls a handler makes into the verifier, the validator and the
    store, in order. *)
Inductive call : Type :=
  | VerifySignature
  | ModelValidateJson
  | InsertMessage (mid : str)
  | GetMessages
  | GetStats.

Record Outcome : Type := {
  response : Response;
  db_after : table;
  (** [request.state.result], also the label of the outcome counter *)
  state_result : option str;
  (** [request.state.dup] *)
  state_dup : option bool;
  calls : list call
}.

(** [raise HTTPException(status_code=..., detail=...)] as the response the
    framework builds from it. *)
Definition http_exception (code : Z) (d : detail) : Response :=
  {| status_code := code; content := DetailContent d |}.

(** What the server answers when a handler lets an exception escape. *)
Definition internal_server_error : Response :=
  {| status_code := 500; content := PlainText (py "Internal Server Error") |}.

Definition status_ok : Response :=
  {| status_code := 200; content := StatusContent (py "ok") |}.

(** A query parameter declared [int], after the framework's conversion of
    its text. *)
Inductive int_param : Type :=
  | IntAbsent
  | IntInvalid
  | IntValue (v : Z).

Record MessagesQuery : Type := {
  q_limit : int_param;
  q_offset : int_param;
  q_from : option str;
  q_since : option str;
  q_q : option str
}.

(** [Query(default=..., ge=..., le=...)]; the default is not validated. *)
Definition int_query (default ge : Z) (le : option Z) (p : int_param) : option Z :=
  match p with
  | IntAbsent => Some default
  | IntInvalid => None
  | IntValue v =>
      if ((ge <=? v) && match le with Some m => v <=? m | None => true end)%Z
      then Some v else None
  end.

Definition param_failed (name : string) (r : option Z) : list str :=
  match r with
  | Some _ => []
  | None => [py name]
  end.

Section Endpoints.

Variable settings : Settings.
Variable json_loads : bytes -> option json.
Variable fromisoformat : str -> option PyDatetime.datetime.

Definition webhook (now : str) (request : Request) (db : table) : Outcome :=
  let body := req_body request in
  let signature := default [] (x_signature request) in
  match verify_signature settings body signature with
  | Raise _ =>
      {| response := internal_server_error; db_after := db;
         state_result := None; state_dup := None;
         calls := [VerifySignature] |}
  | Ok false =>
      {| response := http_exception 401 (DetailText (py "invalid signature"));
         db_after := db;
         state_result := Some (py "invalid_signature"); state_dup := None;
         calls := [VerifySignature] |}
  | Ok true =>
      match model_validate_json json_loads fromisoformat body with
      | Raise e =>
          {| response := http_exception 422 (DetailStr e); db_after := db;
             state_result := Some (py "validation_error"); state_dup := None;
             calls := [VerifySignature; ModelValidateJson] |}
      | Ok message =>
          let mid := wm_message_id message in
          match insert_message now mid (wm_from_ message) (wm_to message)
                               (wm_ts message) (wm_text message) db with
          | (Raise _, db') =>
              {| response := internal_server_error; db_after := db';
                 state_result := None; state_dup := None;
                 calls := [VerifySignature; ModelValidateJson; InsertMessage mid] |}
          | (Ok (_success, is_duplicate), db') =>
              {| response := status_ok; db_after := db';
                 state_result :=
                   Some (if is_duplicate then py "duplicate" else py "created");
                 state_dup := Some is_duplicate;
                 calls := [VerifySignature; ModelValidateJson; InsertMessage mid] |}
          end
      end
  end.

Definition list_messages (query : MessagesQuery) (db : table) : Outcome :=
  let limit := int_query 50 1 (Some 100%Z) (q_limit query) in
  let offset := int_query 0 0 None (q_offset query) in
  match limit, offset with
  | Some limit, Some offset =>
      match get_messages limit offset (q_from query) (q_since query) (q_q query) db with
      | Ok (messages, total) =>
          {| response := {| status_code := 200;
                            content := MessagesContent messages total limit offset |};
             db_after := db; state_result := None; state_dup := None;
             calls := [GetMessages] |}
      | Raise _ =>
          {| response := internal_server_error; db_after := db;
             state_result := None; state_dup := None; calls := [GetMessages] |}
      end
  | _, _ =>
      {| response :=
           http_exception 422
             (DetailParams (param_failed "limit" limit ++ param_failed "offset" offset));
         db_after := db; state_result := None; state_dup := None; calls := [] |}
  end.

Definition get_message_stats (db : table) : Outcome :=
  {| response := {| status_code := 200; content := StatsContent (get_stats db) |};
     db_after := db; state_result := None; state_dup := None; calls := [GetStats] |}.

End Endpoints.

(** ** Vocabulary of the statements *)

(** *** The store *)

(** The primary key holds: no two rows share a [message_id]. *)
Definition pk_unique (db : table) : Prop := NoDup (List.map r_message_id db).

Definition rows_of (mid : str) (db : table) : table :=
  List.filter (fun r => bool_decide (r_message_id r = mid)) db.

(** The row a validated message is stored as. *)
Definition row_of_message (msg : WebhookMessage) (created : str) : Row :=
  {| r_message_id := wm_message_id msg; from_msisdn := wm_from_ msg;
     to_msisdn := wm_to msg; r_ts := wm_ts msg; r_text := wm_text msg;
     created_at := created |}.

(** Integers that fit an SQLite [INTEGER]. *)
Definition int64 (v : Z) : Prop := (- 2 ^ 63 <= v < 2 ^ 63)%Z.

(** The clauses on the sender and on the timestamp never raise. *)
Definition plain_clause (c : clause) : bool :=
  match c with
  | TextLike _ => false
  | FromEq _ | TsGe _ => true
  end.

(** Whether a clause holds of a row. *)
Definition clause_holds (c : clause) (r : Row) : bool :=
  match c with
  | FromEq v => bool_decide (from_msisdn r = v)
  | TsGe v => Sql.str_leb v (r_ts r)
  | TextLike pat =>
      match r_text r with
      | Some t => Sql.like pat t
      | None => false
      end
  end.

Definition row_selected (cs : list clause) (r : Row) : bool :=
  forallb (fun c => clause_holds c r) cs.

(** The rows that satisfy the [WHERE] clause that [get_messages] builds. *)
Definition matching (from_filter since q : option str) (db : table) : table :=
  List.filter (row_selected (where_clauses from_filter since q)) db.

(** A string that UTF-8 can encode: no lone surrogate. *)
Definition encodes (s : str) : bool :=
  match str_encode s with
  | Ok _ => true
  | Raise _ => false
  end.

(** Every filter that is given and not empty can be encoded. *)
Definition filters_encode (from_filter since q : option str) : bool :=
  forallb (fun c => encodes (clause_param c)) (where_clauses from_filter since q).

(** The text query is given and not empty, and [%q%] is longer than a
    [LIKE] pattern may be. *)
Definition pattern_too_long (q : option str) : bool :=
  match q with
  | Some (c :: q') =>
      Sql.like_pattern_length <? Sql.value_bytes (py "%" ++ (c :: q') ++ py "%")
  | Some [] | None => false
  end.

(** What stops the queries of [get_messages] before the limit and the
    offset are bound: a filter that cannot be encoded; or a text query that
    is too long, when some row passes the other filters and so reaches the
    [LIKE] test. *)
Definition query_error (from_filter since q : option str) (db : table)
  : option exn :=
  if negb (filters_encode from_filter since q) then Some UnicodeEncodeError
  else if pattern_too_long q
          && existsb (row_selected (where_clauses from_filter since None)) db
  then Some OperationalError
  else None.

(** *** Orders on strings and on listed messages *)

Definition str_lt (a b : str) : Prop := Sql.str_compare a b = Lt.
Definition str_le (a b : str) : Prop := Sql.str_leb a b = true.

(** [(ts_a, message_id_a) <= (ts_b, message_id_b)], the order of tuples of
    strings. *)
Definition key_le (a b : MessageResponse) : Prop :=
  str_lt (ts a) (ts b)
  \/ (ts a = ts b
      /\ (str_lt (message_id a) (message_id b) \/ message_id a = message_id b)).

(** *** Counts per sender *)

Definition sum_counts (l : list (str * Z)) : Z :=
  fold_right (fun e acc => (e.2 + acc)%Z) 0%Z l.

Definition tally (db : table) (senders : list str) : list (str * Z) :=
  List.map (fun s => (s, count_from db s)) senders.

(** *** The validation rules as the specification words them *)

Definition ascii_digit (c : N) : bool := (48 <=? c) && (c <=? 57).

(** Specification: the character [+] followed by one or more ASCII digits,
    and nothing else. *)
Definition spec_e164 (v : str) : bool :=
  match v with
  | c :: d :: ds => (c =? 43) && forallb ascii_digit (d :: ds)
  | _ => false
  end.

(** Specification: only the trailing [Z] is replaced by [+00:00]. *)
Definition replace_trailing_Z (v : str) : str :=
  match rev v with
  | c :: before => if c =? 90 then rev before ++ py "+00:00" else v
  | [] => v
  end.

(** Specification: [ts] ends with [Z], and with that trailing [Z] replaced
    it parses as a date-time. *)
Definition spec_accepts_ts (fromisoformat : str -> option PyDatetime.datetime)
    (v : str) : bool :=
  endswith_Z v && bool_decide (is_Some (fromisoformat (replace_trailing_Z v))).

(** *** The list filters as the specification words them *)

Fixpoint is_prefix (q t : str) : bool :=
  match q, t with
  | [], _ => true
  | _ :: _, [] => false
  | c :: q', x :: t' => (x =? c) && is_prefix q' t'
  end.

(** [q] occurs in [t]. *)
Fixpoint is_substring (q t : str) : bool :=
  is_prefix q t
  || match t with
     | [] => false
     | _ :: t' => is_substring q t'
     end.

(** Specification: the conjunction of the filters that are given: equality
    with [fromFilter], [ts >= sinceFilter], [textQuery] a substring of
    [text]. *)
Definition claimed_match (from_filter since q : option str) (r : Row) : bool :=
  match from_filter with Some f => bool_decide (from_msisdn r = f) | None => true end
  && match since with Some s => Sql.str_leb s (r_ts r) | None => true end
  && match q with
     | Some q => match r_text r with Some t => is_substring q t | None => false end
     | None => true
     end.


(** *** The list filters as the store applies them *)

Fixpoint ci_prefix (q t : str) : bool :=
  match q, t with
  | [], _ => true
  | _ :: _, [] => false
  | c :: q', x :: t' => (Sql.lower x =? Sql.lower c) && ci_prefix q' t'
  end.

(** [q] occurs in [t] up to the case of ASCII letters. *)
Fixpoint ci_substring (q t : str) : bool :=
  ci_prefix q t
  || match t with
     | [] => false
     | _ :: t' => ci_substring q t'
     end.






(** ** Sample data, from the test suite *)

(** [tests/conftest.py] *)
Definition test_settings : Settings :=
  {| DATABASE_URL := py "sqlite:///./test_app.db";
     LOG_LEVEL := py "INFO";
     WEBHOOK_SECRET := Some (py "testsecret") |}.

(** A quoted JSON string without escapes. *)
Definition jq (lit : string) : bytes := [34] ++ py lit ++ [34].

(** [json.dumps(message, separators=(',', ':'))] of a five-field message. *)
Definition sample_body (mid from_ to ts text : string) : bytes :=
  py "{" ++ jq "message_id" ++ py ":" ++ jq mid
  ++ py "," ++ jq "from" ++ py ":" ++ jq from_
  ++ py "," ++ jq "to" ++ py ":" ++ jq to
  ++ py "," ++ jq "ts" ++ py ":" ++ jq ts
  ++ py "," ++ jq "text" ++ py ":" ++ jq text ++ py "}".

Definition sample_doc (mid from_ to ts text : string) : json :=
  JObject (<[py "message_id" := JString (py mid)]>
          (<[py "from" := JString (py from_)]>
          (<[py "to" := JString (py to)]>
          (<[py "ts" := JString (py ts)]>
          (<[py "text" := JString (py text)]> ∅))))).

(** The message of [test_local.py], and a second one with the same
    [message_id] and other fields. *)
Definition body_m1 : bytes :=
  sample_body "m1" "+919876543210" "+14155550100" "2025-01-15T10:00:00Z" "Hello".
Definition doc_m1 : json :=
  sample_doc "m1" "+919876543210" "+14155550100" "2025-01-15T10:00:00Z" "Hello".
Definition body_m1_changed : bytes :=
  sample_body "m1" "+911234567890" "+14155550199" "2025-02-01T08:30:00Z" "Changed".
Definition doc_m1_changed : json :=
  sample_doc "m1" "+911234567890" "+14155550199" "2025-02-01T08:30:00Z" "Changed".

(** A decoder that knows the two sample bodies. *)
Definition sample_loads (body : bytes) : option json :=
  if bool_decide (body = body_m1) then Some doc_m1
  else if bool_decide (body = body_m1_changed) then Some doc_m1_changed
  else None.

Definition request_m1 : Request :=
  {| req_body := body_m1;
     x_signature :=
       Some (py "ff1016e524bc9299d18988ecf27a880af9428140e3850af0c73ea1eef091a4cb") |}.

Definition request_m1_changed : Request :=
  {| req_body := body_m1_changed;
     x_signature :=
       Some (py "1748b0f076d77f4bc288e76271de613a1a9cb2fdd7c3cf9495f2aef9a7e7dd05") |}.

(** [test_webhook_invalid_signature] *)
Definition request_bad_signature : Request :=
  {| req_body := body_m1; x_signature := Some (py "invalid_signature_12345") |}.

Definition row_m1 : Row :=
  {| r_message_id := py "m1"; from_msisdn := py "+919876543210";
     to_msisdn := py "+14155550100"; r_ts := py "2025-01-15T10:00:00Z";
     r_text := Some (py "Hello"); created_at := py "2025-01-15T10:00:01.000000Z" |}.

(** The three messages of [tests/test_messages.py]. *)
Definition sample_row (mid from_ ts text : string) : Row :=
  {| r_message_id := py mid; from_msisdn := py from_;
     to_msisdn := py "+14155550100"; r_ts := py ts;
     r_text := Some (py text); created_at := py "2025-01-15T12:00:00.000000Z" |}.

Definition sample_db : table :=
  [sample_row "pytest_msg_3" "+911234567890" "2025-01-15T11:00:00Z"
              "Different sender message";
   sample_row "pytest_msg_1" "+919876543210" "2025-01-15T09:00:00Z"
              "First pytest message";
   sample_row "pytest_msg_2" "+919876543210" "2025-01-15T10:00:00Z"
              "Second pytest message with Hello"].

(** ** str.startswith and str.replace *)

(** [s.startswith(prefix)] *)
Definition startswith (s prefix : str) : bool := is_prefix prefix s.

(** [s.replace(old, new)] for a non-empty [old]: the occurrences of [old]
    are found from left to right without overlap; [skip] counts the
    characters of a found occurrence that are still to pass. *)
Fixpoint str_replace_from (old new : str) (skip : nat) (s : str) : str :=
  match s with
  | [] => []
  | c :: s' =>
      match skip with
      | S k => str_replace_from old new k s'
      | O =>
          if is_prefix old s
          then new ++ str_replace_from old new (length old - 1) s'
          else c :: str_replace_from old new 0 s'
      end
  end.

Definition str_replace (old new s : str) : str := str_replace_from old new 0 s.

(** ** app/config.py: the defaults and the start-up check *)

Definition default_settings : Settings :=
  {| DATABASE_URL := py "sqlite:////data/app.db";
     LOG_LEVEL := py "INFO";
     WEBHOOK_SECRET := None |}.

(** [if not settings.WEBHOOK_SECRET:] is the negation of this: the secret is
    set and not empty. *)
Definition secret_configured (settings : Settings) : bool :=
  match WEBHOOK_SECRET settings with
  | Some (_ :: _) => true
  | Some [] | None => false
  end.

(** ** app/storage.py: the database path and the readiness probe *)

Definition get_db_path (settings : Settings) : str :=
  let url := DATABASE_URL settings in
  if startswith url (py "sqlite:///")
  then str_replace (py "sqlite:///") [] url
  else py "/data/app.db".

(** [SELECT 1] inside a connection; any exception is turned into [False]. *)
Definition check_db_ready (db : table) : bool :=
  match (with_connection (fun conn => Ok (tt, conn)) db).1 with
  | Ok _ => true
  | Raise _ => false
  end.

(** ** app/metrics.py: the counters *)

(** A labelled counter: the children that exist, with their values. *)
Definition counter_value `{Countable K} (c : gmap K nat) (labels : K) : nat :=
  default 0%nat (c !! labels).

(** [counter.labels(...).inc()] *)
Definition counter_inc `{Countable K} (labels : K) (c : gmap K nat) : gmap K nat :=
  <[labels := S (counter_value c labels)]> c.

(** The sum of a counter over its children. *)
Definition counter_sum `{Countable K} (c : gmap K nat) : nat :=
  map_fold (fun _ v acc => (v + acc)%nat) 0%nat c.

Record Metrics : Type := {
  (** by [path] and [status] *)
  http_requests_total : gmap (str * Z) nat;
  (** by [result] *)
  webhook_requests_total : gmap str nat;
  (** the number of observations of [request_latency_ms]; the observed
      values are clock readings and are not part of the model *)
  request_latency_count : nat
}.

Definition no_metrics : Metrics :=
  {| http_requests_total := ∅; webhook_requests_total := ∅;
     request_latency_count := 0 |}.

(** ** app/main.py: the probes, the middleware and the application *)

Definition liveness (db : table) : Outcome :=
  {| response := status_ok; db_after := db; state_result := None;
     state_dup := None; calls := [] |}.

Definition readiness (settings : Settings) (db : table) : Outcome :=
  let refuse text :=
    {| response := http_exception 503 (DetailText text); db_after := db;
       state_result := None; state_dup := None; calls := [] |} in
  if negb (secret_configured settings) then refuse (py "WEBHOOK_SECRET not set")
  else if negb (check_db_ready db) then refuse (py "Database not ready")
  else {| response := {| status_code := 200; content := StatusContent (py "ready") |};
          db_after := db; state_result := None; state_dup := None; calls := [] |}.

(** The requests the application routes, except [GET /metrics], whose
    answer is the text exposition of the counters. *)
Inductive http_request : Type :=
  | Post_webhook (now : str) (request : Request)
  | Get_messages (query : MessagesQuery)
  | Get_stats
  | Get_health_live
  | Get_health_ready.

Definition request_path (r : http_request) : str :=
  match r with
  | Post_webhook _ _ => py "/webhook"
  | Get_messages _ => py "/messages"
  | Get_stats => py "/stats"
  | Get_health_live => py "/health/live"
  | Get_health_ready => py "/health/ready"
  end.

(** The state between requests: the table and the counters. *)
Record App : Type := {
  app_db : table;
  app_metrics : Metrics
}.

Definition fresh_app : App := {| app_db := []; app_metrics := no_metrics |}.

(** The server answers 500 when an exception escapes the handler; no
    handler of this application builds a 500 itself. *)
Definition escaped (o : Outcome) : bool := (status_code (response o) =? 500)%Z.

(** [webhook_requests_total.labels(result=...).inc()]: the handler
    increments the counter where it sets [request.state.result]. *)
Definition count_result (o : Outcome) (m : Metrics) : Metrics :=
  match state_result o with
  | Some label =>
      {| http_requests_total := http_requests_total m;
         webhook_requests_total := counter_inc label (webhook_requests_total m);
         request_latency_count := request_latency_count m |}
  | None => m
  end.

(** [log_requests], the counters: after [call_next] has returned a
    response, the request is counted under its path and status and its
    latency is observed.  When the handler lets an exception escape,
    [call_next] raises and the rest of the middleware does not run.  The
    request identifier, the clock and the log line are not part of the
    model. *)
Definition log_requests (path : str) (o : Outcome) (m : Metrics) : Metrics :=
  if escaped o then m
  else
    {| http_requests_total :=
         counter_inc (path, status_code (response o)) (http_requests_total m);
       webhook_requests_total := webhook_requests_total m;
       request_latency_count := S (request_latency_count m) |}.

Section Application.

Variable settings : Settings.
Variable json_loads : bytes -> option json.
Variable fromisoformat : str -> option PyDatetime.datetime.

(** The handler a request is routed to. *)
Definition route (r : http_request) (db : table) : Outcome :=
  match r with
  | Post_webhook now request => webhook settings json_loads fromisoformat now request db
  | Get_messages query => list_messages query db
  | Get_stats => get_message_stats db
  | Get_health_live => liveness db
  | Get_health_ready => readiness settings db
  end.

(** One request through the middleware and its handler. *)
Definition serve (r : http_request) (app : App) : Response * App :=
  let o := route r (app_db app) in
  (response o,
   {| app_db := db_after o;
      app_metrics := log_requests (request_path r) o (count_result o (app_metrics app)) |}).

(** Requests served one after the other. *)
Definition serve_all (rs : list http_request) (app : App) : App :=
  fold_left (fun a r => (serve r a).2) rs app.

End Application.

(** ** Further vocabulary of the statements *)

(** The aliases of the five fields of [WebhookMessage]. *)
Definition field_names : list str :=
  [py "message_id"; py "from"; py "to"; py "ts"; py "text"].

(** The characters of a lowercase hexadecimal numeral. *)
Definition lower_hex (c : N) : bool :=
  ((48 <=? c) && (c <=? 57)) || ((97 <=? c) && (c <=? 102)).

(** The ASCII digits. *)
Definition digit_char (c : N) : Prop := 48 <= c <= 57.

(** A number on two and on four decimal digits. *)
Definition two_digits (n : N) : str := [48 + n / 10; 48 + n mod 10].

Definition four_digits (n : N) : str :=
  [48 + n / 1000; 48 + (n / 100) mod 10; 48 + (n / 10) mod 10; 48 + n mod 10].

(** [YYYY-MM-DDTHH:MM:SSZ], the format of the timestamps in the test
    suite. *)
Definition utc_timestamp (y mo d h mi s : N) : str :=
  four_digits y ++ py "-" ++ two_digits mo ++ py "-" ++ two_digits d ++ py "T"
  ++ two_digits h ++ py ":" ++ two_digits mi ++ py ":" ++ two_digits s ++ py "Z".

(** What the validator has checked of a message, read on the row it is
    stored as. *)
Definition valid_row (fromisoformat : str -> option PyDatetime.datetime)
    (r : Row) : Prop :=
  r_message_id r <> []
  /\ Re.match_ e164_pattern (from_msisdn r) = true
  /\ Re.match_ e164_pattern (to_msisdn r) = true
  /\ endswith_Z (r_ts r) = true
  /\ is_Some (fromisoformat (replace_Z (r_ts r)))
  /\ (forall t, r_text r = Some t -> (length t <= 4096)%nat)
  /\ endswith_Z (created_at r) = true.

(** The requests counted under the path [/webhook], all statuses
    together. *)
Definition webhook_http_total (m : Metrics) : nat :=
  counter_sum (filter (fun kv => kv.1.1 = py "/webhook") (http_requests_total m)).

(** [webhook_requests_total{result="created"}] *)
Definition created_count (m : Metrics) : nat :=
  counter_value (webhook_requests_total m) (py "created").

(** A limit that leaves the whole of [n] rows on the first page. *)
Definition whole_page (limit : Z) (n : nat) : Prop :=
  int64 limit /\ ((limit < 0)%Z \/ (Z.of_nat n <= limit)%Z).

(** A session: the message of [test_local.py], a listing, the same
    [message_id] again with other fields, the statistics and a probe. *)
Definition sample_requests : list http_request :=
  [Post_webhook (py "2025-01-15T10:00:01.000000") request_m1;
   Get_messages {| q_limit := IntAbsent; q_offset := IntAbsent; q_from := None;
                   q_since := None; q_q := None |};
   Post_webhook (py "2025-01-15T10:05:00.000000") request_m1_changed;
   Get_stats;
   Get_health_ready].

(** * Properties *)

(** ** The hash functions against published test vectors *)

Example sha256_constants :
  nth_error SHA256.K 0 = Some 0x428a2f98
  /\ nth_error SHA256.K 63 = Some 0xc67178f2
  /\ nth_error SHA256.H0 0 = Some 0x6a09e667
  /\ nth_error SHA256.H0 7 = Some 0x5be0cd19.
Proof. repeat split; vm_compute; reflexivity. Qed.

Example sha256_abc :
  HMAC.hex (SHA256.digest (py "abc")) =
  py "ba7816bf8f01cfea414140de5dae2223b00361a396177a9cb410ff61f20015ad".
Proof. vm_compute. reflexivity. Qed.

Example sha256_empty :
  HMAC.hex (SHA256.digest []) =
  py "e3b0c44298fc1c149afbf4c8996fb92427ae41e4649b934ca495991b7852b855".
Proof. vm_compute. reflexivity. Qed.

Example hmac_rfc4231_case2 :
  HMAC.hexdigest (py "Jefe") (py "what do ya want for nothing?") =
  py "5bdcc146bf60754e6a042426089575c75a003f089d2739839dec58b964ec3843".
Proof. vm_compute. reflexivity. Qed.

Example fromisoformat_utc :
  PyDatetime.fromisoformat (py "2025-01-15T10:00:00+00:00") =
  Some {| PyDatetime.year := 2025; PyDatetime.month := 1; PyDatetime.day := 15;
          PyDatetime.hour := 10; PyDatetime.minute := 0; PyDatetime.second := 0;
          PyDatetime.microsecond := 0; PyDatetime.utcoffset := Some 0%Z |}.
Proof. reflexivity. Qed.

Example fromisoformat_bad_month :
  PyDatetime.fromisoformat (py "2025-13-15T10:00:00+00:00") = None.
Proof. reflexivity. Qed.

Example fromisoformat_feb_30 :
  PyDatetime.fromisoformat (py "2024-02-30T10:00:00+00:00") = None.
Proof. reflexivity. Qed.

(** ** The signature verifier *)

Lemma hex_digit_ascii d : d < 16 -> HMAC.hex_digit d < 128.
Proof. intros H. unfold HMAC.hex_digit. destruct (d <? 10); lia. Qed.

(** A hexadecimal digest is an ASCII string, whatever the octets. *)
Lemma hex_is_ascii bs : is_ascii (HMAC.hex bs) = true.
Proof.
  unfold is_ascii, HMAC.hex. induction bs as [|b bs IH]; [reflexivity|].
  cbn [flat_map app forallb]. rewrite IH, !andb_true_r.
  apply andb_true_intro; split; apply N.ltb_lt, hex_digit_ascii;
    apply N.mod_lt; lia.
Qed.

Lemma hex_length bs : length (HMAC.hex bs) = (2 * length bs)%nat.
Proof.
  unfold HMAC.hex. induction bs as [|b bs IH]; [reflexivity|].
  cbn [flat_map app length]. rewrite IH. lia.
Qed.

Lemma round_length st kw : length st = 8%nat -> length (SHA256.round st kw) = 8%nat.
Proof.
  intros H. do 9 (destruct st as [|? st]; try discriminate). reflexivity.
Qed.

Lemma fold_round_length kws : forall st,
  length st = 8%nat -> length (fold_left SHA256.round kws st) = 8%nat.
Proof.
  induction kws as [|kw kws IH]; intros st H; [exact H|].
  cbn [fold_left]. apply IH, round_length, H.
Qed.

Lemma compress_length h block :
  length h = 8%nat -> length (SHA256.compress h block) = 8%nat.
Proof.
  intros H. unfold SHA256.compress.
  rewrite length_map, length_combine, fold_round_length, H; [reflexivity | exact H].
Qed.

Lemma fold_compress_length blocks : forall h,
  length h = 8%nat -> length (fold_left SHA256.compress blocks h) = 8%nat.
Proof.
  induction blocks as [|b blocks IH]; intros h H; [exact H|].
  cbn [fold_left]. apply IH, compress_length, H.
Qed.

Lemma be_bytes_length n x : length (SHA256.be_bytes n x) = n.
Proof. induction n as [|n IH]; cbn; [reflexivity | f_equal; exact IH]. Qed.

(** A digest has 32 octets, its hexadecimal form 64 characters. *)
Lemma sha256_digest_length msg : length (SHA256.digest msg) = 32%nat.
Proof.
  unfold SHA256.digest.
  assert (H : forall l : list N,
             length (flat_map (SHA256.be_bytes 4) l) = (4 * length l)%nat).
  { induction l as [|x l IH]; [reflexivity|].
    cbn [flat_map]. rewrite length_app, be_bytes_length, IH. cbn [length]. lia. }
  rewrite H, fold_compress_length; reflexivity.
Qed.

Lemma hexdigest_length key msg : length (HMAC.hexdigest key msg) = 64%nat.
Proof.
  unfold HMAC.hexdigest, HMAC.digest. rewrite hex_length, sha256_digest_length.
  reflexivity.
Qed.

(** On an ASCII signature the verifier returns, and it returns whether the
    signature is the hexadecimal digest. *)
Lemma verify_signature_ascii settings key body signature :
  secret_key settings = Ok key ->
  is_ascii signature = true ->
  verify_signature settings body signature
  = Ok (bool_decide (HMAC.hexdigest key body = signature)).
Proof.
  intros Hk Ha. unfold verify_signature. rewrite Hk. cbn [rbind].
  unfold HMAC.compare_digest, HMAC.hexdigest. rewrite hex_is_ascii, Ha. reflexivity.
Qed.

Lemma verify_signature_mismatch settings key body signature :
  secret_key settings = Ok key ->
  is_ascii signature = true ->
  signature <> HMAC.hexdigest key body ->
  verify_signature settings body signature = Ok false.
Proof.
  intros Hk Ha Hne. rewrite (verify_signature_ascii _ key) by assumption.
  rewrite bool_decide_eq_false_2; [reflexivity | congruence].
Qed.

Lemma verify_signature_match settings key body :
  secret_key settings = Ok key ->
  verify_signature settings body (HMAC.hexdigest key body) = Ok true.
Proof.
  intros Hk. rewrite (verify_signature_ascii _ key); [|assumption|apply hex_is_ascii].
  rewrite bool_decide_eq_true_2; reflexivity.
Qed.

(** A missing or empty signature is refused. *)
Lemma verify_signature_empty settings key body :
  secret_key settings = Ok key ->
  verify_signature settings body [] = Ok false.
Proof.
  intros Hk. apply (verify_signature_mismatch _ key); [exact Hk | reflexivity |].
  intros E. pose proof (hexdigest_length key body) as H. rewrite <- E in H.
  discriminate.
Qed.

(** Without a secret the verifier cannot run. *)
Lemma verify_signature_unset_secret settings body signature :
  WEBHOOK_SECRET settings = None ->
  verify_signature settings body signature = Raise AttributeError.
Proof. intros H. unfold verify_signature, secret_key. rewrite H. reflexivity. Qed.

(** On a signature with a character outside ASCII the comparison raises. *)
Lemma verify_signature_non_ascii settings key body signature :
  secret_key settings = Ok key ->
  is_ascii signature = false ->
  verify_signature settings body signature = Raise TypeError.
Proof.
  intros Hk Ha. unfold verify_signature. rewrite Hk. cbn [rbind].
  unfold HMAC.compare_digest. rewrite Ha, andb_false_r. reflexivity.
Qed.

(** C2: verification is not total.  With the secret of the test suite and
    the signature header [é] (one character, U+00E9), [verify_signature]
    raises [TypeError] instead of returning [False]; the endpoint then
    answers 500 and not 401. *)
Theorem verify_signature_raises_on_non_ascii :
  verify_signature test_settings body_m1 [233] = Raise TypeError
  /\ response (webhook test_settings sample_loads PyDatetime.fromisoformat
                 (py "2025-01-15T10:00:01.000000")
                 {| req_body := body_m1; x_signature := Some [233] |} [])
     = internal_server_error.
Proof.
  assert (H : verify_signature test_settings body_m1 [233] = Raise TypeError).
  { apply (verify_signature_non_ascii _ (py "testsecret")); reflexivity. }
  split; [exact H|]. unfold webhook.
  change (default [] (x_signature {| req_body := body_m1; x_signature := Some [233] |}))
    with [233].
  change (req_body {| req_body := body_m1; x_signature := Some [233] |}) with body_m1.
  rewrite H. reflexivity.
Qed.

(** ** The message validator: phone numbers *)

Lemma ascii_digit_is_decimal c : ascii_digit c = true -> Re.is_decimal c = true.
Proof.
  unfold ascii_digit. intros H. unfold Re.is_decimal, Re.decimal_ranges.
  cbn [existsb fst snd]. rewrite H. reflexivity.
Qed.

Lemma match_iff_ends r s :
  Re.match_ r s = true <-> exists p, In p (Re.ends r (true, s)).
Proof.
  unfold Re.match_. destruct (Re.ends r (true, s)) as [|p l]; split.
  - discriminate.
  - intros [p []].
  - intros _. exists p. left. reflexivity.
  - reflexivity.
Qed.

Lemma ends_seq r1 r2 p q :
  In q (Re.ends (Re.Seq r1 r2) p)
  <-> exists m, In m (Re.ends r1 p) /\ In q (Re.ends r2 m).
Proof. cbn [Re.ends]. apply in_flat_map. Qed.

Lemma ends_bol p q : In q (Re.ends Re.Bol p) <-> q = p /\ p.1 = true.
Proof.
  cbn [Re.ends]. destruct p.1; cbn; split.
  - intros [<-|[]]. auto.
  - intros [-> _]. auto.
  - intros [].
  - intros [_ H]. discriminate.
Qed.

Lemma ends_eol p q : In q (Re.ends Re.Eol p) <-> q = p /\ Re.at_eol p.2 = true.
Proof.
  cbn [Re.ends]. destruct (Re.at_eol p.2); cbn; split.
  - intros [<-|[]]. auto.
  - intros [-> _]. auto.
  - intros [].
  - intros [_ H]. discriminate.
Qed.

Lemma ends_lit c p q :
  In q (Re.ends (Re.Lit c) p) <-> p.2 = c :: q.2 /\ q.1 = false.
Proof.
  cbn [Re.ends].
  destruct p.2 as [|x rest]; [split; [intros [] | intros [H _]; discriminate]|].
  destruct (N.eqb_spec x c) as [->|Hne]; cbn; split.
  - intros [<-|[]]. auto.
  - intros [E Hq]. injection E as ->. left. destruct q; cbn in *; subst; reflexivity.
  - intros [].
  - intros [E _]. congruence.
Qed.

Lemma ends_digit b s p :
  In p (Re.ends Re.Digit (b, s)) <->
  exists x, Re.is_decimal x = true /\ s = x :: p.2 /\ p.1 = false.
Proof.
  cbn [Re.ends snd]. destruct s as [|x rest].
  - split; [intros [] | intros (x & _ & E & _); discriminate].
  - destruct (Re.is_decimal x) eqn:D.
    + split.
      * intros [<-|[]]. exists x. auto.
      * intros (y & Hy & E & Hp). injection E as -> ->. left.
        destruct p; cbn in *; subst; reflexivity.
    + split; [intros [] | intros (y & Hy & E & _)]. injection E as -> _. congruence.
Qed.

(** [\d+] consumes a non-empty run of decimal digits. *)
Lemma iterate_digit fuel : forall b s p,
  In p (Re.iterate (Re.ends Re.Digit) fuel (b, s)) <->
  exists ds, ds <> [] /\ forallb Re.is_decimal ds = true
             /\ (length ds <= fuel)%nat /\ s = ds ++ p.2 /\ p.1 = false.
Proof.
  induction fuel as [|fuel IH]; intros b s p.
  - cbn. split; [intros [] |]. intros (ds & Hne & _ & Hl & _).
    destruct ds; [congruence | cbn in Hl; lia].
  - cbn [Re.iterate]. rewrite in_flat_map. split.
    + intros (p' & Hp' & Hin). apply ends_digit in Hp' as (x & Hx & -> & Hf).
      destruct p' as [b' s']; cbn in *; subst b'.
      apply in_app_or in Hin as [Hin | [<- | []]].
      * apply IH in Hin as (ds & Hne & Hall & Hl & -> & Hpf).
        exists (x :: ds). cbn. rewrite Hx, Hall.
        repeat split; auto; try lia; discriminate.
      * exists [x]. cbn. rewrite Hx. repeat split; auto; try lia; discriminate.
    + intros (ds & Hne & Hall & Hl & -> & Hpf).
      destruct ds as [|x ds]; [congruence|]. cbn in Hall, Hl.
      apply andb_true_iff in Hall as [Hx Hall].
      exists (false, ds ++ p.2). split.
      * apply ends_digit. exists x. auto.
      * apply in_or_app. destruct ds as [|y ds].
        -- right. left. destruct p; cbn in *; subst; reflexivity.
        -- left. apply IH. exists (y :: ds).
           repeat split; auto; try lia; discriminate.
Qed.

Lemma ends_plus_digit p q :
  In q (Re.ends (Re.Plus Re.Digit) p) <->
  exists ds, ds <> [] /\ forallb Re.is_decimal ds = true
             /\ p.2 = ds ++ q.2 /\ q.1 = false.
Proof.
  cbn [Re.ends]. destruct p as [b s]. rewrite iterate_digit. cbn [snd]. split.
  - intros (ds & ? & ? & ? & ? & ?). exists ds. auto.
  - intros (ds & ? & ? & -> & ?). exists ds. repeat split; auto.
    rewrite length_app. lia.
Qed.

Lemma at_eol_iff rest : Re.at_eol rest = true <-> rest = [] \/ rest = [10].
Proof.
  destruct rest as [|c [|d rest]]; cbn.
  - split; auto.
  - rewrite N.eqb_eq. split.
    + intros ->. auto.
    + intros [H|H]; [discriminate | congruence].
  - split; [discriminate | intros [H|H]; discriminate].
Qed.

(** What the pattern of [validate_e164] accepts: a [+], a non-empty run of
    Unicode decimal digits, and optionally one final newline. *)
Lemma e164_pattern_accepts v :
  Re.match_ e164_pattern v = true <->
  exists ds, ds <> [] /\ forallb Re.is_decimal ds = true
             /\ (v = 43 :: ds \/ v = 43 :: ds ++ [10]).
Proof.
  rewrite match_iff_ends. unfold e164_pattern. split.
  - intros (p & Hp).
    apply ends_seq in Hp as (p1 & [-> _]%ends_bol & Hp).
    apply ends_seq in Hp as (p2 & [Hv _]%ends_lit & Hp).
    apply ends_seq in Hp as (p3 & (ds & Hne & Hall & Hds & _)%ends_plus_digit & Hp).
    apply ends_eol in Hp as [-> Heol]. cbn [snd] in Hv. subst v. rewrite Hds.
    exists ds. apply at_eol_iff in Heol as [-> | ->]; rewrite ?app_nil_r; auto.
  - intros (ds & Hne & Hall & Hv).
    assert (exists tl, (tl = [] \/ tl = [10]) /\ v = 43 :: ds ++ tl) as (tl & Htl & ->).
    { destruct Hv as [-> | ->]; [exists []|exists [10]]; rewrite ?app_nil_r; auto. }
    exists (false, tl).
    apply ends_seq. exists (true, 43 :: ds ++ tl). split; [apply ends_bol; auto|].
    apply ends_seq. exists (false, ds ++ tl). split; [apply ends_lit; auto|].
    apply ends_seq. exists (false, tl). split.
    + apply ends_plus_digit. exists ds. auto.
    + apply ends_eol. split; [reflexivity|]. apply at_eol_iff, Htl.
Qed.

Lemma validate_e164_ok v :
  validate_e164 v = Ok v <-> Re.match_ e164_pattern v = true.
Proof.
  unfold validate_e164.
  destruct (Re.match_ e164_pattern v); cbn; split; auto; discriminate.
Qed.

(** Every number of the specified shape is accepted. *)
Lemma spec_e164_accepted v : spec_e164 v = true -> validate_e164 v = Ok v.
Proof.
  intros H. apply validate_e164_ok, e164_pattern_accepts.
  destruct v as [|c [|d ds]]; try discriminate.
  unfold spec_e164 in H. apply andb_true_iff in H as [->%N.eqb_eq H].
  exists (d :: ds). split; [discriminate|]. split; [|auto].
  apply forallb_forall. intros x Hx. apply ascii_digit_is_decimal.
  eapply forallb_forall in H; eauto.
Qed.

Example validate_e164_rejects_missing_plus :
  validate_e164 (py "919876543210") = Raise ValueError.
Proof. vm_compute. reflexivity. Qed.

(** C3: the validator accepts more than [+] and ASCII digits.  A number
    followed by a newline passes [validate_e164], and so does a number in
    Arabic-Indic digits; the specified rule rejects both.  A payload whose
    [from] ends in a newline is validated and would be stored. *)
Theorem validate_e164_accepts_trailing_newline :
  let v := py "+919876543210" ++ [10] in
  let arabic := [43; 0x661; 0x662; 0x663] in
  validate_e164 v = Ok v /\ spec_e164 v = false
  /\ validate_e164 arabic = Ok arabic /\ spec_e164 arabic = false
  /\ exists msg,
       model_validate PyDatetime.fromisoformat
         (JObject (<[py "message_id" := JString (py "m1")]>
                  (<[py "from" := JString v]>
                  (<[py "to" := JString (py "+14155550100")]>
                  (<[py "ts" := JString (py "2025-01-15T10:00:00Z")]> ∅)))))
       = Ok msg /\ wm_from_ msg = v.
Proof.
  cbn zeta. repeat split; try (vm_compute; reflexivity).
  eexists. split; vm_compute; reflexivity.
Qed.

(** ** The message validator: timestamps *)

Lemma replace_Z_no_Z v :
  forallb (fun c => negb (c =? 90)) v = true -> replace_Z v = v.
Proof.
  unfold replace_Z. induction v as [|c v IH]; [reflexivity|]. cbn [forallb flat_map].
  intros [Hc Hv]%andb_true_iff. destruct (c =? 90); [discriminate|].
  cbn. f_equal. auto.
Qed.

Lemma replace_Z_app a b : replace_Z (a ++ b) = replace_Z a ++ replace_Z b.
Proof. unfold replace_Z. apply flat_map_app. Qed.

(** When the only [Z] is the last character, replacing every [Z] and
    replacing the trailing one give the same string. *)
Lemma replace_Z_single before :
  forallb (fun c => negb (c =? 90)) before = true ->
  replace_Z (before ++ [90]) = replace_trailing_Z (before ++ [90]).
Proof.
  intros H. rewrite replace_Z_app, (replace_Z_no_Z _ H).
  unfold replace_trailing_Z. rewrite rev_app_distr. cbn [rev app].
  rewrite N.eqb_refl, rev_involutive. reflexivity.
Qed.

Lemma endswith_Z_snoc before c : endswith_Z (before ++ [c]) = (c =? 90).
Proof. unfold endswith_Z. rewrite last_snoc. reflexivity. Qed.

(** On such timestamps the validator and the specified rule agree,
    whatever the parser. *)
Lemma validate_iso8601_single_Z fromisoformat before :
  forallb (fun c => negb (c =? 90)) before = true ->
  validate_iso8601 fromisoformat (before ++ [90]) = Ok (before ++ [90])
  <-> spec_accepts_ts fromisoformat (before ++ [90]) = true.
Proof.
  intros H. unfold validate_iso8601, spec_accepts_ts.
  rewrite endswith_Z_snoc, N.eqb_refl, <- (replace_Z_single _ H). cbn [negb andb].
  destruct (fromisoformat (replace_Z (before ++ [90]))) as [d|]; split; done.
Qed.

(** Without a final [Z] the timestamp is rejected, whatever the parser. *)
Lemma validate_iso8601_needs_Z fromisoformat v :
  endswith_Z v = false -> validate_iso8601 fromisoformat v = Raise ValueError.
Proof. intros H. unfold validate_iso8601. rewrite H. reflexivity. Qed.

Example validate_iso8601_boundary :
  validate_iso8601 PyDatetime.fromisoformat (py "2025-01-15T10:00:00")
  = Raise ValueError
  /\ validate_iso8601 PyDatetime.fromisoformat (py "2025-01-15T10:00:00Z")
     = Ok (py "2025-01-15T10:00:00Z")
  /\ validate_iso8601 PyDatetime.fromisoformat (py "2025-02-30T10:00:00Z")
     = Raise ValueError.
Proof. repeat split; vm_compute; reflexivity. Qed.

(** C4: the validator replaces every [Z], not the trailing one.  The
    timestamp [2025-01-15ZZ] becomes [2025-01-15+00:00+00:00], which parses
    (date, separator [+], time [00:00], offset [+00:00]); it is accepted and
    a payload carrying it is validated, though the specified rule rejects
    it: with the trailing [Z] alone replaced, [2025-01-15Z+00:00] has no
    time and does not parse. *)
Theorem validate_iso8601_accepts_double_Z :
  let v := py "2025-01-15ZZ" in
  replace_Z v = py "2025-01-15+00:00+00:00"
  /\ replace_trailing_Z v = py "2025-01-15Z+00:00"
  /\ validate_iso8601 PyDatetime.fromisoformat v = Ok v
  /\ spec_accepts_ts PyDatetime.fromisoformat v = false
  /\ exists msg,
       model_validate PyDatetime.fromisoformat
         (JObject (<[py "message_id" := JString (py "m1")]>
                  (<[py "from" := JString (py "+919876543210")]>
                  (<[py "to" := JString (py "+14155550100")]>
                  (<[py "ts" := JString v]> ∅)))))
       = Ok msg /\ wm_ts msg = v.
Proof.
  cbn zeta. repeat split; try (vm_compute; reflexivity).
  eexists. split; vm_compute; reflexivity.
Qed.

(** ** The message validator: the whole payload *)

Lemma str_field_ok (n : nat) (validator : str -> result str) v s :
  str_field n validator v = Ok s <->
  exists s0, v = Some (JString s0) /\ (n <= length s0)%nat /\ validator s0 = Ok s.
Proof.
  unfold str_field. split.
  - destruct v as [[| | |s0| |]|]; try discriminate.
    destruct (Nat.ltb_spec (length s0) n); [discriminate|]. eauto.
  - intros (s0 & -> & Hn & Hv). destruct (Nat.ltb_spec (length s0) n); [lia | exact Hv].
Qed.

Lemma optional_str_field_ok (n : nat) v o :
  optional_str_field n v = Ok o <->
  match o with
  | None => v = None \/ v = Some JNull
  | Some t => v = Some (JString t) /\ (length t <= n)%nat
  end.
Proof.
  unfold optional_str_field. split.
  - destruct v as [[| | |s0| |]|]; try discriminate.
    + intros [= <-]. auto.
    + destruct (Nat.ltb_spec n (length s0)); [discriminate|]. intros [= <-]. auto.
    + intros [= <-]. auto.
  - destruct o as [t|].
    + intros [-> Hn]. destruct (Nat.ltb_spec n (length t)); [lia | reflexivity].
    + intros [-> | ->]; reflexivity.
Qed.

Lemma validate_e164_inv v s :
  validate_e164 v = Ok s <-> s = v /\ Re.match_ e164_pattern v = true.
Proof.
  unfold validate_e164. destruct (Re.match_ e164_pattern v); cbn; split.
  - intros [= <-]. auto.
  - intros [-> _]. reflexivity.
  - discriminate.
  - intros [_ H]. discriminate.
Qed.

Lemma validate_iso8601_inv fromisoformat v s :
  validate_iso8601 fromisoformat v = Ok s <->
  s = v /\ endswith_Z v = true /\ is_Some (fromisoformat (replace_Z v)).
Proof.
  unfold validate_iso8601. destruct (endswith_Z v); cbn.
  - destruct (fromisoformat (replace_Z v)) as [d|]; split.
    + intros [= <-]. eauto.
    + intros (-> & _ & _). reflexivity.
    + discriminate.
    + intros (_ & _ & [d Hd]). discriminate.
  - split; [discriminate | intros (_ & H & _); discriminate].
Qed.

Lemma model_validate_ok fromisoformat doc msg :
  model_validate fromisoformat doc = Ok msg <->
  exists fields,
    doc = JObject fields
    /\ str_field 1 Ok (fields !! py "message_id") = Ok (wm_message_id msg)
    /\ str_field 0 validate_e164 (fields !! py "from") = Ok (wm_from_ msg)
    /\ str_field 1 validate_e164 (fields !! py "to") = Ok (wm_to msg)
    /\ str_field 0 (validate_iso8601 fromisoformat) (fields !! py "ts") = Ok (wm_ts msg)
    /\ optional_str_field 4096 (fields !! py "text") = Ok (wm_text msg).
Proof.
  unfold model_validate. split.
  - destruct doc as [| | | | |fields]; try discriminate.
    destruct (str_field 1 Ok _) as [a|] eqn:E1; [|discriminate].
    destruct (str_field 0 validate_e164 _) as [b|] eqn:E2; [|discriminate].
    destruct (str_field 1 validate_e164 _) as [c|] eqn:E3; [|discriminate].
    destruct (str_field 0 (validate_iso8601 _) _) as [d|] eqn:E4; [|discriminate].
    destruct (optional_str_field 4096 _) as [e|] eqn:E5; [|discriminate].
    intros [= <-]. exists fields. cbn. auto 10.
  - intros (fields & -> & -> & -> & -> & -> & ->). destruct msg; reflexivity.
Qed.

(** What validation accepts: the five fields, checked one by one. *)
Lemma model_validate_accepts (fromisoformat : str -> option PyDatetime.datetime)
    (fields : gmap str json) (msg : WebhookMessage) :
  model_validate fromisoformat (JObject fields) = Ok msg <->
  fields !! py "message_id" = Some (JString (wm_message_id msg))
  /\ wm_message_id msg <> []
  /\ fields !! py "from" = Some (JString (wm_from_ msg))
  /\ Re.match_ e164_pattern (wm_from_ msg) = true
  /\ fields !! py "to" = Some (JString (wm_to msg))
  /\ Re.match_ e164_pattern (wm_to msg) = true
  /\ fields !! py "ts" = Some (JString (wm_ts msg))
  /\ endswith_Z (wm_ts msg) = true
  /\ is_Some (fromisoformat (replace_Z (wm_ts msg)))
  /\ match wm_text msg with
     | None => fields !! py "text" = None \/ fields !! py "text" = Some JNull
     | Some t => fields !! py "text" = Some (JString t) /\ (length t <= 4096)%nat
     end.
Proof.
  rewrite model_validate_ok. split.
  - intros (fields' & [= <-] & H1 & H2 & H3 & H4 & H5).
    apply str_field_ok in H1 as (s1 & E1 & L1 & [= <-]).
    apply str_field_ok in H2 as (s2 & E2 & _ & [<- M2]%validate_e164_inv).
    apply str_field_ok in H3 as (s3 & E3 & _ & [<- M3]%validate_e164_inv).
    apply str_field_ok in H4 as (s4 & E4 & _ & (<- & Z4 & P4)%validate_iso8601_inv).
    apply optional_str_field_ok in H5.
    repeat split; auto. intros E. rewrite E in L1. cbn in L1. lia.
  - intros (E1 & N1 & E2 & M2 & E3 & M3 & E4 & Z4 & P4 & H5).
    exists fields. split; [reflexivity|].
    rewrite !str_field_ok, optional_str_field_ok. repeat split; auto.
    + exists (wm_message_id msg). repeat split; auto.
      destruct (wm_message_id msg); [congruence | cbn; lia].
    + exists (wm_from_ msg). repeat split; auto; [lia | apply validate_e164_inv; auto].
    + exists (wm_to msg). repeat split; auto; [|apply validate_e164_inv; auto].
      apply e164_pattern_accepts in M3 as (ds & _ & _ & [-> | ->]); cbn; lia.
    + exists (wm_ts msg). repeat split; auto; [lia | apply validate_iso8601_inv; auto].
Qed.

(** ** The store: inserts *)

Lemma has_key_true mid db :
  has_key mid db = true <-> mid ∈ List.map r_message_id db.
Proof.
  unfold has_key. rewrite existsb_exists, list_elem_of_In, in_map_iff.
  split; intros (r & H1 & H2); exists r.
  - apply bool_decide_eq_true in H2. auto.
  - split; [auto | apply bool_decide_eq_true; auto].
Qed.

Lemma has_key_false mid db :
  has_key mid db = false <-> mid ∉ List.map r_message_id db.
Proof. rewrite <- has_key_true. destruct (has_key mid db); split; congruence. Qed.

Lemma has_key_app mid a b : has_key mid (a ++ b) = has_key mid a || has_key mid b.
Proof. apply existsb_app. Qed.

Lemma rows_of_absent mid db : has_key mid db = false -> rows_of mid db = [].
Proof.
  unfold has_key, rows_of. induction db as [|r db IH]; [reflexivity|].
  cbn. intros [H1 H2]%orb_false_iff. rewrite H1. auto.
Qed.

Lemma rows_of_app mid a b : rows_of mid (a ++ b) = rows_of mid a ++ rows_of mid b.
Proof. apply List.filter_app. Qed.

(** A new [message_id]: the row is appended, stamped with the current
    time. *)
Lemma insert_message_new now mid f t ts txt db :
  has_key mid db = false ->
  insert_message now mid f t ts txt db
  = (Ok (true, false),
     db ++ [{| r_message_id := mid; from_msisdn := f; to_msisdn := t; r_ts := ts;
               r_text := txt; created_at := now ++ py "Z" |}]).
Proof.
  intros H. unfold insert_message, with_connection, sql_insert. cbn. rewrite H.
  reflexivity.
Qed.

(** A known [message_id]: the table is left as it is. *)
Lemma insert_message_duplicate now mid f t ts txt db :
  has_key mid db = true ->
  insert_message now mid f t ts txt db = (Ok (true, true), db).
Proof.
  intros H. unfold insert_message, with_connection, sql_insert. cbn. rewrite H.
  reflexivity.
Qed.

Lemma insert_message_pk_unique now mid f t ts txt db :
  pk_unique db -> pk_unique (insert_message now mid f t ts txt db).2.
Proof.
  intros Hu. destruct (has_key mid db) eqn:E.
  - rewrite insert_message_duplicate by done. exact Hu.
  - rewrite insert_message_new by done. cbn [snd]. unfold pk_unique.
    rewrite map_app. cbn. apply NoDup_app. split; [exact Hu|]. split.
    + intros x Hx [->|[]]%list_elem_of_In. apply has_key_false in E. contradiction.
    + apply NoDup_singleton.
Qed.

(** Rows already stored are never touched by an insert. *)
Lemma insert_message_keeps_rows now mid f t ts txt db m :
  has_key m db = true ->
  rows_of m (insert_message now mid f t ts txt db).2 = rows_of m db.
Proof.
  intros Hm. destruct (has_key mid db) eqn:E.
  - rewrite insert_message_duplicate by done. reflexivity.
  - rewrite insert_message_new by done. cbn [snd]. rewrite rows_of_app.
    cbn. rewrite bool_decide_eq_false_2, app_nil_r; [reflexivity|].
    intros ->. congruence.
Qed.

Lemma rows_of_unique mid db :
  pk_unique db -> has_key mid db = true -> length (rows_of mid db) = 1%nat.
Proof.
  unfold pk_unique, has_key, rows_of. induction db as [|r db IH]; [discriminate|].
  cbn [List.map existsb List.filter]. intros Hnd H.
  apply NoDup_cons in Hnd as [Hni Hnd].
  destruct (bool_decide (r_message_id r = mid)) eqn:E.
  - apply bool_decide_eq_true in E. subst mid. cbn [length]. f_equal.
    fold (rows_of (r_message_id r) db). rewrite rows_of_absent; [reflexivity|].
    apply has_key_false. exact Hni.
  - cbn in H. auto.
Qed.

(** ** The ingestion endpoint *)

Section WebhookFacts.

Variable settings : Settings.
Variable json_loads : bytes -> option json.
Variable fromisoformat : str -> option PyDatetime.datetime.

Local Abbreviation handle := (webhook settings json_loads fromisoformat).
Local Abbreviation signature_of req := (default [] (x_signature req)).

(** A request that passes the verifier and the validator is answered
    [{"status": "ok"}], whether its row is new or not. *)
Lemma webhook_accepted now req msg db :
  verify_signature settings (req_body req) (signature_of req) = Ok true ->
  model_validate_json json_loads fromisoformat (req_body req) = Ok msg ->
  response (handle now req db) = status_ok
  /\ db_after (handle now req db)
     = (insert_message now (wm_message_id msg) (wm_from_ msg) (wm_to msg)
          (wm_ts msg) (wm_text msg) db).2
  /\ state_dup (handle now req db) = Some (has_key (wm_message_id msg) db).
Proof.
  intros Hs Hv. unfold webhook. rewrite Hs, Hv.
  destruct (has_key (wm_message_id msg) db) eqn:E.
  - rewrite insert_message_duplicate by done. auto.
  - rewrite insert_message_new by done. auto.
Qed.

(** The primary key is an invariant of the endpoint. *)
Lemma webhook_pk_unique now req db :
  pk_unique db -> pk_unique (db_after (handle now req db)).
Proof.
  intros Hu. unfold webhook.
  destruct (verify_signature _ _ _) as [[|]|]; try exact Hu.
  destruct (model_validate_json _ _ _) as [msg|]; try exact Hu.
  pose proof (insert_message_pk_unique now (wm_message_id msg) (wm_from_ msg)
                (wm_to msg) (wm_ts msg) (wm_text msg) db Hu) as H.
  destruct (insert_message _ _ _ _ _ _ _) as [[[s d]|e] db']; exact H.
Qed.

(** No request changes the rows of a [message_id] that is stored. *)
Lemma webhook_keeps_rows now req db m :
  has_key m db = true -> rows_of m (db_after (handle now req db)) = rows_of m db.
Proof.
  intros Hm. unfold webhook.
  destruct (verify_signature _ _ _) as [[|]|]; try reflexivity.
  destruct (model_validate_json _ _ _) as [msg|]; try reflexivity.
  pose proof (insert_message_keeps_rows now (wm_message_id msg) (wm_from_ msg)
                (wm_to msg) (wm_ts msg) (wm_text msg) db m Hm) as H.
  destruct (insert_message _ _ _ _ _ _ _) as [[[s d]|e] db']; exact H.
Qed.

(** A verified request whose payload fails validation is answered 422 and
    stores nothing. *)
Lemma webhook_invalid_payload now req e db :
  verify_signature settings (req_body req) (signature_of req) = Ok true ->
  model_validate_json json_loads fromisoformat (req_body req) = Raise e ->
  response (handle now req db) = http_exception 422 (DetailStr e)
  /\ db_after (handle now req db) = db
  /\ calls (handle now req db) = [VerifySignature; ModelValidateJson].
Proof. intros Hs Hv. unfold webhook. rewrite Hs, Hv. auto. Qed.

(** A request without the signature header is answered 401. *)
Lemma webhook_missing_signature now body key db :
  secret_key settings = Ok key ->
  response (handle now {| req_body := body; x_signature := None |} db)
  = http_exception 401 (DetailText (py "invalid signature")).
Proof.
  intros Hk. unfold webhook. cbn [req_body x_signature default].
  change (default [] None) with (@nil N).
  rewrite (verify_signature_empty _ key) by exact Hk. reflexivity.
Qed.

(** When verification does not succeed, the handler stops after the
    verifier. *)
Lemma webhook_not_verified now req db :
  verify_signature settings (req_body req) (signature_of req) <> Ok true ->
  db_after (handle now req db) = db
  /\ calls (handle now req db) = [VerifySignature].
Proof.
  intros Hs. unfold webhook.
  destruct (verify_signature _ _ _) as [[|]|]; auto. congruence.
Qed.

(** C1: idempotence.  Two requests that pass the verifier and the
    validator and carry the same [message_id], the first one new to the
    store: both are answered 200 [{"status": "ok"}], the second leaves the
    store as the first left it, and the store holds exactly one row for
    that [message_id], with the fields of the first request and the
    [created_at] of the first insert. *)
Theorem webhook_idempotent now1 now2 req1 req2 msg1 msg2 db :
  verify_signature settings (req_body req1) (signature_of req1) = Ok true ->
  verify_signature settings (req_body req2) (signature_of req2) = Ok true ->
  model_validate_json json_loads fromisoformat (req_body req1) = Ok msg1 ->
  model_validate_json json_loads fromisoformat (req_body req2) = Ok msg2 ->
  wm_message_id msg2 = wm_message_id msg1 ->
  has_key (wm_message_id msg1) db = false ->
  response (handle now1 req1 db) = status_ok
  /\ response (handle now2 req2 (db_after (handle now1 req1 db))) = status_ok
  /\ db_after (handle now2 req2 (db_after (handle now1 req1 db)))
     = db_after (handle now1 req1 db)
  /\ rows_of (wm_message_id msg1)
       (db_after (handle now2 req2 (db_after (handle now1 req1 db))))
     = [row_of_message msg1 (now1 ++ py "Z")].
Proof.
  intros Hs1 Hs2 Hv1 Hv2 Hid Hnew.
  destruct (webhook_accepted now1 req1 msg1 db Hs1 Hv1) as (R1 & D1 & _).
  rewrite insert_message_new in D1 by done. cbn [snd] in D1.
  destruct (webhook_accepted now2 req2 msg2 (db_after (handle now1 req1 db)) Hs2 Hv2)
    as (R2 & D2 & _).
  rewrite insert_message_duplicate in D2.
  2:{ rewrite Hid, D1, has_key_app. apply orb_true_iff. right. cbn.
      rewrite bool_decide_eq_true_2; done. }
  cbn [snd] in D2. split; [exact R1|]. split; [exact R2|]. split; [exact D2|].
  rewrite D2, D1, rows_of_app, rows_of_absent by done.
  cbn. rewrite bool_decide_eq_true_2 by done. reflexivity.
Qed.

(** A request on which the verifier returns [False] is answered 401; the
    handler calls the verifier and nothing else (no validation, no insert),
    and the store is unchanged. *)
Theorem webhook_bad_signature_frame now req db :
  verify_signature settings (req_body req) (signature_of req) = Ok false ->
  status_code (response (handle now req db)) = 401%Z
  /\ db_after (handle now req db) = db
  /\ calls (handle now req db) = [VerifySignature]
  /\ state_result (handle now req db) = Some (py "invalid_signature").
Proof.
  intros Hs. unfold webhook. rewrite Hs. auto.
Qed.

End WebhookFacts.

Lemma webhook_idempotent_witness :
  let handle := webhook test_settings sample_loads PyDatetime.fromisoformat in
  let first := handle (py "2025-01-15T10:00:01.000000") request_m1 [] in
  let second := handle (py "2025-01-15T10:05:00.000000") request_m1_changed
                       (db_after first) in
  response first = status_ok
  /\ response second = status_ok
  /\ db_after second = db_after first
  /\ rows_of (py "m1") (db_after second) = [row_m1].
Proof.
  cbn zeta.
  apply (webhook_idempotent test_settings sample_loads PyDatetime.fromisoformat
           (py "2025-01-15T10:00:01.000000") (py "2025-01-15T10:05:00.000000")
           request_m1 request_m1_changed
           {| wm_message_id := py "m1"; wm_from_ := py "+919876543210";
              wm_to := py "+14155550100"; wm_ts := py "2025-01-15T10:00:00Z";
              wm_text := Some (py "Hello") |}
           {| wm_message_id := py "m1"; wm_from_ := py "+911234567890";
              wm_to := py "+14155550199"; wm_ts := py "2025-02-01T08:30:00Z";
              wm_text := Some (py "Changed") |}
           []); vm_compute; reflexivity.
Defined.

(** C9: not every request whose signature fails verification is answered
    401.  With the secret of the test suite, the signature header [é] (one
    character, U+00E9) is not the digest of the body and is not accepted,
    yet the answer is 500: the verifier raises instead of returning
    [False].  The rest of the claim holds for this request: the handler
    calls the verifier and nothing else, and the store is unchanged. *)
Theorem webhook_bad_signature_not_401 :
  let req := {| req_body := body_m1; x_signature := Some [233] |} in
  let o := webhook test_settings sample_loads PyDatetime.fromisoformat
             (py "2025-01-15T10:00:01.000000") req [row_m1] in
  [233] <> HMAC.hexdigest (py "testsecret") body_m1
  /\ verify_signature test_settings body_m1 [233] <> Ok true
  /\ response o = internal_server_error
  /\ status_code (response o) <> 401%Z
  /\ db_after o = [row_m1]
  /\ calls o = [VerifySignature].
Proof.
  cbn zeta.
  assert (H : verify_signature test_settings body_m1 [233] = Raise TypeError).
  { apply (verify_signature_non_ascii _ (py "testsecret")); reflexivity. }
  split.
  { intros E. pose proof (hexdigest_length (py "testsecret") body_m1) as Hlen.
    rewrite <- E in Hlen. discriminate. }
  split; [rewrite H; discriminate|].
  unfold webhook.
  change (default [] (x_signature {| req_body := body_m1; x_signature := Some [233] |}))
    with [233].
  change (req_body {| req_body := body_m1; x_signature := Some [233] |}) with body_m1.
  rewrite H. repeat split. discriminate.
Qed.

Lemma webhook_bad_signature_frame_witness :
  let o := webhook test_settings sample_loads PyDatetime.fromisoformat
             (py "2025-01-15T10:00:01.000000") request_bad_signature [row_m1] in
  status_code (response o) = 401%Z
  /\ db_after o = [row_m1]
  /\ calls o = [VerifySignature]
  /\ state_result o = Some (py "invalid_signature").
Proof.
  cbn zeta.
  apply (webhook_bad_signature_frame test_settings sample_loads
           PyDatetime.fromisoformat (py "2025-01-15T10:00:01.000000")
           request_bad_signature [row_m1]).
  vm_compute. reflexivity.
Defined.

(** ** The store: listing *)

Lemma bind_int_ok v : int64 v -> Sql.bind_int v = Ok v.
Proof.
  unfold int64, Sql.bind_int. intros [H1 H2].
  apply Z.leb_le in H1. apply Z.ltb_lt in H2. rewrite H1, H2. reflexivity.
Qed.

Lemma bind_int_overflow v : ~ int64 v -> Sql.bind_int v = Raise OverflowError.
Proof.
  unfold int64, Sql.bind_int. intros H.
  destruct (Z.leb_spec (- 2 ^ 63) v); destruct (Z.ltb_spec v (2 ^ 63)); cbn;
    try reflexivity.
  lia.
Qed.

Lemma str_encode_ok_iff s :
  (exists key, str_encode s = Ok key)
  <-> Forall (fun c => is_Some (utf8_encode_char c)) s.
Proof.
  induction s as [|c s IH]; cbn [str_encode].
  - split; [constructor | eauto].
  - destruct (utf8_encode_char c) as [bs|] eqn:E.
    + rewrite Forall_cons, <- IH. split.
      * intros [key H]. split; [eauto|].
        destruct (str_encode s); [eauto | cbn in H; discriminate].
      * intros [_ [key Hkey]]. rewrite Hkey. cbn. eauto.
    + split; [intros [key H]; discriminate|].
      intros [[x Hx] _]%Forall_cons. congruence.
Qed.

Lemma str_encode_raises s e : str_encode s = Raise e -> e = UnicodeEncodeError.
Proof.
  induction s as [|c s IH]; cbn [str_encode]; [discriminate|].
  destruct (utf8_encode_char c); [|congruence].
  destruct (str_encode s); cbn; [discriminate | intros [= <-]; auto].
Qed.

(** Binding the parameters succeeds when each can be encoded, and raises
    [UnicodeEncodeError] otherwise. *)
Lemma bind_params_spec cs :
  bind_params cs
  = if forallb (fun c => encodes (clause_param c)) cs then Ok tt
    else Raise UnicodeEncodeError.
Proof.
  induction cs as [|c cs IH]; [reflexivity|].
  cbn [bind_params forallb]. unfold Sql.bind_text, encodes at 1.
  destruct (str_encode (clause_param c)) as [bs|e] eqn:E; cbn [rbind andb].
  - exact IH.
  - rewrite (str_encode_raises _ _ E). reflexivity.
Qed.

Lemma where_sql_app_plain cs1 cs2 r :
  forallb plain_clause cs1 = true ->
  where_sql (cs1 ++ cs2) r
  = if row_selected cs1 r then where_sql cs2 r else Ok false.
Proof.
  induction cs1 as [|c cs1 IH]; [reflexivity|].
  cbn [forallb app where_sql row_selected]. intros [Hc Hcs]%andb_true_iff.
  destruct c as [v|v|pat]; try discriminate; cbn [eval_clause rbind clause_holds].
  - destruct (bool_decide _); [exact (IH Hcs) | reflexivity].
  - destruct (Sql.str_leb _ _); [exact (IH Hcs) | reflexivity].
Qed.

Lemma plain_clauses f s :
  forallb plain_clause (clause_if FromEq f ++ clause_if TsGe s) = true.
Proof. destruct f as [[|? ?]|], s as [[|? ?]|]; reflexivity. Qed.

Lemma where_clauses_None f s :
  where_clauses f s None = clause_if FromEq f ++ clause_if TsGe s.
Proof. unfold where_clauses. cbn [clause_if]. rewrite app_nil_r. reflexivity. Qed.

Lemma row_selected_app cs1 cs2 r :
  row_selected (cs1 ++ cs2) r = row_selected cs1 r && row_selected cs2 r.
Proof. unfold row_selected. apply forallb_app. Qed.

(** A row that fails the sender or the timestamp clause is left before
    its text is matched; on a row that passes them the [LIKE] function
    runs, and refuses a pattern that is too long. *)
Lemma where_clauses_split f s q :
  where_clauses f s q
  = where_clauses f s None
    ++ clause_if (fun q => TextLike (py "%" ++ q ++ py "%")) q.
Proof. rewrite where_clauses_None. unfold where_clauses. apply app_assoc. Qed.

Lemma where_sql_spec f s q r :
  where_sql (where_clauses f s q) r
  = if row_selected (where_clauses f s None) r
    then if pattern_too_long q then Raise OperationalError
         else Ok (row_selected (where_clauses f s q) r)
    else Ok false.
Proof.
  rewrite (where_clauses_split f s q), row_selected_app.
  rewrite where_sql_app_plain
    by (rewrite where_clauses_None; apply plain_clauses).
  destruct (row_selected (where_clauses f s None) r); [|reflexivity].
  cbn [andb]. destruct q as [[|c q]|]; try reflexivity.
  cbn [clause_if where_sql eval_clause pattern_too_long row_selected forallb
       clause_holds].
  unfold Sql.like_function.
  destruct (Sql.like_pattern_length <? Sql.value_bytes _); [reflexivity|].
  cbn [rbind]. rewrite andb_true_r. destruct (r_text r) as [t|]; [|reflexivity].
  destruct (Sql.like _ t); reflexivity.
Qed.

Lemma sql_select_spec f s q db :
  sql_select (where_clauses f s q) db
  = if pattern_too_long q
       && existsb (row_selected (where_clauses f s None)) db
    then Raise OperationalError
    else Ok (matching f s q db).
Proof.
  unfold matching. induction db as [|r db IH]; cbn [sql_select existsb List.filter].
  - rewrite andb_false_r. reflexivity.
  - rewrite where_sql_spec, IH.
    assert (Hq : row_selected (where_clauses f s q) r
                 = row_selected (where_clauses f s None) r
                   && row_selected
                        (clause_if (fun q => TextLike (py "%" ++ q ++ py "%")) q) r)
      by (rewrite (where_clauses_split f s q) at 1; apply row_selected_app).
    destruct (row_selected (where_clauses f s None) r); cbn [orb].
    + destruct (pattern_too_long q); cbn [andb rbind]; [reflexivity|].
      destruct (row_selected (where_clauses f s q) r); reflexivity.
    + cbn [andb] in Hq. rewrite Hq. cbn [rbind].
      destruct (pattern_too_long q && _); reflexivity.
Qed.

(** Every outcome of [get_messages]. *)
Lemma get_messages_spec limit offset f s q db :
  get_messages limit offset f s q db
  = match query_error f s q db with
    | Some e => Raise e
    | None =>
        if decide (int64 limit /\ int64 offset)
        then Ok (List.map dict_of_row
                   (Sql.limit_offset limit offset
                      (order_by_ts_id (matching f s q db))),
                 Z.of_nat (length (matching f s q db)))
        else Raise OverflowError
    end.
Proof.
  unfold get_messages, with_connection, query_error.
  rewrite bind_params_spec. fold (filters_encode f s q).
  destruct (filters_encode f s q); cbn [negb rbind]; [|reflexivity].
  rewrite sql_select_spec.
  destruct (pattern_too_long q && _); cbn [rbind]; [reflexivity|].
  destruct (decide (int64 limit /\ int64 offset)) as [[Hl Ho]|Hn].
  - rewrite (bind_int_ok _ Hl), (bind_int_ok _ Ho). reflexivity.
  - destruct (decide (int64 limit)) as [Hl|Hl].
    + rewrite (bind_int_ok _ Hl). cbn [rbind].
      rewrite bind_int_overflow; [reflexivity | tauto].
    + rewrite (bind_int_overflow _ Hl). reflexivity.
Qed.

Lemma get_messages_ok limit offset f s q db :
  int64 limit -> int64 offset -> query_error f s q db = None ->
  get_messages limit offset f s q db
  = Ok (List.map dict_of_row
          (Sql.limit_offset limit offset (order_by_ts_id (matching f s q db))),
        Z.of_nat (length (matching f s q db))).
Proof.
  intros Hl Ho Hq. rewrite get_messages_spec, Hq.
  rewrite decide_True by auto. reflexivity.
Qed.

Lemma get_messages_overflow limit offset f s q db :
  ~ (int64 limit /\ int64 offset) -> query_error f s q db = None ->
  get_messages limit offset f s q db = Raise OverflowError.
Proof.
  intros H Hq. rewrite get_messages_spec, Hq. rewrite decide_False by exact H.
  reflexivity.
Qed.

Lemma get_messages_Ok_inv limit offset f s q db page total :
  get_messages limit offset f s q db = Ok (page, total) ->
  int64 limit /\ int64 offset
  /\ page = List.map dict_of_row
              (Sql.limit_offset limit offset (order_by_ts_id (matching f s q db)))
  /\ total = Z.of_nat (length (matching f s q db))
  /\ query_error f s q db = None.
Proof.
  rewrite get_messages_spec. destruct (query_error f s q db); [discriminate|].
  destruct (decide (int64 limit /\ int64 offset)) as [[Hl Ho]|Hn]; [|discriminate].
  intros [= <- <-]. auto.
Qed.

Lemma query_error_no_filter db : query_error None None None db = None.
Proof. reflexivity. Qed.

(** The total does not depend on the limit and the offset. *)
Lemma get_messages_total_independent l1 o1 l2 o2 f s q db p1 t1 p2 t2 :
  get_messages l1 o1 f s q db = Ok (p1, t1) ->
  get_messages l2 o2 f s q db = Ok (p2, t2) ->
  t1 = t2.
Proof.
  intros (_ & _ & _ & -> & _)%get_messages_Ok_inv
    (_ & _ & _ & -> & _)%get_messages_Ok_inv.
  reflexivity.
Qed.

(** *** The order of strings *)

Lemma str_compare_refl a : Sql.str_compare a a = Eq.
Proof.
  induction a as [|x a IH]; cbn; [reflexivity|]. rewrite N.compare_refl. exact IH.
Qed.

Lemma str_compare_eq a : forall b, Sql.str_compare a b = Eq -> a = b.
Proof.
  induction a as [|x a IH]; intros [|y b]; cbn; try discriminate; [reflexivity|].
  destruct (x ?= y) eqn:E; try discriminate.
  apply N.compare_eq in E. intros H. f_equal; auto.
Qed.

Lemma str_compare_antisym a :
  forall b, Sql.str_compare b a = CompOpp (Sql.str_compare a b).
Proof.
  induction a as [|x a IH]; intros [|y b]; cbn; try reflexivity.
  rewrite (N.compare_antisym x y). destruct (x ?= y); cbn; auto.
Qed.

Lemma str_compare_lt_trans a : forall b c,
  Sql.str_compare a b = Lt -> Sql.str_compare b c = Lt -> Sql.str_compare a c = Lt.
Proof.
  induction a as [|x a IH]; intros [|y b] [|z c]; cbn; try congruence.
  destruct (N.compare_spec x y), (N.compare_spec y z); try congruence; subst;
    intros H1 H2.
  - rewrite N.compare_refl. eauto.
  - apply N.compare_lt_iff in H0. rewrite H0. reflexivity.
  - apply N.compare_lt_iff in H. rewrite H. reflexivity.
  - assert (x < z) as Hxz by lia. apply N.compare_lt_iff in Hxz. rewrite Hxz.
    reflexivity.
Qed.

Lemma str_leb_total a b : Sql.str_leb a b = false -> Sql.str_leb b a = true.
Proof.
  unfold Sql.str_leb. rewrite (str_compare_antisym a b).
  destruct (Sql.str_compare a b); cbn; congruence.
Qed.

Lemma str_leb_spec a b : Sql.str_leb a b = true <-> str_lt a b \/ a = b.
Proof.
  unfold Sql.str_leb, str_lt. destruct (Sql.str_compare a b) eqn:E; split; auto.
  - intros _. right. apply str_compare_eq. exact E.
  - discriminate.
  - intros [H| ->]; [discriminate|]. rewrite str_compare_refl in E. discriminate.
Qed.

Lemma str_le_refl a : str_le a a.
Proof. unfold str_le, Sql.str_leb. rewrite str_compare_refl. reflexivity. Qed.

Lemma str_le_trans a b c : str_le a b -> str_le b c -> str_le a c.
Proof.
  unfold str_le. rewrite !str_leb_spec. unfold str_lt.
  intros [H1 | ->] [H2 | ->]; auto. left. eapply str_compare_lt_trans; eassumption.
Qed.

Lemma str_le_total a b : str_le a b \/ str_le b a.
Proof.
  unfold str_le. destruct (Sql.str_leb a b) eqn:E; auto. right.
  apply str_leb_total, E.
Qed.

#[global] Instance row_le_total : Total row_le.
Proof.
  intros a b. unfold row_le, row_leb.
  rewrite (str_compare_antisym (r_ts a) (r_ts b)).
  destruct (Sql.str_compare (r_ts a) (r_ts b)); cbn; auto.
  destruct (Sql.str_leb (r_message_id a) (r_message_id b)) eqn:E; [left; exact I|].
  right. rewrite (str_leb_total _ _ E). exact I.
Qed.

#[global] Instance sender_le_total : Total sender_le.
Proof.
  intros a b. unfold sender_le.
  destruct (str_le_total a b) as [H|H]; [left|right]; apply Is_true_true; exact H.
Qed.

#[global] Instance count_ge_total : Total count_ge.
Proof. intros a b. unfold count_ge. lia. Qed.

Lemma row_le_key_le a b : row_le a b -> key_le (dict_of_row a) (dict_of_row b).
Proof.
  unfold row_le, row_leb, key_le. cbn.
  destruct (Sql.str_compare (r_ts a) (r_ts b)) eqn:E; intros H.
  - right. split; [apply str_compare_eq, E|].
    apply str_leb_spec. apply Is_true_true. exact H.
  - left. exact E.
  - destruct H.
Qed.

(** *** Windows on sorted lists *)

Section SortedFacts.

Context {A : Type} (R : relation A).

Lemma Sorted_drop n : forall l, Sorted R l -> Sorted R (drop n l).
Proof.
  induction n as [|n IH]; intros l H; [exact H|].
  destruct l as [|x l]; [constructor|]. cbn. apply IH. inversion H; assumption.
Qed.

Lemma HdRel_take n x l : HdRel R x l -> HdRel R x (take n l).
Proof. intros H. destruct n, l; cbn; try constructor. inversion H; assumption. Qed.

Lemma Sorted_take n : forall l, Sorted R l -> Sorted R (take n l).
Proof.
  induction n as [|n IH]; intros l H; [constructor|].
  destruct l as [|x l]; [constructor|]. cbn. inversion H; subst.
  constructor; [apply IH; assumption | apply HdRel_take; assumption].
Qed.

Lemma Sorted_limit_offset limit offset l :
  Sorted R l -> Sorted R (Sql.limit_offset limit offset l).
Proof.
  intros H. unfold Sql.limit_offset.
  destruct (limit <? 0)%Z; [|apply Sorted_take]; apply Sorted_drop, H.
Qed.

Lemma Sorted_adjacent l : Sorted R l ->
  forall i a b, l !! i = Some a -> l !! S i = Some b -> R a b.
Proof.
  induction 1 as [|x l Hs IH Hd]; intros i a b Ha Hb; [discriminate|].
  destruct i as [|i].
  - cbn in Ha, Hb. injection Ha as ->. destruct l as [|y l]; [discriminate|].
    cbn in Hb. injection Hb as ->. inversion Hd; assumption.
  - cbn in Ha, Hb. eapply IH; eassumption.
Qed.

End SortedFacts.

Lemma Sorted_map_rel {A B} (R : relation A) (S : relation B) (f : A -> B) l :
  (forall a b, R a b -> S (f a) (f b)) -> Sorted R l -> Sorted S (List.map f l).
Proof.
  intros Hf. induction 1 as [|x l Hs IH Hd]; cbn; constructor; auto.
  destruct Hd; cbn; constructor; auto.
Qed.

(** C6: whatever the stored messages, the filters, the limit and the
    offset, every two consecutive messages [a], [b] of a page that
    [get_messages] returns satisfy
    [(ts a, message_id a) <= (ts b, message_id b)].  A page is returned
    exactly when the limit and the offset fit SQLite integers and the
    queries run: the filters can be encoded, and the text query is not too
    long for [LIKE] or no row reaches the [LIKE] test. *)
Theorem get_messages_ordered limit offset (f s q : option str) (db : table) :
  ((exists page total, get_messages limit offset f s q db = Ok (page, total))
   <-> int64 limit /\ int64 offset /\ query_error f s q db = None)
  /\ forall page total,
       get_messages limit offset f s q db = Ok (page, total) ->
       forall i a b, page !! i = Some a -> page !! S i = Some b -> key_le a b.
Proof.
  split.
  - split.
    + intros (page & total & H). apply get_messages_Ok_inv in H. tauto.
    + intros (Hl & Ho & Hq). eexists _, _. apply get_messages_ok; assumption.
  - intros page total (_ & _ & -> & _ & _)%get_messages_Ok_inv.
    apply Sorted_adjacent.
    apply (Sorted_map_rel row_le key_le); [apply row_le_key_le|].
    apply Sorted_limit_offset. apply Sorted_merge_sort. apply _.
Qed.

Lemma get_messages_ordered_witness :
  exists page total,
    get_messages 2 0 (Some (py "+919876543210")) None None sample_db = Ok (page, total)
    /\ forall i a b, page !! i = Some a -> page !! S i = Some b -> key_le a b.
Proof.
  destruct (get_messages_ordered 2 0 (Some (py "+919876543210")) None None sample_db)
    as [[_ Hreturns] Hordered].
  destruct Hreturns as (page & total & H).
  - split; [unfold int64; lia|]. split; [unfold int64; lia|].
    vm_compute. reflexivity.
  - exists page, total. split; [exact H | exact (Hordered page total H)].
Defined.

Example get_messages_sample_page :
  get_messages 2 0 None None None sample_db
  = Ok ([dict_of_row (sample_row "pytest_msg_1" "+919876543210"
                        "2025-01-15T09:00:00Z" "First pytest message");
         dict_of_row (sample_row "pytest_msg_2" "+919876543210"
                        "2025-01-15T10:00:00Z" "Second pytest message with Hello")],
        3%Z).
Proof. vm_compute. reflexivity. Qed.

(** *** The filters *)

Lemma text_filter_folds_case :
  get_messages 50 0 None None (Some (py "hello")) [row_m1]
  = Ok ([dict_of_row row_m1], 1%Z)
  /\ claimed_match None None (Some (py "hello")) row_m1 = false.
Proof. split; vm_compute; reflexivity. Qed.


Lemma like_percent t : Sql.pattern_compare [37] t = true.
Proof. induction t as [|x t IH]; [reflexivity|]. cbn in *. exact IH. Qed.

Lemma like_skip p t :
  Sql.pattern_compare (37 :: p) t
  = Sql.pattern_compare p t
    || match t with
       | [] => false
       | _ :: t' => Sql.pattern_compare (37 :: p) t'
       end.
Proof. destruct t; reflexivity. Qed.




Lemma c_str_plain s :
  forallb (fun c => negb (c =? 0)) s = true -> Sql.c_str s = s.
Proof.
  induction s as [|c s IH]; [reflexivity|]. cbn [forallb Sql.c_str].
  intros [Hc Hs]%andb_true_iff. apply negb_true_iff in Hc. rewrite Hc, IH by exact Hs.
  reflexivity.
Qed.




(** A [_] in the query stands for any character. *)
Example like_underscore :
  Sql.like (py "%" ++ py "a_c" ++ py "%") (py "xabcx") = true
  /\ is_substring (py "a_c") (py "xabcx") = false.
Proof. split; reflexivity. Qed.

Lemma ci_prefix_spec q : forall t,
  ci_prefix q t = true <->
  exists m rest, t = m ++ rest /\ List.map Sql.lower m = List.map Sql.lower q.
Proof.
  induction q as [|c q IH]; intros t.
  - split; [|reflexivity]. intros _. exists [], t. auto.
  - destruct t as [|x t]; cbn [ci_prefix].
    + split; [discriminate|]. intros (m & rest & E & Hm).
      destruct m; [discriminate | discriminate].
    + rewrite andb_true_iff, N.eqb_eq, IH. split.
      * intros (Hx & m & rest & -> & Hm). exists (x :: m), rest. cbn.
        rewrite Hx, Hm. auto.
      * intros (m & rest & E & Hm). destruct m as [|y m]; [discriminate|].
        cbn in E, Hm. injection E as -> ->. injection Hm as Hy Hm. eauto.
Qed.

(** [ci_substring q t]: some segment of [t] equals [q] once ASCII letters
    are lowered. *)
Lemma ci_substring_spec q t :
  ci_substring q t = true <->
  exists before m rest,
    t = before ++ m ++ rest /\ List.map Sql.lower m = List.map Sql.lower q.
Proof.
  induction t as [|x t IH]; cbn [ci_substring]; rewrite orb_true_iff, ci_prefix_spec.
  - split.
    + intros [(m & rest & E & Hm) | H]; [|discriminate]. exists [], m, rest. auto.
    + intros (before & m & rest & E & Hm). left.
      destruct before; [|discriminate]. exists m, rest. auto.
  - rewrite IH. split.
    + intros [(m & rest & E & Hm) | (before & m & rest & -> & Hm)].
      * exists [], m, rest. auto.
      * exists (x :: before), m, rest. auto.
    + intros (before & m & rest & E & Hm). destruct before as [|y before].
      * left. exists m, rest. auto.
      * right. cbn in E. injection E as -> ->. eauto.
Qed.






(** Outside these conditions the store does otherwise: the text of a
    message is searched up to its first NUL only, a NUL in the query ends
    the pattern, and a query of 49999 octets is refused as soon as a message
    reaches the test. *)
Example like_reads_c_strings :
  Sql.like (py "%" ++ py "lo" ++ py "%") (py "hel" ++ [0] ++ py "lo") = false
  /\ Sql.like (py "%" ++ [0] ++ py "%") (py "Hello") = true
  /\ get_messages 50 0 None None (Some (repeat 97 (N.to_nat 49999))) [row_m1]
     = Raise OperationalError
  /\ get_messages 50 0 None None (Some (repeat 97 (N.to_nat 49999))) []
     = Ok ([], 0%Z)
  /\ get_messages 50 0 (Some [0xD800]) None None [row_m1]
     = Raise UnicodeEncodeError.
Proof. repeat split; vm_compute; reflexivity. Qed.

Example get_messages_combined_filters :
  get_messages 5 0 (Some (py "+919876543210")) (Some (py "2025-01-15T09:30:00Z"))
    (Some (py "hello")) sample_db
  = Ok ([dict_of_row (sample_row "pytest_msg_2" "+919876543210"
                        "2025-01-15T10:00:00Z" "Second pytest message with Hello")],
        1%Z).
Proof. vm_compute. reflexivity. Qed.

(** C10: a [from], [since] or [q] parameter that is present and empty is
    treated as absent, by the store and by the endpoint: the same data and
    the same total. *)
Theorem empty_filter_is_no_filter (limit offset : Z) (f s q : option str)
    (lim off : int_param) (db : table) :
  get_messages limit offset (Some []) s q db = get_messages limit offset None s q db
  /\ get_messages limit offset f (Some []) q db = get_messages limit offset f None q db
  /\ get_messages limit offset f s (Some []) db = get_messages limit offset f s None db
  /\ list_messages {| q_limit := lim; q_offset := off; q_from := Some [];
                      q_since := s; q_q := q |} db
     = list_messages {| q_limit := lim; q_offset := off; q_from := None;
                        q_since := s; q_q := q |} db
  /\ list_messages {| q_limit := lim; q_offset := off; q_from := f;
                      q_since := Some []; q_q := q |} db
     = list_messages {| q_limit := lim; q_offset := off; q_from := f;
                        q_since := None; q_q := q |} db
  /\ list_messages {| q_limit := lim; q_offset := off; q_from := f;
                      q_since := s; q_q := Some [] |} db
     = list_messages {| q_limit := lim; q_offset := off; q_from := f;
                        q_since := s; q_q := None |} db.
Proof.
  repeat split; reflexivity.
Qed.

Example empty_from_lists_everything :
  get_messages 50 0 (Some []) None None sample_db
  = get_messages 50 0 None None None sample_db
  /\ exists page, get_messages 50 0 (Some []) None None sample_db = Ok (page, 3%Z).
Proof. split; [reflexivity|]. eexists. vm_compute. reflexivity. Qed.

(** ** The query endpoint: bounds on the parameters *)

Lemma int_query_limit_spec p :
  int_query 50 1 (Some 100%Z) p
  = match p with
    | IntAbsent => Some 50%Z
    | IntInvalid => None
    | IntValue v => if decide (1 <= v <= 100)%Z then Some v else None
    end.
Proof.
  destruct p as [| |v]; try reflexivity. unfold int_query.
  destruct (Z.leb_spec 1 v), (Z.leb_spec v 100), (decide (1 <= v <= 100)%Z);
    cbn; auto; lia.
Qed.

Lemma int_query_offset_spec p :
  int_query 0 0 None p
  = match p with
    | IntAbsent => Some 0%Z
    | IntInvalid => None
    | IntValue v => if decide (0 <= v)%Z then Some v else None
    end.
Proof.
  destruct p as [| |v]; try reflexivity. unfold int_query.
  destruct (Z.leb_spec 0 v), (decide (0 <= v)%Z); cbn; auto; lia.
Qed.

(** C7: an omitted [limit] is 50; a [limit] outside 1..100 or a negative
    [offset] is answered 422 without any call to the store; [limit = 100]
    with any [offset >= 0] passes the check and reaches the store, and the
    answer is 200 with the page and the total when the store returns: the
    offset fits an SQLite integer and the queries run. *)
Theorem list_messages_bounds (f s q : option str) (db : table) :
  (forall off,
      list_messages {| q_limit := IntAbsent; q_offset := off; q_from := f;
                       q_since := s; q_q := q |} db
      = list_messages {| q_limit := IntValue 50; q_offset := off; q_from := f;
                         q_since := s; q_q := q |} db)
  /\ (forall lim off,
        (exists l, lim = IntValue l /\ (l < 1 \/ 100 < l)%Z)
        \/ (exists o, off = IntValue o /\ (o < 0)%Z) ->
        let out := list_messages {| q_limit := lim; q_offset := off; q_from := f;
                                    q_since := s; q_q := q |} db in
        status_code (response out) = 422%Z /\ calls out = [] /\ db_after out = db)
  /\ (forall off, (0 <= off)%Z ->
        let out := list_messages {| q_limit := IntValue 100; q_offset := IntValue off;
                                    q_from := f; q_since := s; q_q := q |} db in
        status_code (response out) <> 422%Z
        /\ calls out = [GetMessages]
        /\ ((off < 2 ^ 63)%Z -> query_error f s q db = None ->
            response out
            = {| status_code := 200;
                 content :=
                   MessagesContent
                     (List.map dict_of_row
                        (Sql.limit_offset 100 off (order_by_ts_id (matching f s q db))))
                     (Z.of_nat (length (matching f s q db))) 100 off |})).
Proof.
  split; [|split].
  - intros off. reflexivity.
  - intros lim off H out. subst out. unfold list_messages. cbn [q_limit q_offset].
    rewrite int_query_limit_spec, int_query_offset_spec.
    destruct H as [(l & -> & Hl) | (o & -> & Ho)].
    + rewrite decide_False by lia. auto.
    + rewrite (decide_False (P := (0 <= o)%Z)) by lia.
      destruct lim as [| |l]; [| |destruct (decide _)]; auto.
  - intros off Hoff out. subst out. unfold list_messages.
    cbn [q_limit q_offset q_from q_since q_q].
    rewrite int_query_limit_spec, int_query_offset_spec.
    rewrite decide_True by lia. rewrite decide_True by lia.
    destruct (get_messages 100 off f s q db) as [[messages total]|e] eqn:E; cbn.
    + split; [discriminate|]. split; [reflexivity|]. intros Hlt Hq.
      rewrite get_messages_ok in E by (try exact Hq; unfold int64; lia).
      injection E as <- <-. reflexivity.
    + split; [discriminate|]. split; [reflexivity|]. intros Hlt Hq.
      rewrite get_messages_ok in E by (try exact Hq; unfold int64; lia).
      discriminate.
Qed.

Lemma list_messages_bounds_witness :
  status_code (response (list_messages
    {| q_limit := IntValue 150; q_offset := IntAbsent; q_from := None;
       q_since := None; q_q := None |} sample_db)) = 422%Z
  /\ status_code (response (list_messages
       {| q_limit := IntValue 0; q_offset := IntAbsent; q_from := None;
          q_since := None; q_q := None |} sample_db)) = 422%Z
  /\ status_code (response (list_messages
       {| q_limit := IntValue 100; q_offset := IntValue 0; q_from := None;
          q_since := None; q_q := None |} sample_db)) = 200%Z.
Proof.
  destruct (list_messages_bounds None None None sample_db) as (_ & Hbad & Hgood).
  split; [|split].
  - apply (Hbad (IntValue 150) IntAbsent). left. exists 150%Z. split; [reflexivity | lia].
  - apply (Hbad (IntValue 0) IntAbsent). left. exists 0%Z. split; [reflexivity | lia].
  - destruct (Hgood 0%Z ltac:(lia)) as (_ & _ & H).
    rewrite H by (try lia; reflexivity). reflexivity.
Defined.

(** The default limit shows in the answer. *)
Example list_messages_default_limit :
  exists data total,
    response (list_messages {| q_limit := IntAbsent; q_offset := IntAbsent;
                               q_from := None; q_since := None; q_q := None |}
                            sample_db)
    = {| status_code := 200; content := MessagesContent data total 50 0 |}.
Proof. eexists _, _. vm_compute. reflexivity. Qed.

(** An offset too large for SQLite passes the check and fails in the
    store. *)
Example list_messages_offset_overflow :
  response (list_messages {| q_limit := IntValue 100; q_offset := IntValue (2 ^ 63);
                             q_from := None; q_since := None; q_q := None |}
                          sample_db)
  = internal_server_error.
Proof. vm_compute. reflexivity. Qed.

(** So does a text query of 49999 octets when the table holds a
    message. *)
Example list_messages_long_query :
  response (list_messages {| q_limit := IntValue 100; q_offset := IntValue 0;
                             q_from := None; q_since := None;
                             q_q := Some (repeat 97 (N.to_nat 49999)) |}
                          sample_db)
  = internal_server_error.
Proof. vm_compute. reflexivity. Qed.

(** ** The store: statistics *)

Lemma min_fold col : forall x,
  let m := fold_left (fun m y => if Sql.str_leb y m then y else m) col x in
  m ∈ x :: col /\ forall y, y ∈ x :: col -> str_le m y.
Proof.
  induction col as [|c col IH]; intros x; cbn.
  - split; [left|]. intros y ->%list_elem_of_singleton. apply str_le_refl.
  - destruct (Sql.str_leb c x) eqn:E.
    + destruct (IH c) as [Hin Hle]. split.
      * right. exact Hin.
      * intros y [->|Hy]%elem_of_cons; [|auto].
        eapply str_le_trans; [apply Hle; left | exact E].
    + destruct (IH x) as [Hin Hle]. split.
      * apply elem_of_cons in Hin as [->|Hin]; [left | right; right; exact Hin].
      * intros y [->|[->|Hy]%elem_of_cons]%elem_of_cons.
        -- apply Hle. left.
        -- eapply str_le_trans; [apply Hle; left | apply str_leb_total, E].
        -- apply Hle. right. exact Hy.
Qed.

Lemma max_fold col : forall x,
  let m := fold_left (fun m y => if Sql.str_leb m y then y else m) col x in
  m ∈ x :: col /\ forall y, y ∈ x :: col -> str_le y m.
Proof.
  induction col as [|c col IH]; intros x; cbn.
  - split; [left|]. intros y ->%list_elem_of_singleton. apply str_le_refl.
  - destruct (Sql.str_leb x c) eqn:E.
    + destruct (IH c) as [Hin Hle]. split.
      * right. exact Hin.
      * intros y [->|Hy]%elem_of_cons; [|auto].
        eapply str_le_trans; [exact E | apply Hle; left].
    + destruct (IH x) as [Hin Hle]. split.
      * apply elem_of_cons in Hin as [->|Hin]; [left | right; right; exact Hin].
      * intros y [->|[->|Hy]%elem_of_cons]%elem_of_cons.
        -- apply Hle. left.
        -- eapply str_le_trans; [apply str_leb_total, E | apply Hle; left].
        -- apply Hle. right. exact Hy.
Qed.

Lemma min_text_spec col :
  match Sql.min_text col with
  | None => col = []
  | Some m => m ∈ col /\ forall y, y ∈ col -> str_le m y
  end.
Proof. destruct col as [|x col]; [reflexivity|]. apply min_fold. Qed.

Lemma max_text_spec col :
  match Sql.max_text col with
  | None => col = []
  | Some m => m ∈ col /\ forall y, y ∈ col -> str_le y m
  end.
Proof. destruct col as [|x col]; [reflexivity|]. apply max_fold. Qed.

Lemma sum_counts_perm l1 l2 : l1 ≡ₚ l2 -> sum_counts l1 = sum_counts l2.
Proof.
  unfold sum_counts.
  induction 1; cbn [fold_right]; [reflexivity | lia | lia | congruence].
Qed.

Lemma sum_counts_nonneg l :
  Forall (fun e => (0 <= e.2)%Z) l -> (0 <= sum_counts l)%Z.
Proof. unfold sum_counts. induction 1; cbn [fold_right]; lia. Qed.

Lemma sum_counts_take n l :
  Forall (fun e => (0 <= e.2)%Z) l -> (sum_counts (take n l) <= sum_counts l)%Z.
Proof.
  intros H. revert n. induction H as [|e l He Hl IH]; intros n.
  - destruct n; cbn; lia.
  - pose proof (sum_counts_nonneg l Hl). destruct n as [|n].
    + cbn [take]. unfold sum_counts in *. cbn [fold_right]. lia.
    + specialize (IH n). cbn [take]. unfold sum_counts in *. cbn [fold_right]. lia.
Qed.

Lemma count_from_cons r db s :
  count_from (r :: db) s
  = ((if bool_decide (from_msisdn r = s) then 1 else 0) + count_from db s)%Z.
Proof.
  unfold count_from. cbn [List.filter].
  destruct (bool_decide (from_msisdn r = s)); cbn [length]; lia.
Qed.

Lemma count_from_one r s :
  count_from [r] s = if bool_decide (from_msisdn r = s) then 1%Z else 0%Z.
Proof.
  rewrite count_from_cons. change (count_from [] s) with 0%Z.
  destruct (bool_decide _); lia.
Qed.

Lemma sum_tally_step db s senders :
  sum_counts (tally db (s :: senders))
  = (count_from db s + sum_counts (tally db senders))%Z.
Proof. reflexivity. Qed.

Lemma sum_tally_cons r db senders :
  sum_counts (tally (r :: db) senders)
  = (sum_counts (tally [r] senders) + sum_counts (tally db senders))%Z.
Proof.
  induction senders as [|s senders IH]; [reflexivity|].
  rewrite !sum_tally_step, IH, !count_from_cons.
  change (count_from [] s) with 0%Z. lia.
Qed.

Lemma sum_tally_absent r senders :
  from_msisdn r ∉ senders -> sum_counts (tally [r] senders) = 0%Z.
Proof.
  induction senders as [|s senders IH]; [reflexivity|].
  intros [Hne Hni]%not_elem_of_cons.
  rewrite sum_tally_step, IH, count_from_one by exact Hni.
  rewrite bool_decide_eq_false_2 by exact Hne. reflexivity.
Qed.

Lemma sum_tally_one r senders :
  NoDup senders -> from_msisdn r ∈ senders -> sum_counts (tally [r] senders) = 1%Z.
Proof.
  induction 1 as [|s senders Hni Hnd IH]; [intros []%elem_of_nil|].
  rewrite sum_tally_step, count_from_one.
  intros [Heq|Hin]%elem_of_cons.
  - rewrite bool_decide_eq_true_2 by exact Heq. subst s.
    rewrite sum_tally_absent by exact Hni. reflexivity.
  - rewrite bool_decide_eq_false_2.
    + rewrite IH by exact Hin. reflexivity.
    + intros E. rewrite E in Hin. contradiction.
Qed.

(** Every row is counted once, under its own sender. *)
Lemma sum_tally db : forall senders,
  NoDup senders -> (forall r, r ∈ db -> from_msisdn r ∈ senders) ->
  sum_counts (tally db senders) = Z.of_nat (length db).
Proof.
  induction db as [|r db IH]; intros senders Hnd Hcov.
  - clear. induction senders; cbn in *; auto.
  - rewrite sum_tally_cons, sum_tally_one, IH; auto.
    + cbn [length]. lia.
    + intros r' Hr'. apply Hcov. right. exact Hr'.
    + apply Hcov. left.
Qed.

Lemma count_from_pos db s : s ∈ List.map from_msisdn db -> (0 < count_from db s)%Z.
Proof.
  induction db as [|r db IH]; [intros []%elem_of_nil|].
  cbn [List.map]. rewrite count_from_cons. intros [->|Hin]%elem_of_cons.
  - rewrite bool_decide_eq_true_2 by reflexivity. unfold count_from. lia.
  - specialize (IH Hin). destruct (bool_decide _); lia.
Qed.

Lemma group_by_from_sum db : sum_counts (group_by_from db) = Z.of_nat (length db).
Proof.
  unfold group_by_from.
  fold (tally db (merge_sort sender_le (remove_dups (List.map from_msisdn db)))).
  apply sum_tally.
  - rewrite merge_sort_Permutation. apply NoDup_remove_dups.
  - intros r Hr. rewrite merge_sort_Permutation. apply elem_of_remove_dups.
    apply list_elem_of_In, in_map, list_elem_of_In, Hr.
Qed.

Lemma group_by_from_entries db e :
  e ∈ group_by_from db ->
  e.1 ∈ List.map from_msisdn db /\ e.2 = count_from db e.1 /\ (0 < e.2)%Z.
Proof.
  unfold group_by_from. intros H.
  apply list_elem_of_In, in_map_iff in H as (s & <- & Hs).
  apply list_elem_of_In in Hs. rewrite merge_sort_Permutation in Hs.
  rewrite elem_of_remove_dups in Hs. cbn. split; [exact Hs|]. split; [reflexivity|].
  apply count_from_pos, Hs.
Qed.

(** C8: [get_stats] on any stored message set.  [total_messages] is the
    number of messages; [senders_count] is the number of distinct [from]
    values; [messages_per_sender] has at most 10 entries, each a sender
    with the number of its messages, in descending order of count, and the
    counts sum to at most [total_messages]; [first_message_ts] and
    [last_message_ts] are both null exactly when there is no message, and
    otherwise are the least and the greatest [ts], the first not after the
    last. *)
Theorem get_stats_correct (db : table) :
  let st := get_stats db in
  total_messages st = Z.of_nat (length db)
  /\ (exists senders : list str,
        NoDup senders
        /\ (forall s, s ∈ senders <-> exists r, r ∈ db /\ from_msisdn r = s)
        /\ senders_count st = Z.of_nat (length senders))
  /\ (length (messages_per_sender st) <= 10)%nat
  /\ (forall e, e ∈ messages_per_sender st ->
        e.2 = count_from db e.1 /\ (0 < e.2)%Z)
  /\ Sorted (fun a b => (b.2 <= a.2)%Z) (messages_per_sender st)
  /\ (sum_counts (messages_per_sender st) <= total_messages st)%Z
  /\ (first_message_ts st = None <-> db = [])
  /\ (last_message_ts st = None <-> db = [])
  /\ (db <> [] ->
      exists lo hi,
        first_message_ts st = Some lo /\ last_message_ts st = Some hi
        /\ (exists r, r ∈ db /\ r_ts r = lo)
        /\ (forall r, r ∈ db -> str_le lo (r_ts r))
        /\ (exists r, r ∈ db /\ r_ts r = hi)
        /\ (forall r, r ∈ db -> str_le (r_ts r) hi)
        /\ str_le lo hi).
Proof.
  cbn zeta. unfold get_stats.
  cbn [total_messages senders_count messages_per_sender
       first_message_ts last_message_ts].
  pose proof (min_text_spec (List.map r_ts db)) as Hmin.
  pose proof (max_text_spec (List.map r_ts db)) as Hmax.
  assert (Hts : forall x, x ∈ List.map r_ts db -> exists r, r ∈ db /\ r_ts r = x).
  { intros x (r & <- & Hr)%list_elem_of_In%in_map_iff. exists r.
    split; [apply list_elem_of_In, Hr | reflexivity]. }
  assert (Hts' : forall r, r ∈ db -> r_ts r ∈ List.map r_ts db).
  { intros r Hr. apply list_elem_of_In, in_map, list_elem_of_In, Hr. }
  assert (Hentries : forall e, e ∈ take 10 (merge_sort count_ge (group_by_from db)) ->
                               e.2 = count_from db e.1 /\ (0 < e.2)%Z).
  { intros e He. apply (subseteq_take 10) in He.
    rewrite merge_sort_Permutation in He.
    apply group_by_from_entries in He. tauto. }
  split; [reflexivity|]. split.
  { exists (remove_dups (List.map from_msisdn db)). split; [apply NoDup_remove_dups|].
    split; [|reflexivity]. intros s.
    rewrite elem_of_remove_dups, list_elem_of_In, in_map_iff.
    split; intros (r & H1 & H2); exists r.
    - split; [apply list_elem_of_In, H2 | exact H1].
    - split; [exact H2 | apply list_elem_of_In, H1]. }
  split; [rewrite length_take; lia|].
  split; [exact Hentries|].
  split; [apply Sorted_take, (Sorted_merge_sort count_ge)|].
  split.
  { etransitivity; [apply sum_counts_take|].
    - apply Forall_forall. intros e He. rewrite merge_sort_Permutation in He.
      apply group_by_from_entries in He. lia.
    - rewrite (sum_counts_perm _ _ (merge_sort_Permutation count_ge _)),
        group_by_from_sum. lia. }
  split.
  { destruct (Sql.min_text _); split; try done.
    - intros ->. destruct Hmin as [[]%elem_of_nil _].
    - intros _. destruct db; [reflexivity | discriminate]. }
  split.
  { destruct (Sql.max_text _); split; try done.
    - intros ->. destruct Hmax as [[]%elem_of_nil _].
    - intros _. destruct db; [reflexivity | discriminate]. }
  intros Hne.
  destruct (Sql.min_text _) as [lo|]; [|destruct db; [congruence | discriminate]].
  destruct (Sql.max_text _) as [hi|]; [|destruct db; [congruence | discriminate]].
  destruct Hmin as [Hlo Hlo'], Hmax as [Hhi Hhi'].
  exists lo, hi. repeat split; auto.
Qed.

Lemma get_stats_correct_witness :
  sample_db <> []
  /\ exists lo hi,
       first_message_ts (get_stats sample_db) = Some lo
       /\ last_message_ts (get_stats sample_db) = Some hi
       /\ str_le lo hi.
Proof.
  split; [discriminate|].
  destruct (get_stats_correct sample_db) as (_ & _ & _ & _ & _ & _ & _ & _ & H).
  destruct (H ltac:(discriminate)) as (lo & hi & H1 & H2 & _ & _ & _ & _ & H3).
  exists lo, hi. auto.
Defined.

Example get_stats_sample :
  get_stats sample_db
  = {| total_messages := 3;
       senders_count := 2;
       messages_per_sender := [(py "+919876543210", 2%Z); (py "+911234567890", 1%Z)];
       first_message_ts := Some (py "2025-01-15T09:00:00Z");
       last_message_ts := Some (py "2025-01-15T11:00:00Z") |}.
Proof. vm_compute. reflexivity. Qed.

Example get_stats_empty :
  get_stats []
  = {| total_messages := 0; senders_count := 0; messages_per_sender := [];
       first_message_ts := None; last_message_ts := None |}.
Proof. reflexivity. Qed.

(** The statistics endpoint answers 200 with them and leaves the store
    alone. *)
Lemma get_message_stats_reads db :
  response (get_message_stats db)
  = {| status_code := 200; content := StatsContent (get_stats db) |}
  /\ db_after (get_message_stats db) = db.
Proof. split; reflexivity. Qed.

(** ** The signature verifier: every outcome *)

(** With a secret that encodes, the verifier returns [True] for one
    signature only, the lowercase hexadecimal HMAC-SHA256 of the body under
    the secret. *)
Theorem verify_signature_accepts_iff settings key body signature :
  secret_key settings = Ok key ->
  verify_signature settings body signature = Ok true
  <-> signature = HMAC.hexdigest key body.
Proof.
  intros Hk. split.
  - destruct (is_ascii signature) eqn:Ha.
    + rewrite (verify_signature_ascii _ key) by assumption.
      intros [= H]. apply bool_decide_eq_true in H. congruence.
    + rewrite (verify_signature_non_ascii _ key) by assumption. discriminate.
  - intros ->. apply verify_signature_match, Hk.
Qed.

Lemma verify_signature_accepts_iff_witness :
  verify_signature test_settings body_m1 (py "invalid_signature_12345") = Ok true
  <-> py "invalid_signature_12345" = HMAC.hexdigest (py "testsecret") body_m1.
Proof.
  apply (verify_signature_accepts_iff test_settings (py "testsecret")).
  reflexivity.
Defined.

Lemma hex_digit_lower d : d < 16 -> lower_hex (HMAC.hex_digit d) = true.
Proof.
  intros H. unfold HMAC.hex_digit, lower_hex.
  destruct (N.ltb_spec d 10).
  - apply orb_true_iff. left. apply andb_true_iff. split; apply N.leb_le; lia.
  - apply orb_true_iff. right. apply andb_true_iff. split; apply N.leb_le; lia.
Qed.

Lemma hex_lower bs : forallb lower_hex (HMAC.hex bs) = true.
Proof.
  unfold HMAC.hex. induction bs as [|b bs IH]; [reflexivity|].
  cbn [flat_map app forallb]. rewrite IH, !andb_true_r.
  apply andb_true_intro; split; apply hex_digit_lower; apply N.mod_lt; lia.
Qed.

(** A signature that is not made of 64 lowercase hexadecimal digits is
    never accepted: the digest is written in lowercase and compared as
    text, so the same digest in uppercase is refused. *)
Theorem verify_signature_rejects_malformed settings key body signature :
  secret_key settings = Ok key ->
  length signature <> 64%nat \/ forallb lower_hex signature = false ->
  verify_signature settings body signature <> Ok true.
Proof.
  intros Hk Hbad Hv.
  destruct (is_ascii signature) eqn:Ha.
  - rewrite (verify_signature_ascii _ key) in Hv by assumption.
    injection Hv as Hv. apply bool_decide_eq_true in Hv. subst signature.
    destruct Hbad as [Hlen|Hhex].
    + apply Hlen, hexdigest_length.
    + unfold HMAC.hexdigest in Hhex. rewrite hex_lower in Hhex. discriminate.
  - rewrite (verify_signature_non_ascii _ key) in Hv by assumption. discriminate.
Qed.

Lemma verify_signature_rejects_malformed_witness :
  verify_signature test_settings body_m1
    (py "FF1016E524BC9299D18988ECF27A880AF9428140E3850AF0C73EA1EEF091A4CB")
  <> Ok true.
Proof.
  apply (verify_signature_rejects_malformed test_settings (py "testsecret")).
  - reflexivity.
  - right. vm_compute. reflexivity.
Defined.

(** Every outcome of the verifier.  It returns exactly on ASCII
    signatures, with the result of the comparison; it raises
    [AttributeError] when no secret is set, [UnicodeEncodeError] when the
    secret holds a character that UTF-8 cannot encode, and [TypeError] on a
    signature with a character outside ASCII. *)
Theorem verify_signature_outcomes settings body signature :
  match verify_signature settings body signature with
  | Ok b =>
      is_ascii signature = true
      /\ exists key, secret_key settings = Ok key
                     /\ b = bool_decide (HMAC.hexdigest key body = signature)
  | Raise e =>
      (e = AttributeError /\ WEBHOOK_SECRET settings = None)
      \/ (e = UnicodeEncodeError
          /\ exists secret c, WEBHOOK_SECRET settings = Some secret
                              /\ c ∈ secret /\ utf8_encode_char c = None)
      \/ (e = TypeError /\ is_ascii signature = false
          /\ exists key, secret_key settings = Ok key)
  end.
Proof.
  destruct (secret_key settings) as [key|e] eqn:Hk.
  - destruct (is_ascii signature) eqn:Ha.
    + rewrite (verify_signature_ascii _ key) by assumption. eauto.
    + rewrite (verify_signature_non_ascii _ key) by assumption. right. right. eauto.
  - unfold verify_signature. rewrite Hk. cbn [rbind].
    unfold secret_key in Hk. destruct (WEBHOOK_SECRET settings) as [secret|] eqn:Hs.
    + right. left. pose proof (str_encode_raises _ _ Hk) as ->. split; [reflexivity|].
      exists secret.
      assert (~ Forall (fun c => is_Some (utf8_encode_char c)) secret) as Hn.
      { intros [k Hk']%str_encode_ok_iff. congruence. }
      apply not_Forall_Exists in Hn; [|intros c; apply _].
      apply Exists_exists in Hn as (c & Hc & Hn). exists c. split; [reflexivity|].
      split; [exact Hc|]. cbn in Hn. destruct (utf8_encode_char c); [|reflexivity].
      exfalso. apply Hn. eauto.
    + left. injection Hk as <-. auto.
Qed.

(** The start-up check of [config.py] and what it buys.  When the
    secret is set and not empty, the verifier never fails for want of a
    secret, and the readiness probe never reports the secret missing: it
    answers [ready] whenever the database answers. *)
Theorem startup_check_covers_secret settings :
  secret_configured settings = true ->
  (forall body signature,
      verify_signature settings body signature <> Raise AttributeError)
  /\ (forall db,
        response (readiness settings db)
        <> http_exception 503 (DetailText (py "WEBHOOK_SECRET not set")))
  /\ (forall db,
        check_db_ready db = true ->
        response (readiness settings db)
        = {| status_code := 200; content := StatusContent (py "ready") |}).
Proof.
  intros Hc. split; [|split].
  - intros body signature.
    destruct (secret_key settings) as [key|e] eqn:Hk.
    + destruct (is_ascii signature) eqn:Ha.
      * rewrite (verify_signature_ascii _ key) by assumption. discriminate.
      * rewrite (verify_signature_non_ascii _ key) by assumption. discriminate.
    + unfold verify_signature. rewrite Hk. cbn [rbind].
      unfold secret_key, secret_configured in *.
      destruct (WEBHOOK_SECRET settings) as [secret|]; [|discriminate].
      pose proof (str_encode_raises _ _ Hk) as ->. discriminate.
  - intros db. unfold readiness. rewrite Hc. cbn [negb].
    destruct (negb (check_db_ready db)); cbn; intros [= H]; revert H;
      vm_compute; discriminate.
  - intros db Hdb. unfold readiness. rewrite Hc, Hdb. reflexivity.
Qed.

Lemma startup_check_covers_secret_witness :
  response (readiness test_settings sample_db)
  = {| status_code := 200; content := StatusContent (py "ready") |}.
Proof.
  destruct (startup_check_covers_secret test_settings) as (_ & _ & H).
  - reflexivity.
  - apply H. reflexivity.
Defined.

(** ** The message validator: every outcome *)

(** [validate_e164] returns its argument or raises [ValueError], and
    it returns exactly on a [+] followed by one or more decimal digits and,
    possibly, one final newline. *)
Theorem validate_e164_outcomes v :
  (validate_e164 v = Ok v
   /\ exists ds, ds <> [] /\ Forall (fun c => Re.is_decimal c = true) ds
                 /\ (v = 43 :: ds \/ v = 43 :: ds ++ [10]))
  \/ (validate_e164 v = Raise ValueError
      /\ ~ exists ds, ds <> [] /\ Forall (fun c => Re.is_decimal c = true) ds
                      /\ (v = 43 :: ds \/ v = 43 :: ds ++ [10])).
Proof.
  assert (Hiff : Re.match_ e164_pattern v = true <->
                 exists ds, ds <> [] /\ Forall (fun c => Re.is_decimal c = true) ds
                            /\ (v = 43 :: ds \/ v = 43 :: ds ++ [10])).
  { rewrite e164_pattern_accepts.
    split; intros (ds & H1 & H2 & H3); exists ds;
      (split; [exact H1|]); (split; [|exact H3]).
    - apply Forall_forall. intros c Hc. eapply forallb_forall in H2; [exact H2|].
      apply list_elem_of_In, Hc.
    - apply forallb_forall. intros c Hc. rewrite Forall_forall in H2.
      apply H2, list_elem_of_In, Hc. }
  unfold validate_e164. destruct (Re.match_ e164_pattern v) eqn:E; cbn [negb].
  - left. split; [reflexivity|]. apply Hiff. reflexivity.
  - right. split; [reflexivity|]. intros H. apply Hiff in H. discriminate.
Qed.

(** *** Timestamps in the usual format *)

Lemma digit_char_digit c : digit_char c -> PyDatetime.digit c = Some (c - 48).
Proof.
  intros [H1 H2]. unfold PyDatetime.digit.
  apply N.leb_le in H1, H2. rewrite H1, H2. reflexivity.
Qed.

Lemma digit_char_ne c k : digit_char c -> k < 48 \/ 57 < k -> (c =? k) = false.
Proof. intros [H1 H2] Hk. apply N.eqb_neq. lia. Qed.

Lemma two_digits_value c1 c2 :
  digit_char c1 -> digit_char c2 ->
  PyDatetime.digits 0 [c1; c2] = Some (10 * (c1 - 48) + (c2 - 48)).
Proof.
  intros H1 H2. cbn [PyDatetime.digits].
  rewrite (digit_char_digit _ H1), (digit_char_digit _ H2). f_equal; lia.
Qed.

Lemma four_digits_value c1 c2 c3 c4 :
  digit_char c1 -> digit_char c2 -> digit_char c3 -> digit_char c4 ->
  PyDatetime.digits 0 [c1; c2; c3; c4]
  = Some (1000 * (c1 - 48) + 100 * (c2 - 48) + 10 * (c3 - 48) + (c4 - 48)).
Proof.
  intros H1 H2 H3 H4. cbn [PyDatetime.digits].
  rewrite (digit_char_digit _ H1), (digit_char_digit _ H2),
    (digit_char_digit _ H3), (digit_char_digit _ H4). f_equal; lia.
Qed.

(** The parser reads a timestamp [YYYY-MM-DDTHH:MM:SSZ] whose [Z] has been
    replaced, when its fields are in range. *)
Lemma fromisoformat_utc_chars y1 y2 y3 y4 m1 m2 d1 d2 h1 h2 i1 i2 s1 s2 :
  let y := 1000 * (y1 - 48) + 100 * (y2 - 48) + 10 * (y3 - 48) + (y4 - 48) in
  let mo := 10 * (m1 - 48) + (m2 - 48) in
  let d := 10 * (d1 - 48) + (d2 - 48) in
  let h := 10 * (h1 - 48) + (h2 - 48) in
  let mi := 10 * (i1 - 48) + (i2 - 48) in
  let s := 10 * (s1 - 48) + (s2 - 48) in
  Forall digit_char [y1; y2; y3; y4; m1; m2; d1; d2; h1; h2; i1; i2; s1; s2] ->
  1 <= y -> 1 <= mo <= 12 -> 1 <= d <= PyDatetime.days_in_month y mo ->
  h < 24 -> mi < 60 -> s < 60 ->
  PyDatetime.fromisoformat
    (replace_Z [y1; y2; y3; y4; 45; m1; m2; 45; d1; d2; 84;
                h1; h2; 58; i1; i2; 58; s1; s2; 90])
  = Some {| PyDatetime.year := y; PyDatetime.month := mo; PyDatetime.day := d;
            PyDatetime.hour := h; PyDatetime.minute := mi; PyDatetime.second := s;
            PyDatetime.microsecond := 0; PyDatetime.utcoffset := Some 0%Z |}.
Proof.
  intros y mo d h mi s Hc Hy Hmo Hd Hh Hmi Hs.
  repeat (apply Forall_cons in Hc as [? Hc]).
  assert (N90 : forall c, digit_char c -> (c =? 90) = false)
    by (intros c Hx; apply digit_char_ne; [exact Hx | lia]).
  assert (N43 : forall c, digit_char c -> (c =? 43) = false)
    by (intros c Hx; apply digit_char_ne; [exact Hx | lia]).
  assert (N45 : forall c, digit_char c -> (c =? 45) = false)
    by (intros c Hx; apply digit_char_ne; [exact Hx | lia]).
  unfold replace_Z. cbn [flat_map].
  repeat match goal with Hx : digit_char ?c |- _ => rewrite (N90 c Hx) end.
  cbn [N.eqb Pos.eqb app].
  change (py "+00:00") with [43; 48; 48; 58; 48; 48].
  unfold PyDatetime.fromisoformat. cbn [take drop firstn skipn].
  unfold PyDatetime.parse_date.
  rewrite four_digits_value, !two_digits_value by assumption.
  fold y mo d.
  assert ((1 <=? y) && (1 <=? mo) && (mo <=? 12) && (1 <=? d)
          && (d <=? PyDatetime.days_in_month y mo) = true) as ->.
  { rewrite !andb_true_iff, !N.leb_le. lia. }
  assert (Hsplit : PyDatetime.split_tz
                     [h1; h2; 58; i1; i2; 58; s1; s2; 43; 48; 48; 58; 48; 48]
                   = ([h1; h2; 58; i1; i2; 58; s1; s2],
                      Some (false, [48; 48; 58; 48; 48]))).
  { cbn [PyDatetime.split_tz].
    repeat match goal with Hx : digit_char ?c |- _ => rewrite (N43 c Hx) end.
    repeat match goal with Hx : digit_char ?c |- _ => rewrite (N45 c Hx) end.
    reflexivity. }
  unfold PyDatetime.parse_time. cbn [app]. rewrite Hsplit.
  unfold PyDatetime.parse_hh_mm_ss_ff.
  rewrite !two_digits_value by assumption. fold h mi s.
  assert ((h <? 24) && (mi <? 60) && (s <? 60) = true) as ->.
  { rewrite !andb_true_iff, !N.ltb_lt. lia. }
  reflexivity.
Qed.

Lemma two_digits_chars n :
  n < 100 ->
  digit_char (48 + n / 10) /\ digit_char (48 + n mod 10)
  /\ 10 * (48 + n / 10 - 48) + (48 + n mod 10 - 48) = n.
Proof.
  intros H. unfold digit_char.
  zify. Z.to_euclidean_division_equations. lia.
Qed.

Lemma four_digits_chars n :
  n < 10000 ->
  digit_char (48 + n / 1000) /\ digit_char (48 + (n / 100) mod 10)
  /\ digit_char (48 + (n / 10) mod 10) /\ digit_char (48 + n mod 10)
  /\ 1000 * (48 + n / 1000 - 48) + 100 * (48 + (n / 100) mod 10 - 48)
     + 10 * (48 + (n / 10) mod 10 - 48) + (48 + n mod 10 - 48) = n.
Proof.
  intros H. unfold digit_char.
  zify. Z.to_euclidean_division_equations. lia.
Qed.

(** The timestamp validator accepts every timestamp of the form
    [YYYY-MM-DDTHH:MM:SSZ] that names a date of the calendar and a time of
    day, and returns it unchanged. *)
Theorem validate_iso8601_accepts_utc y mo d h mi s :
  1 <= y <= 9999 -> 1 <= mo <= 12 -> 1 <= d <= PyDatetime.days_in_month y mo ->
  h < 24 -> mi < 60 -> s < 60 ->
  validate_iso8601 PyDatetime.fromisoformat (utc_timestamp y mo d h mi s)
  = Ok (utc_timestamp y mo d h mi s).
Proof.
  intros Hy Hmo Hd Hh Hmi Hs.
  assert (d < 100) as Hd100.
  { destruct Hd as [_ Hd]. unfold PyDatetime.days_in_month in Hd.
    repeat (destruct (_ : bool) in Hd); lia. }
  destruct (four_digits_chars y ltac:(lia)) as (Y1 & Y2 & Y3 & Y4 & Ey).
  destruct (two_digits_chars mo ltac:(lia)) as (M1 & M2 & Em).
  destruct (two_digits_chars d Hd100) as (D1 & D2 & Ed).
  destruct (two_digits_chars h ltac:(lia)) as (H1 & H2 & Eh).
  destruct (two_digits_chars mi ltac:(lia)) as (I1 & I2 & Ei).
  destruct (two_digits_chars s ltac:(lia)) as (S1 & S2 & Es).
  unfold utc_timestamp, four_digits, two_digits.
  change (py "-") with [45]. change (py "T") with [84].
  change (py ":") with [58]. change (py "Z") with [90]. cbn [app].
  unfold validate_iso8601.
  rewrite fromisoformat_utc_chars.
  - reflexivity.
  - repeat (apply Forall_cons; split; [assumption|]). apply Forall_nil_2.
  - rewrite Ey. lia.
  - rewrite Em. lia.
  - rewrite Ey, Em, Ed. lia.
  - rewrite Eh. lia.
  - rewrite Ei. lia.
  - rewrite Es. lia.
Qed.

Lemma validate_iso8601_accepts_utc_witness :
  validate_iso8601 PyDatetime.fromisoformat (utc_timestamp 2025 1 15 10 0 0)
  = Ok (py "2025-01-15T10:00:00Z").
Proof.
  apply (validate_iso8601_accepts_utc 2025 1 15 10 0 0);
    vm_compute; intuition discriminate.
Defined.

(** *** The payload *)

(** Validation reads the five aliases and nothing else: a key that is
    none of them changes neither the verdict nor the message. *)
Theorem model_validate_ignores_other_keys
    (fromisoformat : str -> option PyDatetime.datetime)
    (fields : gmap str json) (k : str) (v : json) :
  k ∉ field_names ->
  model_validate fromisoformat (JObject (<[k := v]> fields))
  = model_validate fromisoformat (JObject fields).
Proof.
  intros Hk. unfold field_names in Hk. rewrite !not_elem_of_cons in Hk.
  destruct Hk as (H1 & H2 & H3 & H4 & H5 & _).
  unfold model_validate. rewrite !lookup_insert_ne by congruence. reflexivity.
Qed.

Lemma model_validate_ignores_other_keys_witness :
  model_validate PyDatetime.fromisoformat
    (JObject (<[py "from_" := JString (py "+919876543210")]>
             (<[py "message_id" := JString (py "m1")]> ∅)))
  = model_validate PyDatetime.fromisoformat
      (JObject (<[py "message_id" := JString (py "m1")]> ∅)).
Proof.
  apply (model_validate_ignores_other_keys PyDatetime.fromisoformat).
  unfold field_names. rewrite !not_elem_of_cons.
  repeat split; try (vm_compute; discriminate). apply not_elem_of_nil.
Defined.

(** What a validated body guarantees of the row it is stored as. *)
Lemma model_validate_json_valid json_loads fromisoformat body msg now :
  model_validate_json json_loads fromisoformat body = Ok msg ->
  valid_row fromisoformat (row_of_message msg (now ++ py "Z")).
Proof.
  unfold model_validate_json. destruct (json_loads body) as [doc|]; [|discriminate].
  intros (fields & _ & H1 & H2 & H3 & H4 & H5)%model_validate_ok.
  apply str_field_ok in H1 as (s1 & _ & L1 & [= E1]).
  apply str_field_ok in H2 as (s2 & _ & _ & [E2 M2]%validate_e164_inv).
  apply str_field_ok in H3 as (s3 & _ & _ & [E3 M3]%validate_e164_inv).
  apply str_field_ok in H4 as (s4 & _ & _ & (E4 & Z4 & P4)%validate_iso8601_inv).
  apply optional_str_field_ok in H5. subst s1 s2 s3 s4.
  unfold valid_row, row_of_message. cbn.
  repeat split; auto.
  - intros E. rewrite E in L1. cbn in L1. lia.
  - intros t Ht. rewrite Ht in H5. apply H5.
  - change (now ++ py "Z") with (now ++ [90]). apply endswith_Z_snoc.
Qed.

(** ** The store: pages *)

(** What [query_error] reports. *)
Lemma query_error_cases f s q db :
  match query_error f s q db with
  | None =>
      filters_encode f s q = true
      /\ ~ (pattern_too_long q = true
            /\ exists r, r ∈ db /\ row_selected (where_clauses f s None) r = true)
  | Some e =>
      (e = UnicodeEncodeError /\ filters_encode f s q = false)
      \/ (e = OperationalError /\ filters_encode f s q = true
          /\ pattern_too_long q = true
          /\ exists r, r ∈ db /\ row_selected (where_clauses f s None) r = true)
  end.
Proof.
  unfold query_error.
  assert (Hex : existsb (row_selected (where_clauses f s None)) db = true
                <-> exists r, r ∈ db /\ row_selected (where_clauses f s None) r = true).
  { rewrite existsb_exists. split; intros (r & H1 & H2); exists r;
      (split; [apply list_elem_of_In, H1 | exact H2]). }
  destruct (filters_encode f s q); cbn [negb]; [|left; auto].
  destruct (pattern_too_long q); cbn [andb].
  - destruct (existsb _ db).
    + right. repeat split. apply Hex. reflexivity.
    + split; [reflexivity|]. intros [_ H]. apply Hex in H. discriminate.
  - split; [reflexivity|]. intros [H _]. discriminate.
Qed.

(** Every way [get_messages] ends.  It raises [UnicodeEncodeError]
    exactly when a filter that is given and not empty cannot be encoded;
    otherwise [OperationalError] exactly when the text query is too long for
    a [LIKE] pattern and some row passes the other filters; otherwise
    [OverflowError] exactly when the limit or the offset does not fit an
    SQLite integer; and otherwise it returns a page and a total. *)
Theorem get_messages_raises_iff limit offset (f s q : option str) (db : table) :
  (get_messages limit offset f s q db = Raise UnicodeEncodeError
   <-> filters_encode f s q = false)
  /\ (get_messages limit offset f s q db = Raise OperationalError
      <-> filters_encode f s q = true /\ pattern_too_long q = true
          /\ exists r, r ∈ db /\ row_selected (where_clauses f s None) r = true)
  /\ (get_messages limit offset f s q db = Raise OverflowError
      <-> query_error f s q db = None /\ ~ (int64 limit /\ int64 offset))
  /\ ((exists page total, get_messages limit offset f s q db = Ok (page, total))
      <-> query_error f s q db = None /\ int64 limit /\ int64 offset).
Proof.
  rewrite get_messages_spec. pose proof (query_error_cases f s q db) as Hc.
  destruct (query_error f s q db) as [e|].
  - destruct Hc as [[-> He]|(-> & He & Hl & Hr)].
    + split; [tauto|]. split; [split; [discriminate | intros [H _]; congruence]|].
      split; [split; [discriminate | intros [H _]; discriminate]|].
      split; [intros (? & ? & ?); discriminate | intros [H _]; discriminate].
    + split; [split; [discriminate | congruence]|]. split; [tauto|].
      split; [split; [discriminate | intros [H _]; discriminate]|].
      split; [intros (? & ? & ?); discriminate | intros [H _]; discriminate].
  - destruct Hc as [He Hn].
    destruct (decide (int64 limit /\ int64 offset)) as [Hi|Hi].
    + split; [split; [discriminate | congruence]|].
      split; [split; [discriminate | tauto]|].
      split; [split; [discriminate | tauto]|].
      split; [tauto | eauto].
    + split; [split; [discriminate | congruence]|].
      split; [split; [discriminate | tauto]|].
      split; [tauto|].
      split; [intros (? & ? & ?); discriminate | tauto].
Qed.

Lemma length_limit_offset {A} limit offset (l : list A) :
  (0 <= limit)%Z -> (Z.of_nat (length (Sql.limit_offset limit offset l)) <= limit)%Z.
Proof.
  intros H. unfold Sql.limit_offset. destruct (Z.ltb_spec limit 0); [lia|].
  rewrite length_take. lia.
Qed.

Lemma length_limit_offset_le {A} limit offset (l : list A) :
  (length (Sql.limit_offset limit offset l) <= length l)%nat.
Proof.
  unfold Sql.limit_offset.
  destruct (limit <? 0)%Z; rewrite ?length_take, length_drop; lia.
Qed.

Lemma length_limit_offset_rest {A} limit offset (l : list A) :
  (length (Sql.limit_offset limit offset l) <= length l - Z.to_nat offset)%nat.
Proof.
  unfold Sql.limit_offset.
  destruct (limit <? 0)%Z; rewrite ?length_take, length_drop; lia.
Qed.

Lemma limit_offset_whole {A} limit (l : list A) :
  whole_page limit (length l) -> Sql.limit_offset limit 0 l = l.
Proof.
  intros [_ H]. unfold Sql.limit_offset. cbn [Z.to_nat]. rewrite drop_0.
  destruct (Z.ltb_spec limit 0); [reflexivity|].
  apply take_ge. lia.
Qed.

Lemma length_matching f s q db : (length (matching f s q db) <= length db)%nat.
Proof. unfold matching. apply List.filter_length_le. Qed.

Lemma length_order_by rows : length (order_by_ts_id rows) = length rows.
Proof. unfold order_by_ts_id. rewrite merge_sort_Permutation. reflexivity. Qed.

(** The size of a page: at most the total, which is at most the number of
    stored messages; at most the limit when there is one; at most what is
    left after the offset; and empty when the offset reaches the total. *)
Theorem get_messages_page_bounds limit offset (f s q : option str) (db : table)
    page total :
  get_messages limit offset f s q db = Ok (page, total) ->
  (Z.of_nat (length page) <= total <= Z.of_nat (length db))%Z
  /\ ((0 <= limit)%Z -> (Z.of_nat (length page) <= limit)%Z)
  /\ ((0 <= offset)%Z -> (Z.of_nat (length page) <= Z.max 0 (total - offset))%Z)
  /\ ((total <= offset)%Z -> page = []).
Proof.
  intros (Hl & Ho & -> & -> & _)%get_messages_Ok_inv.
  rewrite length_map.
  pose proof (length_limit_offset_le limit offset (order_by_ts_id (matching f s q db)))
    as H1.
  pose proof (length_limit_offset_rest limit offset
                (order_by_ts_id (matching f s q db))) as H3.
  rewrite length_order_by in H1, H3.
  pose proof (length_matching f s q db) as H2.
  split; [lia|]. split; [apply length_limit_offset|]. split.
  - intros H. lia.
  - intros H.
    destruct (Sql.limit_offset _ _ _) as [|x l]; [reflexivity|]. cbn in H3. lia.
Qed.

Lemma get_messages_page_bounds_witness :
  let page :=
    List.map dict_of_row
      (Sql.limit_offset 2 0 (order_by_ts_id (matching None None None sample_db))) in
  let total := Z.of_nat (length (matching None None None sample_db)) in
  (Z.of_nat (length page) <= total <= Z.of_nat (length sample_db))%Z
  /\ ((0 <= 2)%Z -> (Z.of_nat (length page) <= 2)%Z)
  /\ ((0 <= 0)%Z -> (Z.of_nat (length page) <= Z.max 0 (total - 0))%Z)
  /\ ((total <= 0)%Z -> page = []).
Proof.
  cbn zeta.
  apply (get_messages_page_bounds 2 0 None None None sample_db).
  apply get_messages_ok; [unfold int64; lia | unfold int64; lia | reflexivity].
Defined.

Lemma limit_offset_split {A} (a b o : Z) (l : list A) :
  (0 <= a)%Z -> (0 <= b)%Z -> (0 <= o)%Z ->
  Sql.limit_offset (a + b) o l
  = Sql.limit_offset a o l ++ Sql.limit_offset b (o + a) l.
Proof.
  intros Ha Hb Ho. unfold Sql.limit_offset.
  destruct (Z.ltb_spec (a + b) 0); [lia|].
  destruct (Z.ltb_spec a 0); [lia|]. destruct (Z.ltb_spec b 0); [lia|].
  rewrite !Z2Nat.inj_add by lia. rewrite <- drop_drop. symmetry. apply take_take_drop.
Qed.

(** Consecutive pages join into one page: the page of [a] messages at
    offset [o] followed by the page of [b] messages at offset [o + a] is the
    page of [a + b] messages at offset [o], and the totals agree.  No
    message is skipped or repeated when paging through an unchanged
    store. *)
Theorem get_messages_pages_compose (a b o : Z) (f s q : option str) (db : table)
    p1 p2 t1 t2 :
  (0 <= a)%Z -> (0 <= b)%Z -> (0 <= o)%Z ->
  get_messages a o f s q db = Ok (p1, t1) ->
  get_messages b (o + a) f s q db = Ok (p2, t2) ->
  int64 (a + b) ->
  get_messages (a + b) o f s q db = Ok (p1 ++ p2, t1) /\ t2 = t1.
Proof.
  intros Ha Hb Ho (_ & Hio & -> & -> & Hq)%get_messages_Ok_inv
    (_ & _ & -> & -> & _)%get_messages_Ok_inv Hab.
  split; [|reflexivity].
  rewrite get_messages_ok by assumption.
  rewrite limit_offset_split, map_app by assumption. reflexivity.
Qed.

Lemma get_messages_pages_compose_witness :
  exists p1 p2 t,
    get_messages 1 0 None None None sample_db = Ok (p1, t)
    /\ get_messages 2 1 None None None sample_db = Ok (p2, t)
    /\ get_messages 3 0 None None None sample_db = Ok (p1 ++ p2, t).
Proof.
  pose proof (get_messages_ok 1 0 None None None sample_db
                ltac:(unfold int64; lia) ltac:(unfold int64; lia) eq_refl) as H1.
  pose proof (get_messages_ok 2 1 None None None sample_db
                ltac:(unfold int64; lia) ltac:(unfold int64; lia) eq_refl) as H2.
  eexists _, _, _. split; [exact H1|]. split; [exact H2|].
  apply (get_messages_pages_compose 1 2 0 None None None sample_db _ _ _ _
           ltac:(lia) ltac:(lia) ltac:(lia) H1 H2).
  unfold int64. lia.
Defined.

(** The store function accepts what the endpoint refuses: when the
    queries run, a negative limit is no limit, and a negative offset is no
    offset. *)
Theorem get_messages_negative_bounds limit offset (f s q : option str) (db : table) :
  int64 limit -> int64 offset -> query_error f s q db = None ->
  ((limit < 0)%Z -> (offset <= 0)%Z ->
   exists page, get_messages limit offset f s q db = Ok (page, Z.of_nat (length page)))
  /\ ((offset < 0)%Z ->
      get_messages limit offset f s q db = get_messages limit 0 f s q db).
Proof.
  intros Hl Ho Hq. split.
  - intros Hneg Hoff. eexists. rewrite get_messages_ok by assumption.
    f_equal. f_equal. rewrite length_map. unfold Sql.limit_offset.
    destruct (Z.ltb_spec limit 0); [|lia].
    replace (Z.to_nat offset) with 0%nat by lia. rewrite drop_0, length_order_by.
    reflexivity.
  - intros Hneg. rewrite !get_messages_ok by (try exact Hq; unfold int64 in *; lia).
    unfold Sql.limit_offset. replace (Z.to_nat offset) with 0%nat by lia. reflexivity.
Qed.

Lemma get_messages_negative_bounds_witness :
  get_messages 2 (-5) None None None sample_db
  = get_messages 2 0 None None None sample_db.
Proof.
  apply (get_messages_negative_bounds 2 (-5) None None None sample_db);
    try reflexivity; unfold int64; lia.
Defined.

Lemma row_selected_clauses f s q r :
  row_selected (where_clauses f s q) r = true ->
  (forall c f', f = Some (c :: f') -> from_msisdn r = c :: f')
  /\ (forall c s', s = Some (c :: s') -> str_le (c :: s') (r_ts r))
  /\ (forall c q', q = Some (c :: q') -> is_Some (r_text r)).
Proof.
  unfold row_selected, where_clauses. rewrite !forallb_app, !andb_true_iff.
  intros (Hf & Hs & Hq). split; [|split].
  - intros c f' ->. cbn in Hf. rewrite andb_true_r in Hf.
    apply bool_decide_eq_true in Hf. exact Hf.
  - intros c s' ->. cbn in Hs. rewrite andb_true_r in Hs. exact Hs.
  - intros c q' ->. cbn in Hq. destruct (r_text r); [eauto | discriminate].
Qed.

Lemma limit_offset_subseteq {A} limit offset (l : list A) x :
  x ∈ Sql.limit_offset limit offset l -> x ∈ l.
Proof.
  unfold Sql.limit_offset. intros H.
  destruct (limit <? 0)%Z; [|apply subseteq_take in H]; apply subseteq_drop in H;
    exact H.
Qed.

Lemma list_filter_elem {A} (p : A -> bool) l x :
  x ∈ List.filter p l <-> x ∈ l /\ p x = true.
Proof. rewrite !list_elem_of_In. apply filter_In. Qed.

(** Every listed message is a stored message, and it passes every filter
    that is given and not empty: its sender is the [from] filter, its [ts]
    is not before [since], and it has a text when there is a text query.
    This holds whatever the query contains. *)
Theorem get_messages_sound limit offset (f s q : option str) (db : table)
    page total m :
  get_messages limit offset f s q db = Ok (page, total) ->
  m ∈ page ->
  exists r,
    r ∈ db /\ m = dict_of_row r
    /\ (forall c f', f = Some (c :: f') -> from_ m = c :: f')
    /\ (forall c s', s = Some (c :: s') -> str_le (c :: s') (ts m))
    /\ (forall c q', q = Some (c :: q') -> is_Some (text m)).
Proof.
  intros (_ & _ & -> & _ & _)%get_messages_Ok_inv Hm.
  apply list_elem_of_In, in_map_iff in Hm as (r & <- & Hr).
  apply list_elem_of_In, limit_offset_subseteq in Hr.
  unfold order_by_ts_id in Hr. rewrite merge_sort_Permutation in Hr.
  apply list_filter_elem in Hr as [Hr Hw].
  exists r. split; [exact Hr|]. split; [reflexivity|]. cbn.
  apply row_selected_clauses, Hw.
Qed.

Lemma get_messages_sound_witness :
  exists r,
    r ∈ sample_db
    /\ dict_of_row (sample_row "pytest_msg_1" "+919876543210"
                      "2025-01-15T09:00:00Z" "First pytest message")
       = dict_of_row r
    /\ (forall c f', Some (py "+919876543210") = Some (c :: f') ->
          from_ (dict_of_row (sample_row "pytest_msg_1" "+919876543210"
                                "2025-01-15T09:00:00Z" "First pytest message"))
          = c :: f')
    /\ (forall c s', @None str = Some (c :: s') ->
          str_le (c :: s')
            (ts (dict_of_row (sample_row "pytest_msg_1" "+919876543210"
                                "2025-01-15T09:00:00Z" "First pytest message"))))
    /\ (forall c q', @None str = Some (c :: q') ->
          is_Some (text (dict_of_row (sample_row "pytest_msg_1" "+919876543210"
                                        "2025-01-15T09:00:00Z"
                                        "First pytest message")))).
Proof.
  apply (get_messages_sound 1 0 (Some (py "+919876543210")) None None sample_db
           [dict_of_row (sample_row "pytest_msg_1" "+919876543210"
                           "2025-01-15T09:00:00Z" "First pytest message")] 2).
  - vm_compute. reflexivity.
  - apply list_elem_of_here.
Defined.

Lemma pattern_all_percent ps t :
  Forall (fun c => c = 37) ps -> ps <> [] -> Sql.pattern_compare ps t = true.
Proof.
  intros H. revert t. induction H as [|c ps -> Hps IH]; [congruence|].
  intros t _. destruct ps as [|c' ps'].
  - apply like_percent.
  - rewrite like_skip. rewrite IH by discriminate. reflexivity.
Qed.

Lemma percent_pattern n :
  Forall (fun c => c = 37) (py "%" ++ repeat 37 (S n) ++ py "%").
Proof.
  change (py "%") with [37].
  apply Forall_app. split; [apply Forall_singleton; reflexivity|].
  apply Forall_app. split; [|apply Forall_singleton; reflexivity].
  apply Forall_forall. intros c Hc. apply list_elem_of_In in Hc.
  apply (repeat_spec (S n) 37 c Hc).
Qed.

Lemma row_selected_percent f s n r :
  row_selected (where_clauses f s (Some (repeat 37 (S n)))) r
  = bool_decide (is_Some (r_text r)) && row_selected (where_clauses f s None) r.
Proof.
  unfold row_selected, where_clauses. rewrite !forallb_app.
  cbn [repeat clause_if forallb clause_holds]. rewrite !andb_true_r.
  destruct (r_text r) as [t|].
  - unfold Sql.like. rewrite c_str_plain.
    + rewrite pattern_all_percent.
      * rewrite bool_decide_eq_true_2 by eauto. cbn. rewrite andb_true_r.
        reflexivity.
      * apply (percent_pattern n).
      * discriminate.
    + apply forallb_forall. intros c Hc.
      pose proof (percent_pattern n) as Hp. rewrite Forall_forall in Hp.
      rewrite (Hp c) by (apply list_elem_of_In, Hc). reflexivity.
  - rewrite bool_decide_eq_false_2 by (intros [? ?]; discriminate).
    rewrite !andb_false_r. reflexivity.
Qed.

Lemma str_encode_ascii s : is_ascii s = true -> str_encode s = Ok s.
Proof.
  unfold is_ascii. induction s as [|c s IH]; [reflexivity|].
  cbn [forallb str_encode]. intros [Hc Hs]%andb_true_iff.
  unfold utf8_encode_char. rewrite Hc, (IH Hs). reflexivity.
Qed.

Lemma percent_pattern_fits n :
  (N.of_nat n + 3 <= 50000)%N ->
  pattern_too_long (Some (repeat 37 (S n))) = false
  /\ encodes (py "%" ++ repeat 37 (S n) ++ py "%") = true.
Proof.
  intros Hn.
  assert (Ha : is_ascii (py "%" ++ repeat 37 (S n) ++ py "%") = true).
  { unfold is_ascii. apply forallb_forall. intros c Hc.
    pose proof (percent_pattern n) as Hp. rewrite Forall_forall in Hp.
    rewrite (Hp c) by (apply list_elem_of_In, Hc). reflexivity. }
  unfold pattern_too_long, encodes, Sql.value_bytes. cbn [repeat].
  change (py "%" ++ (37 :: repeat 37 n) ++ py "%")
    with (py "%" ++ repeat 37 (S n) ++ py "%").
  rewrite (str_encode_ascii _ Ha). split; [|reflexivity].
  apply N.ltb_ge. change (py "%") with [37].
  rewrite !length_app, repeat_length. cbn [length]. unfold Sql.like_pattern_length.
  lia.
Qed.

(** The text query is not escaped: a query made of [%] characters (at
    most 49998 of them, so that the pattern fits) is no search for a percent
    sign, it selects every message that has a text. *)
Theorem get_messages_percent_query limit offset (f s : option str) (n : nat)
    (db : table) :
  (N.of_nat n + 3 <= 50000)%N ->
  get_messages limit offset f s (Some (repeat 37 (S n))) db
  = get_messages limit offset f s None
      (List.filter (fun r => bool_decide (is_Some (r_text r))) db).
Proof.
  intros Hn. destruct (percent_pattern_fits n Hn) as [Hfit Henc].
  assert (Hm : matching f s (Some (repeat 37 (S n))) db
             = matching f s None
                 (List.filter (fun r => bool_decide (is_Some (r_text r))) db)).
  { unfold matching. induction db as [|r db IH]; [reflexivity|].
    cbn [List.filter]. rewrite row_selected_percent.
    destruct (bool_decide (is_Some (r_text r))); cbn [andb List.filter].
    - destruct (row_selected _ r); [f_equal|]; exact IH.
    - exact IH. }
  assert (He : forall db1 db2,
             query_error f s (Some (repeat 37 (S n))) db1
             = query_error f s None db2).
  { intros db1 db2. unfold query_error. rewrite Hfit. cbn [pattern_too_long andb].
    f_equal. f_equal. unfold filters_encode.
    rewrite (where_clauses_split f s (Some (repeat 37 (S n)))), forallb_app.
    cbn [repeat clause_if forallb clause_param]. cbn [repeat] in Henc.
    rewrite Henc. rewrite !andb_true_r. reflexivity. }
  rewrite !get_messages_spec, Hm.
  rewrite (He db (List.filter (fun r => bool_decide (is_Some (r_text r))) db)).
  reflexivity.
Qed.

Lemma get_messages_percent_query_witness :
  get_messages 50 0 None None (Some (py "%")) sample_db
  = get_messages 50 0 None None None
      (List.filter (fun r => bool_decide (is_Some (r_text r))) sample_db).
Proof.
  apply (get_messages_percent_query 50 0 None None 0 sample_db). vm_compute.
  discriminate.
Defined.

(** ** The query endpoint: every answer *)

(** The answers of the query endpoint, which never writes.  A 200 answer
    shows a limit between 1 and 100 and an offset that is not negative and
    fits an SQLite integer, and carries the store's page and total for
    them, with at most [limit] messages and at most [total].  A 422 answer
    means that the limit or the offset failed its check; the store was not
    called.  When both pass their checks, the answer is 200 if the offset
    fits and the queries run, and 500 if the offset is [2^63] or more, a
    filter cannot be encoded, or the text query is too long and reaches a
    row. *)
Theorem list_messages_outcomes (query : MessagesQuery) (db : table) :
  let o := list_messages query db in
  let limit := int_query 50 1 (Some 100%Z) (q_limit query) in
  let offset := int_query 0 0 None (q_offset query) in
  let failure := query_error (q_from query) (q_since query) (q_q query) db in
  db_after o = db
  /\ match content (response o) with
     | MessagesContent data total lim off =>
         status_code (response o) = 200%Z
         /\ limit = Some lim /\ offset = Some off
         /\ (1 <= lim <= 100)%Z /\ (0 <= off < 2 ^ 63)%Z
         /\ get_messages lim off (q_from query) (q_since query) (q_q query) db
            = Ok (data, total)
         /\ (Z.of_nat (length data) <= lim)%Z
         /\ (Z.of_nat (length data) <= total <= Z.of_nat (length db))%Z
     | DetailContent _ =>
         status_code (response o) = 422%Z
         /\ calls o = []
         /\ (limit = None \/ offset = None)
     | PlainText _ => status_code (response o) = 500%Z
     | StatusContent _ | StatsContent _ => False
     end
  /\ (forall lim off,
        limit = Some lim -> offset = Some off ->
        ((off < 2 ^ 63)%Z -> failure = None -> status_code (response o) = 200%Z)
        /\ ((2 ^ 63 <= off)%Z \/ failure <> None ->
            response o = internal_server_error)).
Proof.
  cbn zeta. unfold list_messages.
  destruct (int_query 50 1 (Some 100%Z) (q_limit query)) as [limit|] eqn:El;
    [|cbn; split; [reflexivity|]; split; [auto|]; intros ? ? [=]].
  destruct (int_query 0 0 None (q_offset query)) as [offset|] eqn:Eo;
    [|cbn; split; [reflexivity|]; split; [auto|]; intros ? ? _ [=]].
  assert (Hl : (1 <= limit <= 100)%Z).
  { rewrite int_query_limit_spec in El. destruct (q_limit query) as [| |v].
    - injection El as <-. lia.
    - discriminate.
    - destruct (decide (1 <= v <= 100)%Z); [injection El as <-; lia | discriminate]. }
  assert (Ho : (0 <= offset)%Z).
  { rewrite int_query_offset_spec in Eo. destruct (q_offset query) as [| |v].
    - injection Eo as <-. lia.
    - discriminate.
    - destruct (decide (0 <= v)%Z); [injection Eo as <-; auto | discriminate]. }
  pose proof (get_messages_spec limit offset (q_from query) (q_since query)
                (q_q query) db) as Hspec.
  destruct (get_messages limit offset _ _ _ db) as [[data total]|e] eqn:E; cbn.
  - split; [reflexivity|]. split.
    + split; [reflexivity|].
      pose proof E as (_ & Hio & -> & -> & _)%get_messages_Ok_inv.
      rewrite length_map.
      pose proof (length_limit_offset limit offset
                    (order_by_ts_id (matching (q_from query) (q_since query)
                                       (q_q query) db)) ltac:(lia)) as H1.
      pose proof (length_limit_offset_le limit offset
                    (order_by_ts_id (matching (q_from query) (q_since query)
                                       (q_q query) db))) as H2.
      rewrite length_order_by in H2.
      pose proof (length_matching (q_from query) (q_since query) (q_q query) db)
        as H3.
      unfold int64 in Hio. repeat split; auto; lia.
    + intros lim off [= <-] [= <-]. split; [reflexivity|].
      apply get_messages_Ok_inv in E as (_ & Hio & _ & _ & Hq).
      unfold int64 in Hio. intros [H|H]; [lia | contradiction].
  - split; [reflexivity|]. split; [reflexivity|].
    intros lim off [= <-] [= <-]. split; [|reflexivity].
    intros Hlt Hq. rewrite Hq in Hspec.
    rewrite decide_True in Hspec by (unfold int64; lia). discriminate.
Qed.

(** ** The store: independence of the insertion order *)

#[global] Instance row_le_trans : Transitive row_le.
Proof.
  intros a b c. unfold row_le, row_leb.
  destruct (Sql.str_compare (r_ts a) (r_ts b)) eqn:E1;
    destruct (Sql.str_compare (r_ts b) (r_ts c)) eqn:E2; cbn;
    intros H1 H2; try contradiction.
  - apply str_compare_eq in E1, E2. rewrite E1, E2, str_compare_refl.
    apply Is_true_true. apply Is_true_true in H1, H2.
    exact (str_le_trans _ _ _ H1 H2).
  - apply str_compare_eq in E1. rewrite E1, E2. exact I.
  - apply str_compare_eq in E2. rewrite <- E2, E1. exact I.
  - rewrite (str_compare_lt_trans _ _ _ E1 E2). exact I.
Qed.

Lemma str_le_antisym a b : str_le a b -> str_le b a -> a = b.
Proof.
  unfold str_le. rewrite !str_leb_spec. unfold str_lt.
  intros [H1| ->] [H2| E]; auto.
  rewrite (str_compare_antisym a b), H1 in H2. discriminate.
Qed.

#[global] Instance sender_le_trans : Transitive sender_le.
Proof.
  intros a b c H1 H2. apply Is_true_true. apply Is_true_true in H1, H2.
  exact (str_le_trans _ _ _ H1 H2).
Qed.

#[global] Instance sender_le_antisym : AntiSymm (=) sender_le.
Proof.
  intros a b H1 H2. apply Is_true_true in H1, H2. exact (str_le_antisym _ _ H1 H2).
Qed.

Lemma row_le_antisym_key a b :
  row_le a b -> row_le b a -> r_message_id a = r_message_id b.
Proof.
  unfold row_le, row_leb. rewrite (str_compare_antisym (r_ts a) (r_ts b)).
  destruct (Sql.str_compare (r_ts a) (r_ts b)); cbn; intros H1 H2; try contradiction.
  apply Is_true_true in H1, H2. exact (str_le_antisym _ _ H1 H2).
Qed.

Lemma pk_unique_same_key db a b :
  pk_unique db -> a ∈ db -> b ∈ db -> r_message_id a = r_message_id b -> a = b.
Proof.
  unfold pk_unique. induction db as [|r db IH]; [intros _ []%elem_of_nil|].
  cbn [List.map]. intros [Hni Hnd]%NoDup_cons Ha Hb E.
  assert (Hin : forall x, x ∈ db -> r_message_id x ∈ List.map r_message_id db).
  { intros x Hx. apply list_elem_of_In, in_map, list_elem_of_In, Hx. }
  apply elem_of_cons in Ha as [->|Ha]; apply elem_of_cons in Hb as [->|Hb]; auto.
  - exfalso. apply Hni. rewrite E. auto.
  - exfalso. apply Hni. rewrite <- E. auto.
Qed.

Lemma filter_Permutation {A} (p : A -> bool) l1 l2 :
  l1 ≡ₚ l2 -> List.filter p l1 ≡ₚ List.filter p l2.
Proof.
  induction 1 as [|x l1 l2 _ IH|x y l|l1 l2 l3 _ IH1 _ IH2]; cbn.
  - constructor.
  - destruct (p x); [constructor|]; exact IH.
  - destruct (p x), (p y); try reflexivity. constructor.
  - etransitivity; eassumption.
Qed.

Lemma order_by_Permutation rows1 rows2 :
  rows1 ≡ₚ rows2 -> pk_unique rows1 -> order_by_ts_id rows1 = order_by_ts_id rows2.
Proof.
  intros Hp Hu. unfold order_by_ts_id.
  apply (StronglySorted_unique_strong row_le).
  - intros a b Ha Hb H1 H2. rewrite merge_sort_Permutation in Ha, Hb.
    rewrite <- Hp in Hb.
    apply (pk_unique_same_key rows1); auto. apply row_le_antisym_key; assumption.
  - apply StronglySorted_merge_sort; apply _.
  - apply StronglySorted_merge_sort; apply _.
  - rewrite !merge_sort_Permutation. exact Hp.
Qed.

Lemma pk_unique_filter p db : pk_unique db -> pk_unique (List.filter p db).
Proof.
  unfold pk_unique. induction db as [|r db IH]; [auto|]. cbn.
  intros [Hni Hnd]%NoDup_cons. destruct (p r); [|auto]. cbn.
  apply NoDup_cons. split; [|auto]. intros Hin. apply Hni.
  apply list_elem_of_In, in_map_iff in Hin as (x & <- & Hx).
  apply filter_In in Hx as [Hx _]. apply list_elem_of_In, in_map, Hx.
Qed.

Lemma existsb_Permutation {A} (p : A -> bool) l1 l2 :
  l1 ≡ₚ l2 -> existsb p l1 = existsb p l2.
Proof.
  induction 1 as [|x l1 l2 _ IH|x y l|l1 l2 l3 _ IH1 _ IH2]; cbn.
  - reflexivity.
  - rewrite IH. reflexivity.
  - destruct (p x), (p y); reflexivity.
  - congruence.
Qed.

Lemma query_error_Permutation f s q db1 db2 :
  db1 ≡ₚ db2 -> query_error f s q db1 = query_error f s q db2.
Proof.
  intros Hp. unfold query_error. rewrite (existsb_Permutation _ _ _ Hp). reflexivity.
Qed.

(** The listing depends on the stored messages, not on the order in which
    they were stored: two tables with the same rows, under the primary key,
    give the same pages and totals. *)
Theorem get_messages_order_independent limit offset (f s q : option str)
    (db1 db2 : table) :
  db1 ≡ₚ db2 -> pk_unique db1 ->
  get_messages limit offset f s q db1 = get_messages limit offset f s q db2.
Proof.
  intros Hp Hu. rewrite !get_messages_spec, (query_error_Permutation f s q _ _ Hp).
  assert (Hm : matching f s q db1 ≡ₚ matching f s q db2)
    by (apply filter_Permutation, Hp).
  rewrite (order_by_Permutation _ _ Hm) by (apply pk_unique_filter, Hu).
  rewrite (Permutation_length Hm). reflexivity.
Qed.

Lemma get_messages_order_independent_witness :
  get_messages 2 0 None None None sample_db
  = get_messages 2 0 None None None (rev sample_db).
Proof.
  apply (get_messages_order_independent 2 0 None None None sample_db (rev sample_db)).
  - apply Permutation_rev.
  - unfold pk_unique. apply (bool_decide_unpack _). vm_compute. exact I.
Defined.

(** ** The statistics: independence of the order, and the ranking *)

Lemma count_from_Permutation db1 db2 s :
  db1 ≡ₚ db2 -> count_from db1 s = count_from db2 s.
Proof.
  intros H. unfold count_from. f_equal. apply Permutation_length, filter_Permutation, H.
Qed.

Lemma min_text_Permutation c1 c2 : c1 ≡ₚ c2 -> Sql.min_text c1 = Sql.min_text c2.
Proof.
  intros H. pose proof (min_text_spec c1) as H1. pose proof (min_text_spec c2) as H2.
  destruct (Sql.min_text c1) as [m1|], (Sql.min_text c2) as [m2|].
  - destruct H1 as [I1 L1], H2 as [I2 L2]. f_equal. apply str_le_antisym.
    + apply L1. rewrite H. exact I2.
    + apply L2. rewrite <- H. exact I1.
  - subst c2. apply Permutation_nil_r in H. subst c1. destruct H1 as [[]%elem_of_nil _].
  - subst c1. apply Permutation_nil_l in H. subst c2. destruct H2 as [[]%elem_of_nil _].
  - reflexivity.
Qed.

Lemma max_text_Permutation c1 c2 : c1 ≡ₚ c2 -> Sql.max_text c1 = Sql.max_text c2.
Proof.
  intros H. pose proof (max_text_spec c1) as H1. pose proof (max_text_spec c2) as H2.
  destruct (Sql.max_text c1) as [m1|], (Sql.max_text c2) as [m2|].
  - destruct H1 as [I1 L1], H2 as [I2 L2]. f_equal. apply str_le_antisym.
    + apply L2. rewrite <- H. exact I1.
    + apply L1. rewrite H. exact I2.
  - subst c2. apply Permutation_nil_r in H. subst c1. destruct H1 as [[]%elem_of_nil _].
  - subst c1. apply Permutation_nil_l in H. subst c2. destruct H2 as [[]%elem_of_nil _].
  - reflexivity.
Qed.

Lemma remove_dups_Permutation (l1 l2 : list str) :
  l1 ≡ₚ l2 -> remove_dups l1 ≡ₚ remove_dups l2.
Proof.
  intros H. apply NoDup_Permutation; try apply NoDup_remove_dups.
  intros x. rewrite !elem_of_remove_dups, H. reflexivity.
Qed.

(** In the model, where the groups are formed in ascending order of the
    sender, the groups of two tables with the same rows are the same. *)
Lemma group_by_from_Permutation (db1 db2 : table) :
  db1 ≡ₚ db2 -> group_by_from db1 = group_by_from db2.
Proof.
  intros Hp. unfold group_by_from.
  pose proof (remove_dups_Permutation _ _ (Permutation_map from_msisdn Hp)) as Hd.
  assert (merge_sort sender_le (remove_dups (List.map from_msisdn db1))
          = merge_sort sender_le (remove_dups (List.map from_msisdn db2))) as ->.
  { apply (Sorted_unique sender_le); try apply Sorted_merge_sort; try apply _.
    rewrite !merge_sort_Permutation. exact Hd. }
  apply map_ext. intros x. f_equal. apply count_from_Permutation, Hp.
Qed.

(** The statistics depend on the stored messages, not on the order in
    which they were stored: the totals, the first and the last timestamp and
    the counts of the ranking are the same for two tables with the same
    rows.  Which of several senders of equal count comes first is left open
    by SQL and is not part of the statement. *)
Theorem get_stats_order_independent (db1 db2 : table) :
  db1 ≡ₚ db2 ->
  total_messages (get_stats db1) = total_messages (get_stats db2)
  /\ senders_count (get_stats db1) = senders_count (get_stats db2)
  /\ first_message_ts (get_stats db1) = first_message_ts (get_stats db2)
  /\ last_message_ts (get_stats db1) = last_message_ts (get_stats db2)
  /\ List.map snd (messages_per_sender (get_stats db1))
     = List.map snd (messages_per_sender (get_stats db2)).
Proof.
  intros Hp. unfold get_stats.
  cbn [total_messages senders_count first_message_ts last_message_ts
       messages_per_sender].
  pose proof (remove_dups_Permutation _ _ (Permutation_map from_msisdn Hp)) as Hd.
  rewrite (Permutation_length Hp), (Permutation_length Hd).
  rewrite (min_text_Permutation _ _ (Permutation_map r_ts Hp)).
  rewrite (max_text_Permutation _ _ (Permutation_map r_ts Hp)).
  rewrite (group_by_from_Permutation _ _ Hp). auto.
Qed.

Lemma get_stats_order_independent_witness :
  total_messages (get_stats sample_db) = total_messages (get_stats (rev sample_db))
  /\ senders_count (get_stats sample_db) = senders_count (get_stats (rev sample_db))
  /\ first_message_ts (get_stats sample_db)
     = first_message_ts (get_stats (rev sample_db))
  /\ last_message_ts (get_stats sample_db)
     = last_message_ts (get_stats (rev sample_db))
  /\ List.map snd (messages_per_sender (get_stats sample_db))
     = List.map snd (messages_per_sender (get_stats (rev sample_db))).
Proof.
  apply (get_stats_order_independent sample_db (rev sample_db)).
  apply Permutation_rev.
Defined.

Lemma matching_no_filter db : matching None None None db = db.
Proof.
  unfold matching, where_clauses, row_selected. cbn.
  induction db as [|r db IH]; cbn; [reflexivity | f_equal; exact IH].
Qed.

(** The two endpoints agree: the total of a listing without filters is
    the [total_messages] of the statistics. *)
Theorem stats_total_is_list_total limit offset (db : table) page total :
  get_messages limit offset None None None db = Ok (page, total) ->
  total = total_messages (get_stats db).
Proof.
  intros (_ & _ & _ & -> & _)%get_messages_Ok_inv.
  rewrite matching_no_filter. reflexivity.
Qed.

Lemma stats_total_is_list_total_witness :
  Z.of_nat (length (matching None None None sample_db))
  = total_messages (get_stats sample_db).
Proof.
  apply (stats_total_is_list_total 2 0 sample_db
           (List.map dict_of_row
              (Sql.limit_offset 2 0
                 (order_by_ts_id (matching None None None sample_db))))).
  apply get_messages_ok; [unfold int64; lia | unfold int64; lia | reflexivity].
Defined.

Lemma group_by_from_length db :
  length (group_by_from db) = length (remove_dups (List.map from_msisdn db)).
Proof.
  unfold group_by_from. rewrite length_map, merge_sort_Permutation. reflexivity.
Qed.

Lemma group_by_from_senders db :
  List.map fst (group_by_from db)
  = merge_sort sender_le (remove_dups (List.map from_msisdn db)).
Proof.
  unfold group_by_from. rewrite List.map_map. cbn. apply List.map_id.
Qed.

Lemma NoDup_take {A} n (l : list A) : NoDup l -> NoDup (take n l).
Proof.
  intros H. rewrite <- (take_drop n l) in H. apply NoDup_app in H. tauto.
Qed.

Lemma remove_dups_length_le (l : list str) : (length (remove_dups l) <= length l)%nat.
Proof.
  induction l as [|x l IH]; cbn; [lia|].
  destruct (decide_rel elem_of x l); cbn; lia.
Qed.

(** The ranking has [min 10 senders_count] entries, no sender twice;
    there are no more senders than messages, and none exactly when there is
    no message; with at most ten senders the counts of the ranking add up to
    [total_messages]. *)
Theorem get_stats_ranking (db : table) :
  let st := get_stats db in
  Z.of_nat (length (messages_per_sender st)) = Z.min 10 (senders_count st)
  /\ NoDup (List.map fst (messages_per_sender st))
  /\ (senders_count st <= total_messages st)%Z
  /\ (senders_count st = 0%Z <-> total_messages st = 0%Z)
  /\ ((senders_count st <= 10)%Z ->
      sum_counts (messages_per_sender st) = total_messages st).
Proof.
  cbn zeta. unfold get_stats.
  cbn [messages_per_sender senders_count total_messages].
  pose proof (remove_dups_length_le (List.map from_msisdn db)) as Hle.
  rewrite length_map in Hle.
  split; [|split; [|split; [|split]]].
  - rewrite length_take, merge_sort_Permutation, group_by_from_length. lia.
  - rewrite <- (firstn_map fst).
    apply NoDup_take.
    rewrite (Permutation_map fst (merge_sort_Permutation count_ge (group_by_from db))).
    rewrite group_by_from_senders, merge_sort_Permutation. apply NoDup_remove_dups.
  - lia.
  - split; [|lia]. intros H. destruct db as [|r db]; [reflexivity|]. exfalso.
    assert (remove_dups (List.map from_msisdn (r :: db)) = []) as E.
    { apply length_zero_iff_nil. lia. }
    assert (from_msisdn r ∈ remove_dups (List.map from_msisdn (r :: db))) as Hin.
    { apply elem_of_remove_dups. left. }
    rewrite E in Hin. inversion Hin.
  - intros H. rewrite take_ge.
    + rewrite (sum_counts_perm _ _ (merge_sort_Permutation count_ge _)).
      apply group_by_from_sum.
    + rewrite merge_sort_Permutation, group_by_from_length. lia.
Qed.

Lemma get_stats_ranking_witness :
  sum_counts (messages_per_sender (get_stats sample_db))
  = total_messages (get_stats sample_db).
Proof.
  destruct (get_stats_ranking sample_db) as (_ & _ & _ & _ & H).
  apply H. vm_compute. discriminate.
Defined.

(** ** The database path *)

Lemma str_replace_from_absent old new s :
  is_substring old s = false -> str_replace_from old new 0 s = s.
Proof.
  induction s as [|c s IH]; [reflexivity|].
  cbn [is_substring]. intros [H1 H2]%orb_false_iff.
  cbn [str_replace_from]. rewrite H1. f_equal. exact (IH H2).
Qed.

Lemma str_replace_from_skip old new k skipped s :
  length skipped = k ->
  str_replace_from old new k (skipped ++ s) = str_replace_from old new 0 s.
Proof.
  revert k. induction skipped as [|c sk IH]; intros k <-; [reflexivity|].
  cbn. apply IH. reflexivity.
Qed.

Lemma is_prefix_app p s : is_prefix p (p ++ s) = true.
Proof. induction p as [|c p IH]; [reflexivity|]. cbn. rewrite N.eqb_refl. exact IH. Qed.

Lemma is_prefix_spec p s : is_prefix p s = true <-> exists rest, s = p ++ rest.
Proof.
  revert s. induction p as [|c p IH]; intros s.
  - split; [intros _; exists s; reflexivity | reflexivity].
  - destruct s as [|x s]; cbn [is_prefix].
    + split; [discriminate | intros [rest H]; discriminate].
    + rewrite andb_true_iff, N.eqb_eq, IH. split.
      * intros [-> [rest ->]]. exists rest. reflexivity.
      * intros [rest H]. injection H as -> ->. eauto.
Qed.

(** The general [str.replace] agrees with the replacement of [Z] that the
    timestamp validator uses. *)
Lemma replace_Z_is_str_replace v : replace_Z v = str_replace [90] (py "+00:00") v.
Proof.
  unfold replace_Z, str_replace. induction v as [|c v IH]; [reflexivity|].
  cbn [flat_map str_replace_from is_prefix length Nat.sub].
  rewrite andb_true_r, IH. destruct (c =? 90); reflexivity.
Qed.

(** [get_db_path] returns what follows [sqlite:///] when the URL starts
    with it and the rest does not contain it again, and the default path
    [/data/app.db] for every URL that does not start with it. *)
Theorem get_db_path_cases (settings : Settings) :
  (forall path,
      DATABASE_URL settings = py "sqlite:///" ++ path ->
      is_substring (py "sqlite:///") path = false ->
      get_db_path settings = path)
  /\ ((~ exists path, DATABASE_URL settings = py "sqlite:///" ++ path) ->
      get_db_path settings = py "/data/app.db").
Proof.
  unfold get_db_path, startswith. split.
  - intros path -> Hp. rewrite is_prefix_app. unfold str_replace.
    change (py "sqlite:///" ++ path) with (115 :: (py "qlite:///" ++ path)).
    cbn [str_replace_from].
    change (115 :: (py "qlite:///" ++ path)) with (py "sqlite:///" ++ path).
    rewrite is_prefix_app. cbn [app].
    rewrite (str_replace_from_skip _ _ _ (py "qlite:///")) by reflexivity.
    apply str_replace_from_absent, Hp.
  - intros Hn. destruct (is_prefix (py "sqlite:///") (DATABASE_URL settings)) eqn:E;
      [|reflexivity].
    exfalso. apply Hn. apply is_prefix_spec. exact E.
Qed.

Lemma get_db_path_cases_witness :
  get_db_path test_settings = py "./test_app.db"
  /\ get_db_path default_settings = py "/data/app.db".
Proof.
  split.
  - apply (proj1 (get_db_path_cases test_settings)); reflexivity.
  - apply (proj1 (get_db_path_cases default_settings)); reflexivity.
Defined.

(** The replacement is not anchored at the start: a later occurrence of
    the prefix is removed from the path as well. *)
Example get_db_path_inner_prefix :
  get_db_path {| DATABASE_URL := py "sqlite:///data/sqlite:///app.db";
                 LOG_LEVEL := py "INFO"; WEBHOOK_SECRET := None |}
  = py "data/app.db".
Proof. vm_compute. reflexivity. Qed.

(** ** The counters *)

Section Counters.
Context `{Countable K}.

Lemma counter_value_inc (c : gmap K nat) k :
  counter_value (counter_inc k c) k = S (counter_value c k).
Proof. unfold counter_inc, counter_value at 1. rewrite lookup_insert_eq. reflexivity. Qed.

Lemma counter_value_inc_ne (c : gmap K nat) k k' :
  k <> k' -> counter_value (counter_inc k c) k' = counter_value c k'.
Proof.
  intros Hne. unfold counter_inc, counter_value at 1.
  rewrite lookup_insert_ne by exact Hne. reflexivity.
Qed.

Lemma counter_sum_empty : counter_sum (∅ : gmap K nat) = 0%nat.
Proof. unfold counter_sum. apply map_fold_empty. Qed.

Lemma counter_sum_insert (c : gmap K nat) k v :
  c !! k = None -> counter_sum (<[k := v]> c) = (v + counter_sum c)%nat.
Proof.
  intros Hk. unfold counter_sum.
  rewrite (map_fold_insert_L (fun _ v acc => (v + acc)%nat) 0%nat k v c);
    [reflexivity | | exact Hk].
  intros. lia.
Qed.

Lemma counter_sum_delete (c : gmap K nat) k v :
  c !! k = Some v -> counter_sum c = (v + counter_sum (delete k c))%nat.
Proof.
  intros Hk. unfold counter_sum.
  rewrite (map_fold_delete_L (fun _ v acc => (v + acc)%nat) 0%nat k v c);
    [reflexivity | | exact Hk].
  intros. lia.
Qed.

Lemma counter_sum_inc (c : gmap K nat) k :
  counter_sum (counter_inc k c) = S (counter_sum c).
Proof.
  unfold counter_inc, counter_value. destruct (c !! k) as [v|] eqn:Hk; cbn.
  - rewrite <- insert_delete_eq, counter_sum_insert by apply lookup_delete_eq.
    rewrite (counter_sum_delete c k v Hk). lia.
  - rewrite counter_sum_insert by exact Hk. lia.
Qed.
End Counters.

Lemma filter_path_inc (c : gmap (str * Z) nat) path st :
  filter (fun kv => kv.1.1 = path) (counter_inc (path, st) c)
  = counter_inc (path, st) (filter (fun kv : (str * Z) * nat => kv.1.1 = path) c).
Proof.
  unfold counter_inc. rewrite map_filter_insert_True by reflexivity.
  f_equal. f_equal. unfold counter_value.
  destruct (c !! (path, st)) as [v|] eqn:E.
  - erewrite map_lookup_filter_Some_2; [reflexivity | exact E | reflexivity].
  - rewrite map_lookup_filter_None_2; [reflexivity | left; exact E].
Qed.

Lemma filter_path_inc_other (c : gmap (str * Z) nat) path path' st :
  path' <> path ->
  filter (fun kv => kv.1.1 = path) (counter_inc (path', st) c)
  = filter (fun kv : (str * Z) * nat => kv.1.1 = path) c.
Proof.
  intros Hne. unfold counter_inc. apply map_filter_insert_not. intros y. cbn. exact Hne.
Qed.

(** ** The application: requests served one after the other *)

Section ApplicationFacts.

Variable settings : Settings.
Variable json_loads : bytes -> option json.
Variable fromisoformat : str -> option PyDatetime.datetime.

Local Abbreviation route_ := (route settings json_loads fromisoformat).
Local Abbreviation serve_ := (serve settings json_loads fromisoformat).
Local Abbreviation serve_all_ := (serve_all settings json_loads fromisoformat).

(** The five ways a webhook request ends. *)
Lemma webhook_cases now req db :
  let o := webhook settings json_loads fromisoformat now req db in
  (status_code (response o) = 500%Z /\ state_result o = None /\ db_after o = db)
  \/ (status_code (response o) = 401%Z /\ state_result o = Some (py "invalid_signature")
      /\ db_after o = db)
  \/ (status_code (response o) = 422%Z /\ state_result o = Some (py "validation_error")
      /\ db_after o = db)
  \/ (status_code (response o) = 200%Z /\ state_result o = Some (py "duplicate")
      /\ db_after o = db)
  \/ (status_code (response o) = 200%Z /\ state_result o = Some (py "created")
      /\ exists msg,
           model_validate_json json_loads fromisoformat (req_body req) = Ok msg
           /\ has_key (wm_message_id msg) db = false
           /\ db_after o = db ++ [row_of_message msg (now ++ py "Z")]).
Proof.
  cbn zeta. unfold webhook.
  destruct (verify_signature _ _ _) as [[|]|].
  - destruct (model_validate_json _ _ _) as [msg|] eqn:Hv.
    + destruct (has_key (wm_message_id msg) db) eqn:E.
      * rewrite insert_message_duplicate by done. do 3 right. left. auto.
      * rewrite insert_message_new by done. do 4 right.
        repeat split; auto. exists msg. auto.
    + do 2 right. left. auto.
  - right. left. auto.
  - left. auto.
Qed.

(** A webhook request either leaves the table as it is, or it carries a
    valid message with a new [message_id], is answered 200 and appends the
    row of that message, with outcome [created]. *)
Theorem webhook_store_effect now req db :
  let o := webhook settings json_loads fromisoformat now req db in
  (db_after o = db /\ state_result o <> Some (py "created"))
  \/ exists msg,
       model_validate_json json_loads fromisoformat (req_body req) = Ok msg
       /\ has_key (wm_message_id msg) db = false
       /\ db_after o = db ++ [row_of_message msg (now ++ py "Z")]
       /\ response o = status_ok
       /\ state_result o = Some (py "created").
Proof.
  cbn zeta. unfold webhook.
  destruct (verify_signature _ _ _) as [[|]|];
    try (left; split; [reflexivity | cbn; congruence]).
  destruct (model_validate_json _ _ _) as [msg|] eqn:Hv;
    try (left; split; [reflexivity | vm_compute; congruence]).
  destruct (has_key (wm_message_id msg) db) eqn:E.
  - rewrite insert_message_duplicate by done.
    left. split; [reflexivity | vm_compute; congruence].
  - rewrite insert_message_new by done. right. exists msg. auto.
Qed.

Lemma list_messages_reads query db :
  db_after (list_messages query db) = db /\ state_result (list_messages query db) = None.
Proof.
  unfold list_messages.
  destruct (int_query 50 1 _ _), (int_query 0 0 _ _); auto.
  destruct (get_messages _ _ _ _ _ _) as [[? ?]|]; auto.
Qed.

Lemma readiness_reads db :
  db_after (readiness settings db) = db /\ state_result (readiness settings db) = None.
Proof.
  unfold readiness. destruct (negb (secret_configured settings)); auto.
Qed.

(** Only the webhook writes. *)
Lemma route_reads r db :
  (forall now req, r <> Post_webhook now req) ->
  db_after (route_ r db) = db /\ state_result (route_ r db) = None.
Proof.
  intros Hr. destruct r as [now req|query| | |]; cbn [route].
  - exfalso. exact (Hr now req eq_refl).
  - apply list_messages_reads.
  - auto.
  - auto.
  - apply readiness_reads.
Qed.

Lemma route_store_effect r db :
  db_after (route_ r db) = db
  \/ exists now req msg,
       r = Post_webhook now req
       /\ model_validate_json json_loads fromisoformat (req_body req) = Ok msg
       /\ has_key (wm_message_id msg) db = false
       /\ db_after (route_ r db) = db ++ [row_of_message msg (now ++ py "Z")]
       /\ state_result (route_ r db) = Some (py "created").
Proof.
  destruct r as [now req|query| | |].
  - cbn [route].
    destruct (webhook_cases now req db) as [H|[H|[H|[H|H]]]]; try (left; tauto).
    destruct H as (_ & Hr & msg & Hv & Hk & Hd). right. exists now, req, msg. auto.
  - left. apply route_reads. discriminate.
  - left. reflexivity.
  - left. reflexivity.
  - left. apply route_reads. discriminate.
Qed.

Lemma serve_all_cons r rs app :
  serve_all_ (r :: rs) app = serve_all_ rs (serve_ r app).2.
Proof. reflexivity. Qed.

Lemma serve_all_app rs1 rs2 app :
  serve_all_ (rs1 ++ rs2) app = serve_all_ rs2 (serve_all_ rs1 app).
Proof. unfold serve_all. apply fold_left_app. Qed.

Lemma serve_db r app :
  app_db (serve_ r app).2 = db_after (route_ r (app_db app)).
Proof. reflexivity. Qed.

(** Whatever the requests, the table only grows, by at most one row per
    request, and the rows of a stored [message_id] stay as they are: the
    application never updates and never deletes. *)
Theorem serve_all_append_only rs app :
  exists added,
    app_db (serve_all_ rs app) = app_db app ++ added
    /\ (length added <= length rs)%nat
    /\ forall m, has_key m (app_db app) = true ->
         rows_of m (app_db (serve_all_ rs app)) = rows_of m (app_db app).
Proof.
  revert app. induction rs as [|r rs IH]; intros app.
  - exists []. rewrite app_nil_r. cbn. auto.
  - rewrite serve_all_cons.
    destruct (IH (serve_ r app).2) as (added & Hdb & Hlen & Hrows).
    rewrite serve_db in Hdb, Hrows.
    destruct (route_store_effect r (app_db app))
      as [Hsame|(now & req & msg & -> & _ & Hk & Hd & _)].
    + exists added. rewrite Hsame in Hdb, Hrows. cbn [length].
      split; [exact Hdb|]. split; [lia | exact Hrows].
    + rewrite Hd in Hdb, Hrows.
      exists ([row_of_message msg (now ++ py "Z")] ++ added).
      split; [rewrite Hdb, app_assoc; reflexivity|]. split; [cbn; lia|].
      intros m Hm. rewrite Hrows.
      * rewrite rows_of_app. cbn. rewrite bool_decide_eq_false_2, app_nil_r; [reflexivity|].
        intros E. cbn in E. congruence.
      * rewrite has_key_app, Hm. reflexivity.
Qed.

(** The primary key is an invariant of the application: no sequence of
    requests leads to two rows with one [message_id]. *)
Theorem serve_all_pk_unique rs app :
  pk_unique (app_db app) -> pk_unique (app_db (serve_all_ rs app)).
Proof.
  revert app. induction rs as [|r rs IH]; intros app Hu; [exact Hu|].
  rewrite serve_all_cons. apply IH. rewrite serve_db.
  destruct r as [now req|query| | |]; cbn [route].
  - apply webhook_pk_unique, Hu.
  - rewrite (proj1 (list_messages_reads _ _)). exact Hu.
  - exact Hu.
  - exact Hu.
  - rewrite (proj1 (readiness_reads _)). exact Hu.
Qed.


(** Everything the application stores has passed the validator: when the
    rows of the table are valid, so are the rows after any sequence of
    requests. *)
Theorem serve_all_rows_valid rs app :
  Forall (valid_row fromisoformat) (app_db app) ->
  Forall (valid_row fromisoformat) (app_db (serve_all_ rs app)).
Proof.
  revert app. induction rs as [|r rs IH]; intros app Hv; [exact Hv|].
  rewrite serve_all_cons. apply IH. rewrite serve_db.
  destruct (route_store_effect r (app_db app))
    as [->|(now & req & msg & _ & Hm & _ & -> & _)]; [exact Hv|].
  apply Forall_app. split; [exact Hv|]. apply Forall_singleton.
  exact (model_validate_json_valid _ _ _ _ now Hm).
Qed.

Lemma log_requests_webhook_total path o m :
  webhook_requests_total (log_requests path o m) = webhook_requests_total m.
Proof. unfold log_requests. destruct (escaped o); reflexivity. Qed.

Lemma serve_created r app :
  (created_count (app_metrics (serve_ r app).2) + length (app_db app)
   = created_count (app_metrics app) + length (app_db (serve_ r app).2))%nat.
Proof.
  rewrite serve_db. unfold created_count. cbn [serve snd app_metrics].
  rewrite log_requests_webhook_total.
  destruct r as [now req|query| | |]; cbn [route].
  - destruct (webhook_cases now req (app_db app)) as [H|[H|[H|[H|H]]]];
      cbn zeta in H; destruct H as (_ & Hr & Hd); unfold count_result; rewrite Hr.
    + rewrite Hd. lia.
    + rewrite Hd. cbn [webhook_requests_total].
      rewrite counter_value_inc_ne by (vm_compute; discriminate). lia.
    + rewrite Hd. cbn [webhook_requests_total].
      rewrite counter_value_inc_ne by (vm_compute; discriminate). lia.
    + rewrite Hd. cbn [webhook_requests_total].
      rewrite counter_value_inc_ne by (vm_compute; discriminate). lia.
    + destruct Hd as (msg & _ & _ & ->). cbn [webhook_requests_total].
      rewrite counter_value_inc, length_app. cbn. lia.
  - destruct (list_messages_reads query (app_db app)) as [-> Hr].
    unfold count_result. rewrite Hr. lia.
  - cbn. lia.
  - cbn. lia.
  - destruct (readiness_reads (app_db app)) as [-> Hr].
    unfold count_result. rewrite Hr. lia.
Qed.

(** The counter [webhook_requests_total{result="created"}] counts the
    rows the application has stored: over any sequence of requests it grows
    by the number of rows added to the table. *)
Theorem created_counter_counts_rows rs app :
  (created_count (app_metrics (serve_all_ rs app)) + length (app_db app)
   = created_count (app_metrics app) + length (app_db (serve_all_ rs app)))%nat.
Proof.
  revert app. induction rs as [|r rs IH]; intros app; [reflexivity|].
  rewrite serve_all_cons. pose proof (IH (serve_ r app).2) as H1.
  pose proof (serve_created r app) as H2. lia.
Qed.

(** The middleware hands the handler's response on unchanged.  A request
    answered with a status other than 500 adds one to the child of
    [http_requests_total] for its path and status, leaves every other child
    alone and adds one latency observation; a request whose handler lets an
    exception escape is not counted at all. *)
Theorem serve_counts_request r app :
  let o := route_ r (app_db app) in
  let before := app_metrics app in
  let after := app_metrics (serve_ r app).2 in
  let child := (request_path r, status_code (response o)) in
  (serve_ r app).1 = response o
  /\ (status_code (response o) <> 500%Z ->
      counter_value (http_requests_total after) child
      = S (counter_value (http_requests_total before) child)
      /\ (forall other, other <> child ->
            counter_value (http_requests_total after) other
            = counter_value (http_requests_total before) other)
      /\ request_latency_count after = S (request_latency_count before))
  /\ (status_code (response o) = 500%Z ->
      http_requests_total after = http_requests_total before
      /\ request_latency_count after = request_latency_count before).
Proof.
  cbn zeta. cbn [serve fst snd app_metrics]. split; [reflexivity|].
  assert (Hc : forall o m,
             http_requests_total (count_result o m) = http_requests_total m
             /\ request_latency_count (count_result o m) = request_latency_count m).
  { intros o m. unfold count_result. destruct (state_result o); auto. }
  unfold log_requests, escaped. split.
  - intros Hne. apply Z.eqb_neq in Hne. rewrite Hne.
    cbn [http_requests_total request_latency_count].
    destruct (Hc (route_ r (app_db app)) (app_metrics app)) as [-> ->].
    split; [apply counter_value_inc|]. split; [|reflexivity].
    intros other Ho. apply counter_value_inc_ne. congruence.
  - intros He. apply Z.eqb_eq in He. rewrite He. apply Hc.
Qed.

Lemma serve_metrics_step r app :
  (request_latency_count (app_metrics (serve_ r app).2)
   + counter_sum (http_requests_total (app_metrics app))
   = request_latency_count (app_metrics app)
     + counter_sum (http_requests_total (app_metrics (serve_ r app).2)))%nat
  /\ (counter_sum (webhook_requests_total (app_metrics (serve_ r app).2))
      + webhook_http_total (app_metrics app)
      = counter_sum (webhook_requests_total (app_metrics app))
        + webhook_http_total (app_metrics (serve_ r app).2))%nat
  /\ (counter_sum (http_requests_total (app_metrics (serve_ r app).2))
      <= S (counter_sum (http_requests_total (app_metrics app))))%nat.
Proof.
  cbn [serve snd app_metrics].
  set (o := route_ r (app_db app)). set (m := app_metrics app).
  assert (Hres : (state_result o = None
                  /\ (escaped o = true \/ request_path r <> py "/webhook"))
                 \/ ((exists l, state_result o = Some l) /\ escaped o = false
                     /\ request_path r = py "/webhook")).
  { subst o. destruct r as [now req|query| | |]; cbn [route].
    - destruct (webhook_cases now req (app_db app))
        as [H|[H|[H|[H|H]]]]; cbn zeta in H; destruct H as (Hs & Hr & _);
        unfold escaped; rewrite Hs, Hr; cbn; eauto.
    - left. split; [apply list_messages_reads|]. right. vm_compute; discriminate.
    - left. split; [reflexivity|]. right. vm_compute; discriminate.
    - left. split; [reflexivity|]. right. vm_compute; discriminate.
    - left. split; [apply readiness_reads|]. right. vm_compute; discriminate. }
  unfold webhook_http_total, log_requests, count_result.
  destruct Hres as [[-> Hx]|[[l ->] [-> Hp]]].
  - destruct (escaped o) eqn:He;
      cbn [http_requests_total webhook_requests_total request_latency_count].
    + lia.
    + destruct Hx as [Hx|Hx]; [discriminate|].
      rewrite counter_sum_inc, filter_path_inc_other by exact Hx. lia.
  - cbn [http_requests_total webhook_requests_total request_latency_count].
    rewrite Hp, filter_path_inc, !counter_sum_inc. lia.
Qed.

(** From a fresh start the counters agree with each other, whatever the
    requests: there is one latency observation per counted request, the
    outcome counter [webhook_requests_total] adds up to the requests counted
    under [/webhook], and no more requests are counted than were served. *)
Theorem metrics_consistent rs :
  let m := app_metrics (serve_all_ rs fresh_app) in
  request_latency_count m = counter_sum (http_requests_total m)
  /\ counter_sum (webhook_requests_total m) = webhook_http_total m
  /\ (counter_sum (http_requests_total m) <= length rs)%nat.
Proof.
  cbn zeta.
  assert (H : forall app,
    (request_latency_count (app_metrics (serve_all_ rs app))
     + counter_sum (http_requests_total (app_metrics app))
     = request_latency_count (app_metrics app)
       + counter_sum (http_requests_total (app_metrics (serve_all_ rs app))))%nat
    /\ (counter_sum (webhook_requests_total (app_metrics (serve_all_ rs app)))
        + webhook_http_total (app_metrics app)
        = counter_sum (webhook_requests_total (app_metrics app))
          + webhook_http_total (app_metrics (serve_all_ rs app)))%nat
    /\ (counter_sum (http_requests_total (app_metrics (serve_all_ rs app)))
        <= length rs + counter_sum (http_requests_total (app_metrics app)))%nat).
  { induction rs as [|r rs' IH]; intros app.
    - unfold serve_all. cbn [fold_left length]. lia.
    - rewrite serve_all_cons. specialize (IH (serve_ r app).2).
      pose proof (serve_metrics_step r app) as Hs. cbn [length]. lia. }
  specialize (H fresh_app).
  change (app_metrics fresh_app) with no_metrics in H.
  unfold webhook_http_total in H at 1.
  cbn [no_metrics http_requests_total webhook_requests_total request_latency_count] in H.
  rewrite map_filter_empty in H. repeat rewrite counter_sum_empty in H.
  pose proof (counter_sum_empty (K := str)) as E. lia.
Qed.

(** Every request other than [POST /webhook] leaves the table and the
    outcome counter as they are. *)
Theorem reads_leave_store r app :
  (forall now req, r <> Post_webhook now req) ->
  app_db (serve settings json_loads fromisoformat r app).2 = app_db app
  /\ webhook_requests_total
       (app_metrics (serve settings json_loads fromisoformat r app).2)
     = webhook_requests_total (app_metrics app).
Proof.
  intros Hr. rewrite serve_db.
  destruct (route_reads r (app_db app) Hr) as [Hd Hs].
  split; [exact Hd|]. cbn [serve snd app_metrics].
  rewrite log_requests_webhook_total. unfold count_result. rewrite Hs. reflexivity.
Qed.

(** Ingestion and listing compose: after a request that passes the
    verifier and the validator, the message is in the table and on the
    unfiltered listing, whose total is the size of the table.  A new
    [message_id] is stored as the row of this request and the table grows by
    one; a known one leaves the table as it was. *)
Theorem webhook_then_listed now req msg db limit :
  verify_signature settings (req_body req) (default [] (x_signature req)) = Ok true ->
  model_validate_json json_loads fromisoformat (req_body req) = Ok msg ->
  whole_page limit (S (length db)) ->
  let db' := db_after (webhook settings json_loads fromisoformat now req db) in
  exists row page,
    row ∈ db' /\ r_message_id row = wm_message_id msg
    /\ get_messages limit 0 None None None db' = Ok (page, Z.of_nat (length db'))
    /\ dict_of_row row ∈ page
    /\ (has_key (wm_message_id msg) db = false ->
        row = row_of_message msg (now ++ py "Z")
        /\ length db' = S (length db))
    /\ (has_key (wm_message_id msg) db = true -> db' = db).
Proof.
  intros Hs Hv [Hl Hw] db'.
  destruct (webhook_accepted settings json_loads fromisoformat now req msg db Hs Hv)
    as (_ & Hd & _). fold db' in Hd.
  assert (Hlist : (length db' <= S (length db))%nat ->
             forall row, row ∈ db' -> exists page,
               get_messages limit 0 None None None db'
               = Ok (page, Z.of_nat (length db'))
               /\ dict_of_row row ∈ page).
  { intros Hlen row Hrow. eexists.
    rewrite get_messages_ok by (try reflexivity; unfold int64 in *; lia).
    rewrite matching_no_filter. split; [reflexivity|].
    apply list_elem_of_In, in_map, list_elem_of_In.
    rewrite limit_offset_whole.
    - unfold order_by_ts_id. rewrite merge_sort_Permutation. exact Hrow.
    - rewrite length_order_by. split; [exact Hl | lia]. }
  destruct (has_key (wm_message_id msg) db) eqn:E.
  - rewrite insert_message_duplicate in Hd by done. cbn [snd] in Hd.
    apply has_key_true in E. apply list_elem_of_In, in_map_iff in E as (row & Hid & Hin).
    apply list_elem_of_In in Hin.
    destruct (Hlist ltac:(rewrite Hd; lia) row) as (page & Hg & Hp);
      [rewrite Hd; exact Hin|].
    exists row, page. rewrite Hd at 1. repeat split; auto; discriminate.
  - rewrite insert_message_new in Hd by done. cbn [snd] in Hd.
    set (row := row_of_message msg (now ++ py "Z")).
    assert (Hin : row ∈ db') by (rewrite Hd; apply elem_of_app; right; left).
    assert (Hlen : length db' = S (length db)) by (rewrite Hd, length_app; cbn; lia).
    destruct (Hlist ltac:(lia) row Hin) as (page & Hg & Hp).
    exists row, page. repeat split; auto; discriminate.
Qed.

(** A request without the signature header, or with an empty one, is
    answered 401 and stores nothing, whatever its body: the default of
    [headers.get] is the empty string, which is no digest. *)
Theorem webhook_unsigned now body key db sig :
  secret_key settings = Ok key ->
  sig = None \/ sig = Some [] ->
  let o := webhook settings json_loads fromisoformat now
             {| req_body := body; x_signature := sig |} db in
  response o = http_exception 401 (DetailText (py "invalid signature"))
  /\ db_after o = db.
Proof.
  intros Hk Hsig. cbn zeta. unfold webhook. cbn [req_body x_signature].
  assert (default [] sig = @nil N) as -> by (destruct Hsig as [-> | ->]; reflexivity).
  rewrite (verify_signature_empty _ key) by exact Hk. auto.
Qed.

End ApplicationFacts.

Lemma serve_all_pk_unique_witness :
  pk_unique (app_db (serve_all test_settings sample_loads PyDatetime.fromisoformat
                       sample_requests fresh_app)).
Proof.
  apply (serve_all_pk_unique test_settings sample_loads PyDatetime.fromisoformat
           sample_requests fresh_app).
  apply NoDup_nil_2.
Defined.

Lemma serve_all_rows_valid_witness :
  Forall (valid_row PyDatetime.fromisoformat)
    (app_db (serve_all test_settings sample_loads PyDatetime.fromisoformat
               sample_requests fresh_app)).
Proof.
  apply (serve_all_rows_valid test_settings sample_loads PyDatetime.fromisoformat
           sample_requests fresh_app).
  apply Forall_nil_2.
Defined.

Lemma serve_counts_request_witness :
  counter_value
    (http_requests_total
       (app_metrics (serve test_settings sample_loads PyDatetime.fromisoformat
                       Get_health_live fresh_app).2))
    (py "/health/live", 200%Z)
  = 1%nat.
Proof.
  destruct (serve_counts_request test_settings sample_loads PyDatetime.fromisoformat
              Get_health_live fresh_app) as (_ & H & _).
  destruct H as [H _]; [vm_compute; discriminate|]. exact H.
Defined.

Lemma reads_leave_store_witness :
  let app := {| app_db := sample_db; app_metrics := no_metrics |} in
  app_db (serve test_settings sample_loads PyDatetime.fromisoformat Get_stats app).2
  = sample_db
  /\ webhook_requests_total
       (app_metrics (serve test_settings sample_loads PyDatetime.fromisoformat
                       Get_stats app).2)
     = ∅.
Proof.
  cbn zeta.
  apply (reads_leave_store test_settings sample_loads PyDatetime.fromisoformat
           Get_stats {| app_db := sample_db; app_metrics := no_metrics |}).
  intros now req. discriminate.
Defined.

Lemma webhook_then_listed_witness :
  let db' := db_after (webhook test_settings sample_loads PyDatetime.fromisoformat
                         (py "2025-01-15T10:00:01.000000") request_m1 []) in
  exists row page,
    row ∈ db' /\ r_message_id row = py "m1"
    /\ get_messages 50 0 None None None db' = Ok (page, Z.of_nat (length db'))
    /\ dict_of_row row ∈ page.
Proof.
  destruct (webhook_then_listed test_settings sample_loads PyDatetime.fromisoformat
              (py "2025-01-15T10:00:01.000000") request_m1
              {| wm_message_id := py "m1"; wm_from_ := py "+919876543210";
                 wm_to := py "+14155550100"; wm_ts := py "2025-01-15T10:00:00Z";
                 wm_text := Some (py "Hello") |} [] 50)
    as (row & page & H1 & H2 & H3 & H4 & _).
  - vm_compute. reflexivity.
  - vm_compute. reflexivity.
  - split; [unfold int64; lia | right; cbn; lia].
  - exists row, page. auto.
Defined.

Lemma webhook_unsigned_witness :
  let o := webhook test_settings sample_loads PyDatetime.fromisoformat
             (py "2025-01-15T10:00:01.000000")
             {| req_body := body_m1; x_signature := None |} sample_db in
  response o = http_exception 401 (DetailText (py "invalid signature"))
  /\ db_after o = sample_db.
Proof.
  apply (webhook_unsigned test_settings sample_loads PyDatetime.fromisoformat
           (py "2025-01-15T10:00:01.000000") body_m1 (py "testsecret") sample_db None).
  - reflexivity.
  - left. reflexivity.
Defined.
